(** * Psymetrique: transcript segmentation, entity insertion and anonymization

    A shallow embedding of the text-handling core of the application:
    - [app_state.py]: the [Entity] and [Paragraph] records and
      [AppState._split_into_paragraphs];
    - [services/nlp_service.py]: [NLPService.anonymize_text],
      [NLPService.extract_entities] and the regex fallback;
    - [ui/components/entities.py]: the manual insertion paths and
      [EntitiesSection._apply_anonymization].

    Python [str] values are lists of Unicode code points, Python [int]s are
    [Z]; the built-in string operations used by the sources are modelled in
    module [Py]. *)

From Stdlib Require Import String Ascii.
From Stdlib Require Import ZArith NArith List Bool Lia Permutation.
Import ListNotations.
Open Scope Z_scope.

(* ================================================================== *)
(** ** Python built-ins used by the sources *)
(* ================================================================== *)

Module Py.

(** A Python [str] is a sequence of code points. *)
Definition char := N.
Definition str := list char.

(** ASCII string literals of the sources. *)
Definition lit (x : string) : str := map N_of_ascii (list_ascii_of_string x).

Definition len (t : str) : Z := Z.of_nat (length t).

Definition char_eqb : char -> char -> bool := N.eqb.

Fixpoint str_eqb (a b : str) : bool :=
  match a, b with
  | [], [] => true
  | x :: a', y :: b' => char_eqb x y && str_eqb a' b'
  | _, _ => false
  end.

(** Truthiness of a [str]: the empty string is falsy. *)
Definition truthy (t : str) : bool :=
  match t with [] => false | _ :: _ => true end.

(** [x or y] on strings. *)
Definition str_or (x y : str) : str := if truthy x then x else y.

(** *** Slicing

    A slice bound [i] of a sequence of length [n] is adjusted as CPython's
    [PySlice_AdjustIndices] does: a negative bound counts from the end and
    is floored at 0, a bound beyond the end becomes [n].  Slicing never
    raises. *)
Definition clip (n i : Z) : Z :=
  if i <? 0 then Z.max 0 (i + n) else Z.min i n.

(** [t[:i]] *)
Definition slice_to (t : str) (i : Z) : str :=
  firstn (Z.to_nat (clip (len t) i)) t.

(** [t[i:]] *)
Definition slice_from (t : str) (i : Z) : str :=
  skipn (Z.to_nat (clip (len t) i)) t.

(** [t[i:j]] *)
Definition slice (t : str) (i j : Z) : str :=
  let a := clip (len t) i in
  let b := clip (len t) j in
  firstn (Z.to_nat (b - a)) (skipn (Z.to_nat a) t).

(** *** Character classes

    [str.isspace] holds of exactly these code points; [str.strip] and the
    regex class [\s] of a [str] pattern use the same set. *)
Definition isspace (c : char) : bool :=
  (((9 <=? c) && (c <=? 13)) || ((28 <=? c) && (c <=? 32))
   || (c =? 133) || (c =? 160) || (c =? 5760)
   || ((8192 <=? c) && (c <=? 8202))
   || (c =? 8232) || (c =? 8233) || (c =? 8239) || (c =? 8287)
   || (c =? 12288))%N.

(** The regex class [[A-Z]]. *)
Definition is_AZ (c : char) : bool := ((65 <=? c) && (c <=? 90))%N.

(** *** [str.lower]

    [str.lower] lower-cases code point by code point with the full case
    mapping of the Unicode character database, except for U+03A3 (capital
    sigma), whose lower case depends on its neighbours. *)

(** The single-code-point lower-case mappings of the Unicode character
    database (version 14.0, the one CPython 3.11 is built with), as used by
    [_PyUnicode_ToLowerFull].  An entry [(lo, hi, step, lo')] says that
    the code points [lo], [lo + step], ..., up to [hi] map to [lo'],
    [lo' + step], ...; entries are in ascending order and do not overlap.
    A code point in no entry is its own lower case. *)
Definition lower_table : list (N * N * N * N) :=
  [(65, 90, 1, 97); (192, 214, 1, 224); (216, 222, 1, 248);
   (256, 302, 2, 257); (306, 310, 2, 307); (313, 327, 2, 314);
   (330, 374, 2, 331); (376, 376, 1, 255); (377, 381, 2, 378);
   (385, 385, 1, 595); (386, 388, 2, 387); (390, 390, 1, 596);
   (391, 391, 1, 392); (393, 394, 1, 598); (395, 395, 1, 396);
   (398, 398, 1, 477); (399, 399, 1, 601); (400, 400, 1, 603);
   (401, 401, 1, 402); (403, 403, 1, 608); (404, 404, 1, 611);
   (406, 406, 1, 617); (407, 407, 1, 616); (408, 408, 1, 409);
   (412, 412, 1, 623); (413, 413, 1, 626); (415, 415, 1, 629);
   (416, 420, 2, 417); (422, 422, 1, 640); (423, 423, 1, 424);
   (425, 425, 1, 643); (428, 428, 1, 429); (430, 430, 1, 648);
   (431, 431, 1, 432); (433, 434, 1, 650); (435, 437, 2, 436);
   (439, 439, 1, 658); (440, 440, 1, 441); (444, 444, 1, 445);
   (452, 452, 1, 454); (453, 453, 1, 454); (455, 455, 1, 457);
   (456, 456, 1, 457); (458, 458, 1, 460); (459, 475, 2, 460);
   (478, 494, 2, 479); (497, 497, 1, 499); (498, 500, 2, 499);
   (502, 502, 1, 405); (503, 503, 1, 447); (504, 542, 2, 505);
   (544, 544, 1, 414); (546, 562, 2, 547); (570, 570, 1, 11365);
   (571, 571, 1, 572); (573, 573, 1, 410); (574, 574, 1, 11366);
   (577, 577, 1, 578); (579, 579, 1, 384); (580, 580, 1, 649);
   (581, 581, 1, 652); (582, 590, 2, 583); (880, 882, 2, 881);
   (886, 886, 1, 887); (895, 895, 1, 1011); (902, 902, 1, 940);
   (904, 906, 1, 941); (908, 908, 1, 972); (910, 911, 1, 973);
   (913, 929, 1, 945); (931, 939, 1, 963); (975, 975, 1, 983);
   (984, 1006, 2, 985); (1012, 1012, 1, 952); (1015, 1015, 1, 1016);
   (1017, 1017, 1, 1010); (1018, 1018, 1, 1019); (1021, 1023, 1, 891);
   (1024, 1039, 1, 1104); (1040, 1071, 1, 1072); (1120, 1152, 2, 1121);
   (1162, 1214, 2, 1163); (1216, 1216, 1, 1231); (1217, 1229, 2, 1218);
   (1232, 1326, 2, 1233); (1329, 1366, 1, 1377); (4256, 4293, 1, 11520);
   (4295, 4295, 1, 11559); (4301, 4301, 1, 11565); (5024, 5103, 1, 43888);
   (5104, 5109, 1, 5112); (7312, 7354, 1, 4304); (7357, 7359, 1, 4349);
   (7680, 7828, 2, 7681); (7838, 7838, 1, 223); (7840, 7934, 2, 7841);
   (7944, 7951, 1, 7936); (7960, 7965, 1, 7952); (7976, 7983, 1, 7968);
   (7992, 7999, 1, 7984); (8008, 8013, 1, 8000); (8025, 8031, 2, 8017);
   (8040, 8047, 1, 8032); (8072, 8079, 1, 8064); (8088, 8095, 1, 8080);
   (8104, 8111, 1, 8096); (8120, 8121, 1, 8112); (8122, 8123, 1, 8048);
   (8124, 8124, 1, 8115); (8136, 8139, 1, 8050); (8140, 8140, 1, 8131);
   (8152, 8153, 1, 8144); (8154, 8155, 1, 8054); (8168, 8169, 1, 8160);
   (8170, 8171, 1, 8058); (8172, 8172, 1, 8165); (8184, 8185, 1, 8056);
   (8186, 8187, 1, 8060); (8188, 8188, 1, 8179); (8486, 8486, 1, 969);
   (8490, 8490, 1, 107); (8491, 8491, 1, 229); (8498, 8498, 1, 8526);
   (8544, 8559, 1, 8560); (8579, 8579, 1, 8580); (9398, 9423, 1, 9424);
   (11264, 11311, 1, 11312); (11360, 11360, 1, 11361);
   (11362, 11362, 1, 619); (11363, 11363, 1, 7549); (11364, 11364, 1, 637);
   (11367, 11371, 2, 11368); (11373, 11373, 1, 593); (11374, 11374, 1, 625);
   (11375, 11375, 1, 592); (11376, 11376, 1, 594); (11378, 11378, 1, 11379);
   (11381, 11381, 1, 11382); (11390, 11391, 1, 575);
   (11392, 11490, 2, 11393); (11499, 11501, 2, 11500);
   (11506, 11506, 1, 11507); (42560, 42604, 2, 42561);
   (42624, 42650, 2, 42625); (42786, 42798, 2, 42787);
   (42802, 42862, 2, 42803); (42873, 42875, 2, 42874);
   (42877, 42877, 1, 7545); (42878, 42886, 2, 42879);
   (42891, 42891, 1, 42892); (42893, 42893, 1, 613);
   (42896, 42898, 2, 42897); (42902, 42920, 2, 42903);
   (42922, 42922, 1, 614); (42923, 42923, 1, 604); (42924, 42924, 1, 609);
   (42925, 42925, 1, 620); (42926, 42926, 1, 618); (42928, 42928, 1, 670);
   (42929, 42929, 1, 647); (42930, 42930, 1, 669); (42931, 42931, 1, 43859);
   (42932, 42946, 2, 42933); (42948, 42948, 1, 42900);
   (42949, 42949, 1, 642); (42950, 42950, 1, 7566); (42951, 42953, 2, 42952);
   (42960, 42960, 1, 42961); (42966, 42968, 2, 42967);
   (42997, 42997, 1, 42998); (65313, 65338, 1, 65345);
   (66560, 66599, 1, 66600); (66736, 66771, 1, 66776);
   (66928, 66938, 1, 66967); (66940, 66954, 1, 66979);
   (66956, 66962, 1, 66995); (66964, 66965, 1, 67003);
   (68736, 68786, 1, 68800); (71840, 71871, 1, 71872);
   (93760, 93791, 1, 93792); (125184, 125217, 1, 125218)]%N.

(** The code points with the derived property Case_Ignorable, as closed
    intervals in ascending order. *)
Definition case_ignorable_table : list (N * N) :=
  [(39, 39); (46, 46); (58, 58); (94, 94); (96, 96); (168, 168); (173, 173);
   (175, 175); (180, 180); (183, 184); (688, 879); (884, 885); (890, 890);
   (900, 901); (903, 903); (1155, 1161); (1369, 1369); (1375, 1375);
   (1425, 1469); (1471, 1471); (1473, 1474); (1476, 1477); (1479, 1479);
   (1524, 1524); (1536, 1541); (1552, 1562); (1564, 1564); (1600, 1600);
   (1611, 1631); (1648, 1648); (1750, 1757); (1759, 1768); (1770, 1773);
   (1807, 1807); (1809, 1809); (1840, 1866); (1958, 1968); (2027, 2037);
   (2042, 2042); (2045, 2045); (2070, 2093); (2137, 2139); (2184, 2184);
   (2192, 2193); (2200, 2207); (2249, 2306); (2362, 2362); (2364, 2364);
   (2369, 2376); (2381, 2381); (2385, 2391); (2402, 2403); (2417, 2417);
   (2433, 2433); (2492, 2492); (2497, 2500); (2509, 2509); (2530, 2531);
   (2558, 2558); (2561, 2562); (2620, 2620); (2625, 2626); (2631, 2632);
   (2635, 2637); (2641, 2641); (2672, 2673); (2677, 2677); (2689, 2690);
   (2748, 2748); (2753, 2757); (2759, 2760); (2765, 2765); (2786, 2787);
   (2810, 2815); (2817, 2817); (2876, 2876); (2879, 2879); (2881, 2884);
   (2893, 2893); (2901, 2902); (2914, 2915); (2946, 2946); (3008, 3008);
   (3021, 3021); (3072, 3072); (3076, 3076); (3132, 3132); (3134, 3136);
   (3142, 3144); (3146, 3149); (3157, 3158); (3170, 3171); (3201, 3201);
   (3260, 3260); (3263, 3263); (3270, 3270); (3276, 3277); (3298, 3299);
   (3328, 3329); (3387, 3388); (3393, 3396); (3405, 3405); (3426, 3427);
   (3457, 3457); (3530, 3530); (3538, 3540); (3542, 3542); (3633, 3633);
   (3636, 3642); (3654, 3662); (3761, 3761); (3764, 3772); (3782, 3782);
   (3784, 3789); (3864, 3865); (3893, 3893); (3895, 3895); (3897, 3897);
   (3953, 3966); (3968, 3972); (3974, 3975); (3981, 3991); (3993, 4028);
   (4038, 4038); (4141, 4144); (4146, 4151); (4153, 4154); (4157, 4158);
   (4184, 4185); (4190, 4192); (4209, 4212); (4226, 4226); (4229, 4230);
   (4237, 4237); (4253, 4253); (4348, 4348); (4957, 4959); (5906, 5908);
   (5938, 5939); (5970, 5971); (6002, 6003); (6068, 6069); (6071, 6077);
   (6086, 6086); (6089, 6099); (6103, 6103); (6109, 6109); (6155, 6159);
   (6211, 6211); (6277, 6278); (6313, 6313); (6432, 6434); (6439, 6440);
   (6450, 6450); (6457, 6459); (6679, 6680); (6683, 6683); (6742, 6742);
   (6744, 6750); (6752, 6752); (6754, 6754); (6757, 6764); (6771, 6780);
   (6783, 6783); (6823, 6823); (6832, 6862); (6912, 6915); (6964, 6964);
   (6966, 6970); (6972, 6972); (6978, 6978); (7019, 7027); (7040, 7041);
   (7074, 7077); (7080, 7081); (7083, 7085); (7142, 7142); (7144, 7145);
   (7149, 7149); (7151, 7153); (7212, 7219); (7222, 7223); (7288, 7293);
   (7376, 7378); (7380, 7392); (7394, 7400); (7405, 7405); (7412, 7412);
   (7416, 7417); (7468, 7530); (7544, 7544); (7579, 7679); (8125, 8125);
   (8127, 8129); (8141, 8143); (8157, 8159); (8173, 8175); (8189, 8190);
   (8203, 8207); (8216, 8217); (8228, 8228); (8231, 8231); (8234, 8238);
   (8288, 8292); (8294, 8303); (8305, 8305); (8319, 8319); (8336, 8348);
   (8400, 8432); (11388, 11389); (11503, 11505); (11631, 11631);
   (11647, 11647); (11744, 11775); (11823, 11823); (12293, 12293);
   (12330, 12333); (12337, 12341); (12347, 12347); (12441, 12446);
   (12540, 12542); (40981, 40981); (42232, 42237); (42508, 42508);
   (42607, 42610); (42612, 42621); (42623, 42623); (42652, 42655);
   (42736, 42737); (42752, 42785); (42864, 42864); (42888, 42890);
   (42994, 42996); (43000, 43001); (43010, 43010); (43014, 43014);
   (43019, 43019); (43045, 43046); (43052, 43052); (43204, 43205);
   (43232, 43249); (43263, 43263); (43302, 43309); (43335, 43345);
   (43392, 43394); (43443, 43443); (43446, 43449); (43452, 43453);
   (43471, 43471); (43493, 43494); (43561, 43566); (43569, 43570);
   (43573, 43574); (43587, 43587); (43596, 43596); (43632, 43632);
   (43644, 43644); (43696, 43696); (43698, 43700); (43703, 43704);
   (43710, 43711); (43713, 43713); (43741, 43741); (43756, 43757);
   (43763, 43764); (43766, 43766); (43867, 43871); (43881, 43883);
   (44005, 44005); (44008, 44008); (44013, 44013); (64286, 64286);
   (64434, 64450); (65024, 65039); (65043, 65043); (65056, 65071);
   (65106, 65106); (65109, 65109); (65279, 65279); (65287, 65287);
   (65294, 65294); (65306, 65306); (65342, 65342); (65344, 65344);
   (65392, 65392); (65438, 65439); (65507, 65507); (65529, 65531);
   (66045, 66045); (66272, 66272); (66422, 66426); (67456, 67461);
   (67463, 67504); (67506, 67514); (68097, 68099); (68101, 68102);
   (68108, 68111); (68152, 68154); (68159, 68159); (68325, 68326);
   (68900, 68903); (69291, 69292); (69446, 69456); (69506, 69509);
   (69633, 69633); (69688, 69702); (69744, 69744); (69747, 69748);
   (69759, 69761); (69811, 69814); (69817, 69818); (69821, 69821);
   (69826, 69826); (69837, 69837); (69888, 69890); (69927, 69931);
   (69933, 69940); (70003, 70003); (70016, 70017); (70070, 70078);
   (70089, 70092); (70095, 70095); (70191, 70193); (70196, 70196);
   (70198, 70199); (70206, 70206); (70367, 70367); (70371, 70378);
   (70400, 70401); (70459, 70460); (70464, 70464); (70502, 70508);
   (70512, 70516); (70712, 70719); (70722, 70724); (70726, 70726);
   (70750, 70750); (70835, 70840); (70842, 70842); (70847, 70848);
   (70850, 70851); (71090, 71093); (71100, 71101); (71103, 71104);
   (71132, 71133); (71219, 71226); (71229, 71229); (71231, 71232);
   (71339, 71339); (71341, 71341); (71344, 71349); (71351, 71351);
   (71453, 71455); (71458, 71461); (71463, 71467); (71727, 71735);
   (71737, 71738); (71995, 71996); (71998, 71998); (72003, 72003);
   (72148, 72151); (72154, 72155); (72160, 72160); (72193, 72202);
   (72243, 72248); (72251, 72254); (72263, 72263); (72273, 72278);
   (72281, 72283); (72330, 72342); (72344, 72345); (72752, 72758);
   (72760, 72765); (72767, 72767); (72850, 72871); (72874, 72880);
   (72882, 72883); (72885, 72886); (73009, 73014); (73018, 73018);
   (73020, 73021); (73023, 73029); (73031, 73031); (73104, 73105);
   (73109, 73109); (73111, 73111); (73459, 73460); (78896, 78904);
   (92912, 92916); (92976, 92982); (92992, 92995); (94031, 94031);
   (94095, 94111); (94176, 94177); (94179, 94180); (110576, 110579);
   (110581, 110587); (110589, 110590); (113821, 113822); (113824, 113827);
   (118528, 118573); (118576, 118598); (119143, 119145); (119155, 119170);
   (119173, 119179); (119210, 119213); (119362, 119364); (121344, 121398);
   (121403, 121452); (121461, 121461); (121476, 121476); (121499, 121503);
   (121505, 121519); (122880, 122886); (122888, 122904); (122907, 122913);
   (122915, 122916); (122918, 122922); (123184, 123197); (123566, 123566);
   (123628, 123631); (125136, 125142); (125252, 125259); (127995, 127999);
   (917505, 917505); (917536, 917631); (917760, 917999)]%N.

(** The code points with the derived property Cased that are not
    Case_Ignorable, as closed intervals in ascending order. *)
Definition cased_table : list (N * N) :=
  [(65, 90); (97, 122); (170, 170); (181, 181); (186, 186); (192, 214);
   (216, 246); (248, 442); (444, 447); (452, 659); (661, 687); (880, 883);
   (886, 887); (891, 893); (895, 895); (902, 902); (904, 906); (908, 908);
   (910, 929); (931, 1013); (1015, 1153); (1162, 1327); (1329, 1366);
   (1376, 1416); (4256, 4293); (4295, 4295); (4301, 4301); (4304, 4346);
   (4349, 4351); (5024, 5109); (5112, 5117); (7296, 7304); (7312, 7354);
   (7357, 7359); (7424, 7467); (7531, 7543); (7545, 7578); (7680, 7957);
   (7960, 7965); (7968, 8005); (8008, 8013); (8016, 8023); (8025, 8025);
   (8027, 8027); (8029, 8029); (8031, 8061); (8064, 8116); (8118, 8124);
   (8126, 8126); (8130, 8132); (8134, 8140); (8144, 8147); (8150, 8155);
   (8160, 8172); (8178, 8180); (8182, 8188); (8450, 8450); (8455, 8455);
   (8458, 8467); (8469, 8469); (8473, 8477); (8484, 8484); (8486, 8486);
   (8488, 8488); (8490, 8493); (8495, 8500); (8505, 8505); (8508, 8511);
   (8517, 8521); (8526, 8526); (8544, 8575); (8579, 8580); (9398, 9449);
   (11264, 11387); (11390, 11492); (11499, 11502); (11506, 11507);
   (11520, 11557); (11559, 11559); (11565, 11565); (42560, 42605);
   (42624, 42651); (42786, 42863); (42865, 42887); (42891, 42894);
   (42896, 42954); (42960, 42961); (42963, 42963); (42965, 42969);
   (42997, 42998); (43002, 43002); (43824, 43866); (43872, 43880);
   (43888, 43967); (64256, 64262); (64275, 64279); (65313, 65338);
   (65345, 65370); (66560, 66639); (66736, 66771); (66776, 66811);
   (66928, 66938); (66940, 66954); (66956, 66962); (66964, 66965);
   (66967, 66977); (66979, 66993); (66995, 67001); (67003, 67004);
   (68736, 68786); (68800, 68850); (71840, 71903); (93760, 93823);
   (119808, 119892); (119894, 119964); (119966, 119967); (119970, 119970);
   (119973, 119974); (119977, 119980); (119982, 119993); (119995, 119995);
   (119997, 120003); (120005, 120069); (120071, 120074); (120077, 120084);
   (120086, 120092); (120094, 120121); (120123, 120126); (120128, 120132);
   (120134, 120134); (120138, 120144); (120146, 120485); (120488, 120512);
   (120514, 120538); (120540, 120570); (120572, 120596); (120598, 120628);
   (120630, 120654); (120656, 120686); (120688, 120712); (120714, 120744);
   (120746, 120770); (120772, 120779); (122624, 122633); (122635, 122654);
   (125184, 125251); (127280, 127305); (127312, 127337); (127344, 127369)]%N.

Fixpoint lower_in (table : list (N * N * N * N)) (c : char) : char :=
  match table with
  | [] => c
  | (lo, hi, step, lo') :: rest =>
      (if c <? lo then c
       else if (c <=? hi) && ((c - lo) mod step =? 0) then lo' + (c - lo)
       else lower_in rest c)%N
  end.

Fixpoint in_ranges (table : list (N * N)) (c : char) : bool :=
  match table with
  | [] => false
  | (lo, hi) :: rest =>
      (if c <? lo then false
       else if c <=? hi then true
       else in_ranges rest c)%N
  end.

Definition case_ignorable : char -> bool := in_ranges case_ignorable_table.

(** Cased and not case-ignorable. *)
Definition cased : char -> bool := in_ranges cased_table.

(** The lower case of one code point.  U+0130 (capital I with dot above)
    is the one code point whose lower case is two code points long (U+0069
    U+0307); every other code point maps to a single code point. *)
Definition lower_char (c : char) : str :=
  (if c =? 304 then [105; 775] else [lower_in lower_table c])%N.

(** The first code point of [t] that is not case-ignorable. *)
Fixpoint first_solid (t : str) : option char :=
  match t with
  | [] => None
  | c :: t' => if case_ignorable c then first_solid t' else Some c
  end.

(** The final-sigma rule: a capital sigma becomes U+03C2 when, skipping
    case-ignorable code points, a cased code point precedes it and none
    follows it; [before] is the text before the sigma, nearest code point
    first, [after] the text behind it. *)
Definition final_sigma (before after : str) : bool :=
  match first_solid before with
  | Some b =>
      cased b
      && match first_solid after with
         | Some a => negb (cased a)
         | None => true
         end
  | None => false
  end.

Fixpoint lower_from (before t : str) : str :=
  match t with
  | [] => []
  | c :: t' =>
      (if (c =? 931)%N
       then [if final_sigma before t' then 962%N else 963%N]
       else lower_char c)
      ++ lower_from (c :: before) t'
  end.

Definition lower (t : str) : str := lower_from [] t.

(** *** [str.strip] (no argument: strips white space) *)
Fixpoint lstrip (t : str) : str :=
  match t with
  | c :: t' => if isspace c then lstrip t' else t
  | [] => []
  end.

Definition rstrip (t : str) : str := rev (lstrip (rev t)).

Definition strip (t : str) : str := rstrip (lstrip t).

(** *** [str.startswith], [str.endswith], [str.find], [in] *)
Fixpoint startswith (t sub : str) : bool :=
  match sub, t with
  | [], _ => true
  | x :: sub', y :: t' => char_eqb x y && startswith t' sub'
  | _ :: _, [] => false
  end.

Definition endswith (t suffix : str) : bool := startswith (rev t) (rev suffix).

(** [find_at sub t i]: the lowest index at which [sub] starts in [t],
    counted from [i] for the head of [t]; [-1] when there is none. *)
Fixpoint find_at (sub t : str) (i : Z) : Z :=
  if startswith t sub then i
  else match t with
       | [] => -1
       | _ :: t' => find_at sub t' (i + 1)
       end.

(** [t.find(sub, start)] *)
Definition str_find (t sub : str) (start : Z) : Z :=
  if len t <? start then -1
  else let a := clip (len t) start in
       find_at sub (skipn (Z.to_nat a) t) a.

(** [sub in t] *)
Definition contains (t sub : str) : bool := negb (str_find t sub 0 =? -1).

(** *** [str.split(sep)] for a non-empty separator, [sep.join]

    [split_go sep t cur skip]: [cur] is the piece being read, reversed;
    [skip] counts the code points of a separator still to be passed. *)
Fixpoint split_go (sep t cur : str) (skip : nat) : list str :=
  match t with
  | [] => [rev cur]
  | c :: t' =>
      match skip with
      | S k => split_go sep t' cur k
      | O => if startswith t sep
             then rev cur :: split_go sep t' [] (Nat.pred (length sep))
             else split_go sep t' (c :: cur) O
      end
  end.

Definition str_split (t sep : str) : list str := split_go sep t [] O.

Fixpoint str_join (sep : str) (l : list str) : str :=
  match l with
  | [] => []
  | [x] => x
  | x :: l' => x ++ sep ++ str_join sep l'
  end.

(** *** The two [re.split] calls of the segmenter

    [re.split(r'[.!?]+', t)]: cut at every maximal run of code points
    satisfying [p]. *)
Fixpoint re_split_runs (p : char -> bool) (t cur : str) (in_run : bool)
  : list str :=
  match t with
  | [] => [rev cur]
  | c :: t' =>
      if p c
      then if in_run then re_split_runs p t' cur true
           else rev cur :: re_split_runs p t' [] true
      else re_split_runs p t' (c :: cur) false
  end.

Definition is_sentence_end (c : char) : bool :=
  ((c =? 46) || (c =? 33) || (c =? 63))%N.

(** The look-ahead [(?=\s+[A-Z])]: one or more white-space code points
    and then a capital. *)
Fixpoint ws_then_capital (t : str) (seen_ws : bool) : bool :=
  match t with
  | [] => false
  | c :: t' => if isspace c then ws_then_capital t' true
               else seen_ws && is_AZ c
  end.

(** [re.split(r'\.(?=\s+[A-Z])', t)]: cut at (and drop) every full stop
    that the look-ahead follows. *)
Fixpoint re_split_period (t cur : str) : list str :=
  match t with
  | [] => [rev cur]
  | c :: t' =>
      if (c =? 46)%N && ws_then_capital t' false
      then rev cur :: re_split_period t' []
      else re_split_period t' (c :: cur)
  end.

(** *** [enumerate] *)
Fixpoint enumerate_from {A : Type} (i : Z) (l : list A) : list (Z * A) :=
  match l with
  | [] => []
  | x :: l' => (i, x) :: enumerate_from (i + 1) l'
  end.

Definition enumerate {A : Type} (l : list A) : list (Z * A) :=
  enumerate_from 0 l.

(** *** List indexing [l[i]]: a negative index counts from the end, an
    index out of range raises [IndexError] ([None] here). *)
Definition index {A : Type} (l : list A) (i : Z) : option A :=
  let n := Z.of_nat (length l) in
  if (0 <=? i) && (i <? n) then nth_error l (Z.to_nat i)
  else if (- n <=? i) && (i <? 0) then nth_error l (Z.to_nat (i + n))
  else None.

(** *** Exceptions

    A computation that may raise returns an [outcome]. *)
Inductive outcome (A : Type) : Type :=
| Returns (a : A)
| Raises (exc : str).
Arguments Returns {A} a.
Arguments Raises {A} exc.

(** [try: body  except Exception: handler] *)
Definition try_except {A : Type} (body : outcome A) (handler : str -> outcome A)
  : outcome A :=
  match body with
  | Returns a => Returns a
  | Raises exc => handler exc
  end.

Definition bind {A B : Type} (c : outcome A) (k : A -> outcome B) : outcome B :=
  match c with
  | Returns a => k a
  | Raises exc => Raises exc
  end.

Notation "x <- c ;; k" := (bind c (fun x => k))
  (at level 61, c at next level, right associativity).

(** *** [sorted(l, key=key, reverse=True)]

    Python's sort is stable, also with [reverse=True]: elements with equal
    keys keep their original relative order.  [insert_desc x l] puts [x],
    which preceded every element of [l] in the input, after the elements
    with a strictly greater key and before those with an equal key. *)
Section Sorted.
Context {A : Type} (key : A -> Z).

Fixpoint insert_desc (x : A) (l : list A) : list A :=
  match l with
  | [] => [x]
  | y :: l' => if key x <? key y then y :: insert_desc x l' else x :: l
  end.

Definition sorted_desc (l : list A) : list A :=
  fold_right insert_desc [] l.

(** The order of the output: [a] may come before [b]. *)
Definition key_desc (a b : A) : Prop := key b <= key a.
End Sorted.

End Py.

Import Py.

(* ================================================================== *)
(** ** app_state.py: records *)
(* ================================================================== *)

(** The [Entity] dataclass.  [paragraph_id] and [auto_detected] are the
    attributes the UI attaches to an entity after construction; [None]
    stands for an entity on which the attribute was never set, so
    [hasattr(e, 'paragraph_id')] is [paragraph_id e <> None]. *)
Module Entity.
Record t : Type := mk {
  text : str;
  entity_type : str;
  start_pos : Z;
  end_pos : Z;
  anonymized : bool;
  replacement : str;
  paragraph_id : option Z;
  auto_detected : option bool
}.

(** [Entity(text=.., entity_type=.., start_pos=.., end_pos=..)] with the
    dataclass defaults: not anonymized, empty replacement. *)
Definition new (txt ty : str) (s e : Z) : t :=
  mk txt ty s e false [] None None.
End Entity.

Abbreviation text := Entity.text.
Abbreviation entity_type := Entity.entity_type.
Abbreviation start_pos := Entity.start_pos.
Abbreviation end_pos := Entity.end_pos.
Abbreviation anonymized := Entity.anonymized.
Abbreviation replacement := Entity.replacement.
Abbreviation paragraph_id := Entity.paragraph_id.
Abbreviation auto_detected := Entity.auto_detected.

(** The [Paragraph] dataclass. *)
Module Paragraph.
Record t : Type := mk {
  id : Z;
  text : str;
  speaker : str;
  sentiment : str;
  entities : list Entity.t;
  codes : list str
}.

(** [Paragraph(id=i, text=text)] with the dataclass defaults. *)
Definition new (i : Z) (txt : str) : t :=
  mk i txt (lit "unknown") (lit "neutral") [] [].

(** [paragraph.text = txt] *)
Definition set_text (p : t) (txt : str) : t :=
  mk (id p) txt (speaker p) (sentiment p) (entities p) (codes p).
End Paragraph.

(** The part of [AppState] the modelled methods read or write; the step
    counter, the file path, the coding schemes and the analysis results
    are left out, none of these methods touches them. *)
Module AppState.
Record t : Type := mk {
  original_transcript : str;
  current_transcript : str;
  paragraphs : list Paragraph.t;
  entities : list Entity.t
}.

Definition set_paragraphs (st : t) (ps : list Paragraph.t) : t :=
  mk (original_transcript st) (current_transcript st) ps (entities st).

Definition set_entities (st : t) (es : list Entity.t) : t :=
  mk (original_transcript st) (current_transcript st) (paragraphs st) es.

Definition LF : char := 10%N.

(** [[p.strip() for p in units if p.strip()]] *)
Definition stripped_units (units : list str) : list str :=
  map strip (filter (fun p => truthy (strip p)) units).

(** Strategy 1: [content.split('\n\n')] *)
Definition by_blank_lines (content : str) : list str :=
  stripped_units (str_split content [LF; LF]).

(** Strategy 2: [content.split('\n')] *)
Definition by_line_breaks (content : str) : list str :=
  stripped_units (str_split content [LF]).

(** Strategy 3: [re.split(r'[.!?]+', content)] *)
Definition by_sentences (content : str) : list str :=
  stripped_units (re_split_runs is_sentence_end content [] false).

(** The [if '\n\n' in content: ... elif '\n' in content: ... else: ...]
    chain. *)
Definition primary_units (content : str) : list str :=
  if contains content [LF; LF] then by_blank_lines content
  else if contains content [LF] then by_line_breaks content
  else by_sentences content.

(** The second stage: a single unit longer than 500 code points is cut at
    full stops followed by white space and a capital. *)
Definition refine_long_unit (paragraphs_text : list str) : list str :=
  match paragraphs_text with
  | [only] =>
      if 500 <? len only then
        let sentences := re_split_period only [] in
        if 1 <? Z.of_nat (length sentences) then
          map (fun s => if negb (endswith s (lit "."))
                        then strip s ++ lit "."
                        else strip s)
              (filter (fun s => truthy (strip s)) sentences)
        else paragraphs_text
      else paragraphs_text
  | _ => paragraphs_text
  end.

Definition paragraphs_text_of (content : str) : list str :=
  refine_long_unit (primary_units content).

Definition _split_into_paragraphs (st : t) (content : str) : t :=
  set_paragraphs st
    (map (fun it => Paragraph.new (fst it) (snd it))
         (enumerate (paragraphs_text_of content))).
End AppState.

(* ================================================================== *)
(** ** services/nlp_service.py: anonymize_text *)
(* ================================================================== *)

Module NLPService.

(** [entity.replacement or f"[{entity.entity_type}]"] *)
Definition placeholder (ty : str) : str := lit "[" ++ ty ++ lit "]".

Definition replacement_of (e : Entity.t) : str :=
  str_or (replacement e) (placeholder (entity_type e)).

(** One iteration of the loop body, for an entity that is marked. *)
Definition splice (anonymized_text : str) (e : Entity.t) : str :=
  slice_to anonymized_text (start_pos e)
    ++ replacement_of e
    ++ slice_from anonymized_text (end_pos e).

Definition anonymize_step (anonymized_text : str) (e : Entity.t) : str :=
  if anonymized e then splice anonymized_text e else anonymized_text.

Definition anonymize_text (txt : str) (entities : list Entity.t) : str :=
  let sorted_entities := sorted_desc start_pos entities in
  fold_left anonymize_step sorted_entities txt.

(** *** The Stanza recognizer and the regex fallback *)

(** What the code reads of a Stanza entity, and of a document: the
    entities of each sentence. *)
Record StanzaEntity : Type := mkStanzaEntity {
  ent_text : str;
  ent_type : str;
  start_char : Z;
  end_char : Z
}.

Definition Document := list (list StanzaEntity).

(** A pipeline is called on a text; the call may raise. *)
Definition Pipeline := str -> outcome Document.

(** The [stanza] module as the initialisation uses it: the first
    [stanza.Pipeline(...)] call (with [download_method=None]), then
    [stanza.download('en')] and the second [stanza.Pipeline(...)]. *)
Record Stanza : Type := mkStanza {
  Pipeline_offline : outcome Pipeline;
  download : outcome unit;
  Pipeline_downloaded : outcome Pipeline
}.

(** The class attributes [_shared_pipeline], [_shared_initialized] and the
    instance attributes [nlp_pipeline], [_stanza_initialized]. *)
Record t : Type := mk {
  _shared_pipeline : option Pipeline;
  _shared_initialized : bool;
  nlp_pipeline : option Pipeline;
  _stanza_initialized : bool
}.

(** [NLPService()] reads the class attributes. *)
Definition init (shared : option Pipeline) (shared_initialized : bool) : t :=
  mk shared shared_initialized shared shared_initialized.

Definition with_pipeline (st : t) (p : option Pipeline) : t :=
  mk p (_shared_initialized st) p (_stanza_initialized st).

Definition _initialize_stanza (stanza : Stanza) (st : t) : outcome t :=
  if _stanza_initialized st || _shared_initialized st then
    match _shared_pipeline st with
    | Some p => Returns (mk (Some p) (_shared_initialized st) (Some p) true)
    | None => Returns st
    end
  else
    let st := mk (_shared_pipeline st) true (nlp_pipeline st) true in
    try_except
      (pipeline <- Pipeline_offline stanza ;;
       Returns (with_pipeline st (Some pipeline)))
      (fun _ =>
         try_except
           (_ <- download stanza ;;
            pipeline <- Pipeline_downloaded stanza ;;
            Returns (with_pipeline st (Some pipeline)))
           (fun _ => Returns (with_pipeline st None))).

(** [mapping.get(stanza_type, stanza_type)] *)
Definition stanza_type_mapping : list (str * str) :=
  [ (lit "PERSON", lit "PERSON"); (lit "PER", lit "PERSON");
    (lit "ORG", lit "ORGANIZATION"); (lit "ORGANIZATION", lit "ORGANIZATION");
    (lit "GPE", lit "LOCATION"); (lit "LOCATION", lit "LOCATION");
    (lit "LOC", lit "LOCATION"); (lit "DATE", lit "DATE");
    (lit "TIME", lit "TIME"); (lit "MONEY", lit "MONEY");
    (lit "PERCENT", lit "PERCENT"); (lit "PHONE", lit "PHONE");
    (lit "EMAIL", lit "EMAIL"); (lit "MISC", lit "MISC") ].

Definition _map_stanza_entity_type (stanza_type : str) : str :=
  match find (fun kv => str_eqb (fst kv) stanza_type) stanza_type_mapping with
  | Some kv => snd kv
  | None => stanza_type
  end.

(** A [re.Match]: the span of the match in the searched string;
    [match.group()] is the searched string sliced at that span. *)
Record Match : Type := mkMatch { m_start : Z; m_end : Z }.

Definition group (searched : str) (m : Match) : str :=
  slice searched (m_start m) (m_end m).

Definition patterns : list (str * str) :=
  [ (lit "PERSON", lit "\b[A-Z][a-z]+(?:\s+[A-Z][a-z]+)*\b");
    (lit "DATE", lit "\b(?:\d{1,2}[/-]\d{1,2}[/-]\d{2,4}|\d{4}[/-]\d{1,2}[/-]\d{1,2}|(?:Jan|Feb|Mar|Apr|May|Jun|Jul|Aug|Sep|Oct|Nov|Dec)[a-z]*\s+\d{1,2},?\s+\d{4})\b");
    (lit "TIME", lit "\b\d{1,2}:\d{2}(?::\d{2})?(?:\s*[AaPp][Mm])?\b");
    (lit "PHONE", lit "\b(?:\+?1[-.\s]?)?\(?[0-9]{3}\)?[-.\s]?[0-9]{3}[-.\s]?[0-9]{4}\b");
    (lit "EMAIL", lit "\b[A-Za-z0-9._%+-]+@[A-Za-z0-9.-]+\.[A-Z|a-z]{2,}\b");
    (lit "MONEY", lit "\$\d+(?:,\d{3})*(?:\.\d{2})?");
    (lit "PERCENT", lit "\d+(?:\.\d+)?%") ].

Definition person_stop_words : list str :=
  map lit ["the"; "and"; "but"; "for"; "with"; "this"; "that"; "they";
           "them"; "their"]%string.

Section Extraction.
(** [re.finditer(pattern, text, re.IGNORECASE)], as the list of matches
    from left to right.  The regex engine is Python's; the extraction is
    stated for any engine. *)
Variable finditer : str -> str -> list Match.

Definition entities_of_match (txt entity_type : str) (m : Match)
  : list Entity.t :=
  if str_eqb entity_type (lit "PERSON")
     && existsb (str_eqb (lower (group txt m))) person_stop_words
  then []
  else [Entity.new (group txt m) entity_type (m_start m) (m_end m)].

Definition _extract_entities_regex (txt : str) : list Entity.t :=
  flat_map (fun kv => flat_map (entities_of_match txt (fst kv))
                               (finditer (snd kv) txt))
           patterns.

(** The entities of a Stanza document, sentence by sentence. *)
Definition entities_of_document (doc : Document) : list Entity.t :=
  flat_map (map (fun entity =>
                   Entity.new (ent_text entity)
                              (_map_stanza_entity_type (ent_type entity))
                              (start_char entity) (end_char entity)))
           doc.

Definition extract_entities (stanza : Stanza) (st : t) (txt : str)
  : outcome (t * list Entity.t) :=
  st <- (if negb (_stanza_initialized st) then _initialize_stanza stanza st
         else Returns st) ;;
  match nlp_pipeline st with
  | Some pipeline =>
      try_except
        (doc <- pipeline txt ;;
         Returns (st, entities_of_document doc))
        (fun _ => Returns (st, _extract_entities_regex txt))
  | None => Returns (st, _extract_entities_regex txt)
  end.
End Extraction.

End NLPService.

(* ================================================================== *)
(** ** ui/components/entities.py: manual insertion and anonymization *)
(* ================================================================== *)

Module EntitiesSection.

(** The state is the application state and the log of the
    [ui.notify(message, type=...)] calls.  Each message constructor stands
    for one f-string of the source and carries the values formatted into
    it.  The calls that only redraw ([_update_entity_table],
    [_update_paragraph_display], [dialog.close]) change nothing of this
    state and are left out. *)
Inductive notify_type : Type := positive | negative | warning | info.

Inductive message : Type :=
| EntityTextEmpty
| EntityAlreadyExists (entity_text_clean : str)
| AddedGeneralEntity (entity_type entity_text_clean : str)
| AddedEntities (entities_created : Z) (entity_type entity_text_clean : str)
| TextNotFoundInParagraph
| EntityExistsInParagraph (actual_text : str) (paragraph_number : Z)
| AddedEntityInParagraph (entity_type actual_text : str) (paragraph_number : Z)
| NoEntitiesDetected
| NoEntitiesMarked
| ApplyingAnonymization (total_entities : Z)
| AnonymizingParagraph (processed_paragraphs : Z)
| AnonymizationComplete (total_entities : Z).

Record t : Type := mk {
  app_state : AppState.t;
  notifications : list (message * notify_type)
}.

Definition notify (ui : t) (m : message) (ty : notify_type) : t :=
  mk (app_state ui) (notifications ui ++ [(m, ty)]).

Definition set_entities (ui : t) (es : list Entity.t) : t :=
  mk (AppState.set_entities (app_state ui) es) (notifications ui).

(** [hasattr(e, 'paragraph_id') and e.paragraph_id == i] *)
Definition in_paragraph (i : Z) (e : Entity.t) : bool :=
  match paragraph_id e with
  | Some j => j =? i
  | None => false
  end.

(** *** _apply_anonymization *)

(** The [for paragraph in self.app_state.paragraphs] loop: the rewritten
    paragraphs and the progress notifications, in order. *)
Fixpoint anonymize_paragraphs (anonymized_entities : list Entity.t)
    (ps : list Paragraph.t) (processed_paragraphs : Z)
  : list Paragraph.t * list (message * notify_type) :=
  match ps with
  | [] => ([], [])
  | paragraph :: rest =>
      let paragraph_entities :=
        filter (in_paragraph (Paragraph.id paragraph)) anonymized_entities in
      match paragraph_entities with
      | [] =>
          let (ps', log) :=
            anonymize_paragraphs anonymized_entities rest processed_paragraphs in
          (paragraph :: ps', log)
      | _ :: _ =>
          let processed_paragraphs := processed_paragraphs + 1 in
          let progress :=
            if processed_paragraphs mod 3 =? 0
            then [(AnonymizingParagraph processed_paragraphs, info)]
            else [] in
          let paragraph' :=
            Paragraph.set_text paragraph
              (NLPService.anonymize_text (Paragraph.text paragraph)
                                         paragraph_entities) in
          let (ps', log) :=
            anonymize_paragraphs anonymized_entities rest processed_paragraphs in
          (paragraph' :: ps', progress ++ log)
      end
  end.

(** The body of the [try] slices and concatenates strings and calls
    [ui.notify]; nothing in it raises, and the [except] branch is left
    out. *)
Definition _apply_anonymization (ui : t) : t :=
  let st := app_state ui in
  match AppState.entities st with
  | [] => notify ui NoEntitiesDetected warning
  | _ :: _ =>
      let anonymized_entities := filter anonymized (AppState.entities st) in
      match anonymized_entities with
      | [] => notify ui NoEntitiesMarked warning
      | _ :: _ =>
          let total_entities := Z.of_nat (length anonymized_entities) in
          let (ps', progress) :=
            anonymize_paragraphs anonymized_entities
                                 (AppState.paragraphs st) 0 in
          let anonymized_paragraphs := map Paragraph.text ps' in
          mk (AppState.mk (AppState.original_transcript st)
                          (str_join [AppState.LF; AppState.LF]
                                    anonymized_paragraphs)
                          ps' [])
             (notifications ui
                ++ [(ApplyingAnonymization total_entities, info)]
                ++ progress
                ++ [(AnonymizationComplete total_entities, positive)])
      end
  end.

(** *** _add_entity_without_search *)

(** [replacement.strip() if replacement else f'[{entity_type}]'] *)
Definition manual_replacement (replacement entity_type : str) : str :=
  if truthy replacement then strip replacement
  else NLPService.placeholder entity_type.

(** The entity built for an occurrence at [pos] in paragraph [i]. *)
Definition occurrence_entity (entity_text_clean entity_type replacement : str)
    (i : Z) (paragraph_text : str) (pos : Z) : Entity.t :=
  let actual_text := slice paragraph_text pos (pos + len entity_text_clean) in
  let end_pos := pos + len actual_text in
  Entity.mk actual_text entity_type pos end_pos false
           (manual_replacement replacement entity_type)
           (Some i) (Some false).

Section BulkInsert.
Variables entity_text_clean entity_type replacement : str.

(** The [while True] loop over one paragraph.  [acc] is
    [(self.app_state.entities, entities_created)].  The loop runs on
    fuel; [None] means the fuel ran out before the loop ended. *)
Fixpoint scan_occurrences (fuel : nat) (i : Z)
    (paragraph_text text_lower search_term_lower : str) (start_pos : Z)
    (acc : list Entity.t * Z) : option (list Entity.t * Z) :=
  match fuel with
  | O => None
  | S fuel' =>
      let pos := str_find text_lower search_term_lower start_pos in
      if pos =? -1 then Some acc
      else
        let existing_occurrence :=
          find (fun e => in_paragraph i e && (Entity.start_pos e =? pos))
               (fst acc) in
        let acc' :=
          match existing_occurrence with
          | Some _ => acc
          | None =>
              (fst acc ++ [occurrence_entity entity_text_clean entity_type
                             replacement i paragraph_text pos],
               snd acc + 1)
          end in
        scan_occurrences fuel' i paragraph_text text_lower
                         search_term_lower (pos + 1) acc'
  end.

(** The body of [for i, paragraph in enumerate(paragraphs)].  Every
    iteration of the inner loop moves [start_pos] forward, so the fuel
    given here is never used up (lemma [scan_occurrences_terminates]). *)
Definition scan_paragraph (acc : list Entity.t * Z) (ip : Z * Paragraph.t)
  : list Entity.t * Z :=
  let (i, paragraph) := ip in
  let text_lower := lower (Paragraph.text paragraph) in
  let search_term_lower := lower entity_text_clean in
  match scan_occurrences (length text_lower + 2) i (Paragraph.text paragraph)
                         text_lower search_term_lower 0 acc with
  | Some acc' => acc'
  | None => acc
  end.
End BulkInsert.

Definition general_entity (entity_text_clean entity_type replacement : str)
  : Entity.t :=
  Entity.mk entity_text_clean entity_type 0 (len entity_text_clean) false
           (manual_replacement replacement entity_type) None (Some false).

Definition _add_entity_without_search (ui : t)
    (entity_text entity_type replacement : str) : t :=
  if negb (truthy entity_text) || negb (truthy (strip entity_text)) then
    notify ui EntityTextEmpty warning
  else
    let entity_text_clean := strip entity_text in
    let existing_entity :=
      find (fun e => str_eqb (lower (text e)) (lower entity_text_clean))
           (AppState.entities (app_state ui)) in
    match existing_entity with
    | Some _ => notify ui (EntityAlreadyExists entity_text_clean) warning
    | None =>
        let (entities, entities_created) :=
          fold_left (scan_paragraph entity_text_clean entity_type replacement)
                    (enumerate (AppState.paragraphs (app_state ui)))
                    (AppState.entities (app_state ui), 0) in
        if entities_created =? 0 then
          notify
            (set_entities ui
               (entities ++ [general_entity entity_text_clean entity_type
                                            replacement]))
            (AddedGeneralEntity entity_type entity_text_clean) info
        else
          notify (set_entities ui entities)
                 (AddedEntities entities_created entity_type entity_text_clean)
                 positive
    end.

(** *** search_text and _create_entity_from_match *)

(** A search result: the dictionary with keys ['paragraph_id'],
    ['context'] and ['start_pos']. *)
Record SearchMatch : Type := mkSearchMatch {
  match_paragraph_id : Z;
  match_context : str;
  match_start_pos : Z
}.

(** The inner function [search_text] of the manual-entity dialog, on the
    value of the search box. *)
Definition search_text (ui : t) (input_value : str) : list SearchMatch :=
  let search_term := strip input_value in
  if negb (truthy search_term) then []
  else
    flat_map
      (fun ip : Z * Paragraph.t =>
         let (i, paragraph) := ip in
         let ptext := Paragraph.text paragraph in
         if contains (lower ptext) (lower search_term) then
           let start_pos := str_find (lower ptext) (lower search_term) 0 in
           let context_start := Z.max 0 (start_pos - 30) in
           let context_end :=
             Z.min (len ptext) (start_pos + len search_term + 30) in
           [mkSearchMatch i (slice ptext context_start context_end) start_pos]
         else [])
      (enumerate (AppState.paragraphs (app_state ui))).

(** [self.app_state.paragraphs[paragraph_id]] raises [IndexError] when the
    index is out of range. *)
Definition _create_entity_from_match (ui : t)
    (entity_text entity_type replacement : str) (m : SearchMatch)
  : outcome t :=
  let paragraph_id := match_paragraph_id m in
  match index (AppState.paragraphs (app_state ui)) paragraph_id with
  | None => Raises (lit "IndexError")
  | Some paragraph =>
      let ptext := Paragraph.text paragraph in
      let start_pos := str_find (lower ptext) (lower entity_text) 0 in
      if start_pos =? -1 then
        Returns (notify ui TextNotFoundInParagraph warning)
      else
        let actual_text := slice ptext start_pos (start_pos + len entity_text) in
        let end_pos := start_pos + len actual_text in
        let existing_entity :=
          find (in_paragraph paragraph_id)
               (AppState.entities (app_state ui)) in
        match existing_entity with
        | Some _ =>
            Returns (notify ui
                       (EntityExistsInParagraph actual_text (paragraph_id + 1))
                       warning)
        | None =>
            let entity :=
              Entity.mk actual_text entity_type start_pos end_pos false
                       (manual_replacement replacement entity_type)
                       (Some paragraph_id) (Some false) in
            Returns
              (notify
                 (set_entities ui
                    (AppState.entities (app_state ui) ++ [entity]))
                 (AddedEntityInParagraph entity_type actual_text
                                         (paragraph_id + 1))
                 positive)
        end
  end.

End EntitiesSection.

(* ================================================================== *)
(** ** Specification of the anonymizer *)
(* ================================================================== *)

Module AnonymizerSpec.
Import NLPService.

(** The offsets of [e] lie in the text [txt]. *)
Definition valid_span (txt : str) (e : Entity.t) : Prop :=
  0 <= start_pos e <= end_pos e /\ end_pos e <= len txt.

(** The offset validity of the data model, for an entity of a paragraph
    with text [txt]: the offsets lie in the text and the stored text is
    the text at those offsets. *)
Definition offset_valid (txt : str) (e : Entity.t) : Prop :=
  0 <= start_pos e <= end_pos e /\ end_pos e <= len txt
  /\ slice txt (start_pos e) (end_pos e) = text e.

(** Two half-open spans that do not overlap. *)
Definition non_overlapping (a b : Entity.t) : Prop :=
  end_pos a <= start_pos b \/ end_pos b <= start_pos a.

(** Non-overlapping spans that share a start only when both are empty. *)
Definition separated (a b : Entity.t) : Prop :=
  non_overlapping a b /\ (start_pos a = start_pos b -> end_pos a = end_pos b).

(** [a] ends at or before the start of [b]. *)
Definition left_to_right (a b : Entity.t) : Prop := end_pos a <= start_pos b.

(** The text rebuilt from the original offsets: reading [txt] from
    [cursor] to [stop], the stretch before each entity of [asc] is kept and
    the span of the entity gives way to its replacement. *)
Fixpoint rebuild_upto (txt : str) (cursor : Z) (asc : list Entity.t)
    (stop : Z) : str :=
  match asc with
  | [] => slice txt cursor stop
  | e :: rest =>
      slice txt cursor (start_pos e) ++ replacement_of e
        ++ rebuild_upto txt (end_pos e) rest stop
  end.

Definition rebuild (txt : str) (asc : list Entity.t) : str :=
  rebuild_upto txt 0 asc (len txt).

(** An entity whose span leaves the text. *)
Definition out_of_bounds (txt : str) (e : Entity.t) : Prop :=
  start_pos e < 0 \/ len txt < end_pos e.

Definition with_span (e : Entity.t) (s' e' : Z) : Entity.t :=
  Entity.mk (text e) (entity_type e) s' e' (anonymized e) (replacement e)
            (paragraph_id e) (auto_detected e).

(** The entity with its offsets adjusted to the working text as slicing
    adjusts them. *)
Definition adjusted (working : str) (e : Entity.t) : Entity.t :=
  with_span e (clip (len working) (start_pos e))
              (clip (len working) (end_pos e)).

(** The texts of the paragraphs, in order. *)
Definition paragraph_texts (ui : EntitiesSection.t) : list str :=
  map Paragraph.text (AppState.paragraphs (EntitiesSection.app_state ui)).
End AnonymizerSpec.

(* ================================================================== *)
(** ** Specification of the recognizer adapter *)
(* ================================================================== *)

Module RecognizerSpec.
Import NLPService.

(** The service after the lazy initialisation at the head of
    [extract_entities]. *)
Definition initialized (stanza : Stanza) (st : NLPService.t) : NLPService.t :=
  if negb (_stanza_initialized st) then
    match _initialize_stanza stanza st with
    | Returns st' => st'
    | Raises _ => st
    end
  else st.

(** The recognizer is unavailable, or raises on this text. *)
Definition recognizer_fails (st : NLPService.t) (txt : str) : Prop :=
  match nlp_pipeline st with
  | None => True
  | Some pipeline => exists exc, pipeline txt = Raises exc
  end.
End RecognizerSpec.

(* ================================================================== *)
(** ** Specification of the manual insertion paths *)
(* ================================================================== *)

Module InsertionSpec.
Import EntitiesSection.

(** [T] occurs at offset [p] of [txt], case-insensitively: the lower-cased
    search text is found at [p] in the lower-cased paragraph text, which is
    where the sources search. *)
Definition occurs_ci (T txt : str) (p : Z) : Prop :=
  0 <= p /\ p + len (lower T) <= len (lower txt)
  /\ slice (lower txt) p (p + len (lower T)) = lower T.

Definition occurs_cib (T txt : str) (p : Z) : bool :=
  startswith (skipn (Z.to_nat p) (lower txt)) (lower T).

(** An entity of [es] already has the pair [(i, p)]. *)
Definition taken (es : list Entity.t) (i p : Z) : Prop :=
  exists e, In e es /\ paragraph_id e = Some i /\ start_pos e = p.

Definition takenb (es : list Entity.t) (i p : Z) : bool :=
  existsb (fun e => in_paragraph i e && (start_pos e =? p)) es.

(** The paragraph [i] owns an entity. *)
Definition has_entity (es : list Entity.t) (i : Z) : Prop :=
  exists e, In e es /\ paragraph_id e = Some i.

(** Every offset of a text, from left to right. *)
Definition offsets (t : str) : list Z := map Z.of_nat (seq 0 (S (length t))).

(** The offsets at which [T] occurs in the text itself, up to letter
    case: the [len T] code points from the offset on have the lower case
    of [T]. *)
Definition occurrences_in_text (T txt : str) : list Z :=
  filter (fun p => (p + len T <=? len txt)
                   && str_eqb (lower (slice txt p (p + len T))) (lower T))
         (offsets txt).

(** The targets of a bulk insert of [T] in paragraph [i]: the offsets at
    which [T] occurs and which no entity of [es] has, with the paragraph. *)
Definition paragraph_targets (es : list Entity.t) (T : str)
    (ip : Z * Paragraph.t) : list (Z * Paragraph.t * Z) :=
  map (fun p => (fst ip, snd ip, p))
      (filter (fun p => occurs_cib T (Paragraph.text (snd ip)) p
                        && negb (takenb es (fst ip) p))
              (offsets (lower (Paragraph.text (snd ip))))).

Definition bulk_targets (es : list Entity.t) (T : str)
    (paragraphs : list Paragraph.t) : list (Z * Paragraph.t * Z) :=
  flat_map (paragraph_targets es T) (enumerate paragraphs).

(** Targets are met paragraph by paragraph and, within a paragraph, from
    left to right. *)
Definition target_before (a b : Z * Paragraph.t * Z) : Prop :=
  fst (fst a) < fst (fst b) \/ (fst (fst a) = fst (fst b) /\ snd a < snd b).

(** The entity a bulk insert creates for a target. *)
Definition target_entity (T K R : str) (tg : Z * Paragraph.t * Z) : Entity.t :=
  occurrence_entity T K R (fst (fst tg)) (Paragraph.text (snd (fst tg)))
                    (snd tg).

(** The entity a single manual insert creates at offset [p] of the
    paragraph [paragraph_id] with text [ptext]. *)
Definition match_entity (T K R : str) (paragraph_id : Z) (ptext : str) (p : Z)
  : Entity.t :=
  Entity.mk (slice ptext p (p + len T)) K p
            (p + len (slice ptext p (p + len T))) false
            (manual_replacement R K) (Some paragraph_id) (Some false).

(** The offsets from [start] on at which [sub] starts in [t], ascending:
    what is left for the loop to find once it has reached [start]. *)
Definition occurrences_from (sub t : str) (start : nat) : list Z :=
  filter (fun p => startswith (skipn (Z.to_nat p) t) sub)
         (map Z.of_nat (seq start (S (length t) - start))).

(** One pass of the loop body for a found offset. *)
Definition add_occurrence (T K R : str) (i : Z) (ptext : str)
    (acc : list Entity.t * Z) (pos : Z) : list Entity.t * Z :=
  match find (fun e => in_paragraph i e && (start_pos e =? pos)) (fst acc) with
  | Some _ => acc
  | None => (fst acc ++ [occurrence_entity T K R i ptext pos], snd acc + 1)
  end.
End InsertionSpec.

(* ================================================================== *)
(** ** Specification of the segmenter *)
(* ================================================================== *)

Module SegmenterSpec.





(** A text of white space only. *)
Definition blank (t : str) : Prop := Forall (fun c => isspace c = true) t.
End SegmenterSpec.

(* ================================================================== *)
(** ** Concrete inputs *)
(* ================================================================== *)

Module Examples.
Import NLPService EntitiesSection.

(** A marked PERSON entity of no paragraph. *)
Definition person (txt : str) (s e : Z) (repl : str) : Entity.t :=
  Entity.mk txt (lit "PERSON") s e true repl None None.

Definition alice_met_bob : str := lit "Alice met Bob".
Definition alice := person (lit "Alice") 0 5 [].
Definition bob := person (lit "Bob") 10 13 [].
Definition alice_x := person (lit "Alice") 0 5 (lit "X").
Definition bob_z := person (lit "Bob") 10 13 (lit "ZZZZZZZZ").
Definition alice_unmarked : Entity.t :=
  Entity.mk (lit "Alice") (lit "PERSON") 0 5 false (lit "X") None None.

Definition digits : str := lit "0123456".
Definition empty_at_3 := person [] 3 3 (lit "AB").
Definition span_3_5 := person (lit "34") 3 5 (lit "X").

Definition abc : str := lit "abc".
Definition beyond_end := person (lit "bc") 1 10 (lit "X").
Definition before_start := person (lit "c") (-1) 3 (lit "X").

(** A state of the entities section with the given paragraph texts and
    entity collection, and nothing notified yet. *)
Definition ui_of (texts : list str) (es : list Entity.t) : EntitiesSection.t :=
  EntitiesSection.mk
    (AppState.mk [] [] (map (fun it => Paragraph.new (fst it) (snd it))
                            (enumerate texts)) es)
    [].

(** Paragraph, start and end of the entities, in the order of the
    collection. *)
Definition spans (ui : EntitiesSection.t) : list (option Z * Z * Z) :=
  map (fun e => (paragraph_id e, start_pos e, end_pos e))
      (AppState.entities (app_state ui)).

(** The three-letter paragraph with a marked entity that ends beyond it. *)
Definition ui_abc : EntitiesSection.t :=
  ui_of [abc]
        [Entity.mk (lit "bc") (lit "PERSON") 1 10 true (lit "X") (Some 0) None].

Definition ui_the : EntitiesSection.t :=
  ui_of [lit "The cat and the the dog"] [].

(** The result of searching [the] in [ui_the]. *)
Definition the_match : SearchMatch :=
  mkSearchMatch 0 (lit "The cat and the the dog") 0.

Definition ui_aaa : EntitiesSection.t := ui_of [lit "aaa"] [].

Definition bob0 : Entity.t :=
  Entity.mk (lit "Bob") (lit "PERSON") 0 3 false (lit "[PERSON]")
            (Some 0) (Some false).

Definition ui_bob : EntitiesSection.t :=
  ui_of [lit "Bob is here"; lit "I saw bob"] [bob0].


(** A paragraph that begins with two capital I with dot above (U+0130),
    and the entity the bulk insert of the letter a creates in it. *)
Definition dotted_text : str := [304; 304; 97]%N.
Definition ui_dotted : EntitiesSection.t := ui_of [dotted_text] [].
Definition dotted_entity : Entity.t :=
  Entity.mk [] (lit "PERSON") 4 4 false (lit "[PERSON]") (Some 0) (Some false).

(** A paragraph that begins with a capital I with dot above and has the
    name Ali at offset 12, and the result of searching [ali] in it. *)
Definition istanbul : str := [304%N] ++ lit "stanbul'da Ali".
Definition ui_istanbul : EntitiesSection.t := ui_of [istanbul] [].
Definition ali_match : SearchMatch := mkSearchMatch 0 istanbul 13.

(** A marked entity of paragraph 0 and a marked entity of no paragraph,
    as [_add_entity_without_search] creates it for a text found nowhere. *)
Definition alice0 : Entity.t :=
  Entity.mk (lit "Alice") (lit "PERSON") 0 5 true (lit "[PERSON]")
            (Some 0) (Some false).

Definition zed_general : Entity.t :=
  Entity.mk (lit "Zed") (lit "PERSON") 0 3 true (lit "[PERSON]")
            None (Some false).

Definition ui_alice : EntitiesSection.t := ui_of [alice_met_bob] [].

Definition two_sentences : str := lit "Hi there. Bye".

Definition bob_paid : str := lit "Bob paid $5".

(** The matches Python's [re.finditer] returns on [bob_paid] for the seven
    patterns, recorded by hand; an engine that answers on this one text. *)
Definition recorded_finditer (pattern txt : str) : list Match :=
  if str_eqb txt bob_paid then
    if str_eqb pattern (lit "\b[A-Z][a-z]+(?:\s+[A-Z][a-z]+)*\b")
    then [mkMatch 0 8]
    else if str_eqb pattern (lit "\$\d+(?:,\d{3})*(?:\.\d{2})?")
    then [mkMatch 9 11]
    else []
  else [].

(** No model can be loaded and none can be downloaded. *)
Definition stanza_missing : Stanza :=
  mkStanza (Raises (lit "FileNotFoundError")) (Raises (lit "ConnectionError"))
           (Raises (lit "FileNotFoundError")).

(** A loaded pipeline that raises on every text. *)
Definition broken_pipeline : Pipeline := fun _ => Raises (lit "RuntimeError").

Definition stanza_broken : Stanza :=
  mkStanza (Returns broken_pipeline) (Returns tt) (Returns broken_pipeline).
End Examples.


(* ================================================================== *)
(** ** Python lists of strings and dictionaries *)
(* ================================================================== *)

Module PyList.

(** [x in l] *)
Definition str_in (x : str) (l : list str) : bool := existsb (str_eqb x) l.

(** [l.index(x)]: the position of the first element equal to [x];
    [ValueError] when there is none. *)
Fixpoint index_from (x : str) (l : list str) (i : Z) : outcome Z :=
  match l with
  | [] => Raises (lit "ValueError")
  | y :: l' => if str_eqb y x then Returns i else index_from x l' (i + 1)
  end.

Definition list_index (l : list str) (x : str) : outcome Z := index_from x l 0.

(** [l.remove(x)]: the first element equal to [x] is taken out;
    [ValueError] when there is none. *)
Fixpoint remove (x : str) (l : list str) : outcome (list str) :=
  match l with
  | [] => Raises (lit "ValueError")
  | y :: l' => if str_eqb y x then Returns l'
               else r <- remove x l' ;; Returns (y :: r)
  end.

(** The position a list index [i] stands for: a negative index counts
    from the end.  [None] when it is out of range. *)
Definition position {A : Type} (l : list A) (i : Z) : option nat :=
  let n := Z.of_nat (length l) in
  if (0 <=? i) && (i <? n) then Some (Z.to_nat i)
  else if (- n <=? i) && (i <? 0) then Some (Z.to_nat (i + n))
  else None.

(** The list with the element at position [k] changed by [f]: the effect
    of mutating the object [l[k]] in place. *)
Fixpoint update_nth {A : Type} (f : A -> A) (l : list A) (k : nat) : list A :=
  match l, k with
  | [], _ => []
  | x :: l', O => f x :: l'
  | x :: l', S k' => x :: update_nth f l' k'
  end.

End PyList.

(** A [dict] with string keys: the items in insertion order. *)
Module PyDict.
Section Dict.
Context {V : Type}.

Definition t : Type := list (str * V).

(** [d.get(k)] *)
Fixpoint get (d : t) (k : str) : option V :=
  match d with
  | [] => None
  | (k', v) :: d' => if str_eqb k' k then Some v else get d' k
  end.

(** [d.get(k, default)] *)
Definition get_default (d : t) (k : str) (default : V) : V :=
  match get d k with
  | Some v => v
  | None => default
  end.

(** [k in d] *)
Definition mem (d : t) (k : str) : bool :=
  match get d k with
  | Some _ => true
  | None => false
  end.

(** [d[k] = v]: the value of an existing key is replaced where the key
    stands, a new key goes to the end. *)
Fixpoint set (d : t) (k : str) (v : V) : t :=
  match d with
  | [] => [(k, v)]
  | (k', v') :: d' => if str_eqb k' k then (k', v) :: d'
                      else (k', v') :: set d' k v
  end.

Definition keys (d : t) : list str := map fst d.
Definition values (d : t) : list V := map snd d.
End Dict.
End PyDict.

(* ================================================================== *)
(** ** services/nlp_service.py: the keyword classifiers *)
(* ================================================================== *)

Module NLPHeuristics.

Definition positive_words : list str :=
  map lit ["happy"; "joy"; "good"; "great"; "wonderful"; "amazing"; "love";
           "excellent"]%string.

Definition negative_words : list str :=
  map lit ["sad"; "angry"; "bad"; "terrible"; "awful"; "hate"; "horrible";
           "worst"]%string.

(** [sum(1 for word in words if word in text_lower)] *)
Definition count_in (words : list str) (text_lower : str) : Z :=
  Z.of_nat (length (filter (fun word => contains text_lower word) words)).

Definition analyze_sentiment (txt : str) : str :=
  let text_lower := lower txt in
  let positive_count := count_in positive_words text_lower in
  let negative_count := count_in negative_words text_lower in
  if negative_count <? positive_count then lit "positive"
  else if positive_count <? negative_count then lit "negative"
  else if (0 <? positive_count) && (0 <? negative_count) then lit "mixed"
  else lit "neutral".

Definition therapist_indicators : list str :=
  map lit ["how does that make you feel"; "tell me more about";
           "what do you think"; "can you describe"; "i understand";
           "that sounds"; "from my perspective"]%string.

Definition client_indicators : list str :=
  map lit ["i feel"; "i think"; "i believe"; "my problem"; "i'm struggling";
           "i don't know"; "it's hard"]%string.

Definition identify_speaker (txt : str) : str :=
  let text_lower := lower txt in
  let therapist_score := count_in therapist_indicators text_lower in
  let client_score := count_in client_indicators text_lower in
  if client_score <? therapist_score then lit "therapist"
  else if therapist_score <? client_score then lit "client"
  else lit "unknown".
End NLPHeuristics.

(* ================================================================== *)
(** ** app_state.py: annotations of the paragraphs *)
(* ================================================================== *)

Module AppStateOps.
Import PyList.

Definition set_speaker (p : Paragraph.t) (speaker : str) : Paragraph.t :=
  Paragraph.mk (Paragraph.id p) (Paragraph.text p) speaker
               (Paragraph.sentiment p) (Paragraph.entities p)
               (Paragraph.codes p).

Definition set_sentiment (p : Paragraph.t) (sentiment : str) : Paragraph.t :=
  Paragraph.mk (Paragraph.id p) (Paragraph.text p) (Paragraph.speaker p)
               sentiment (Paragraph.entities p) (Paragraph.codes p).

Definition set_codes (p : Paragraph.t) (codes : list str) : Paragraph.t :=
  Paragraph.mk (Paragraph.id p) (Paragraph.text p) (Paragraph.speaker p)
               (Paragraph.sentiment p) (Paragraph.entities p) codes.

Definition set_id (p : Paragraph.t) (i : Z) : Paragraph.t :=
  Paragraph.mk i (Paragraph.text p) (Paragraph.speaker p)
               (Paragraph.sentiment p) (Paragraph.entities p)
               (Paragraph.codes p).

(** [0 <= paragraph_id < len(self.paragraphs)] *)
Definition in_range (st : AppState.t) (paragraph_id : Z) : bool :=
  (0 <=? paragraph_id)
  && (paragraph_id <? Z.of_nat (length (AppState.paragraphs st))).

(** The state after the paragraph object at [paragraph_id] is mutated by
    [f]. *)
Definition update_paragraph (st : AppState.t) (paragraph_id : Z)
    (f : Paragraph.t -> Paragraph.t) : AppState.t :=
  AppState.set_paragraphs st
    (update_nth f (AppState.paragraphs st) (Z.to_nat paragraph_id)).

Definition update_paragraph_speaker (st : AppState.t) (paragraph_id : Z)
    (speaker : str) : AppState.t :=
  if in_range st paragraph_id
  then update_paragraph st paragraph_id (fun p => set_speaker p speaker)
  else st.

Definition update_paragraph_sentiment (st : AppState.t) (paragraph_id : Z)
    (sentiment : str) : AppState.t :=
  if in_range st paragraph_id
  then update_paragraph st paragraph_id (fun p => set_sentiment p sentiment)
  else st.

(** [if code not in codes: codes.append(code)] *)
Definition append_code (code : str) (p : Paragraph.t) : Paragraph.t :=
  if negb (str_in code (Paragraph.codes p))
  then set_codes p (Paragraph.codes p ++ [code])
  else p.

Definition add_paragraph_code (st : AppState.t) (paragraph_id : Z)
    (code : str) : AppState.t :=
  if in_range st paragraph_id
  then update_paragraph st paragraph_id (append_code code)
  else st.

(** [if code in codes: codes.remove(code)]; under the guard, [remove]
    does not raise. *)
Definition remove_code (code : str) (p : Paragraph.t) : Paragraph.t :=
  if str_in code (Paragraph.codes p)
  then match remove code (Paragraph.codes p) with
       | Returns codes => set_codes p codes
       | Raises _ => p
       end
  else p.

Definition remove_paragraph_code (st : AppState.t) (paragraph_id : Z)
    (code : str) : AppState.t :=
  if in_range st paragraph_id
  then update_paragraph st paragraph_id (remove_code code)
  else st.

(** [if paragraph.sentiment in distribution:
       distribution[paragraph.sentiment] += 1] *)
Definition count_sentiment (distribution : @PyDict.t Z) (paragraph : Paragraph.t)
  : @PyDict.t Z :=
  match PyDict.get distribution (Paragraph.sentiment paragraph) with
  | Some n => PyDict.set distribution (Paragraph.sentiment paragraph) (n + 1)
  | None => distribution
  end.

Definition get_sentiment_distribution (st : AppState.t) : @PyDict.t Z :=
  fold_left count_sentiment (AppState.paragraphs st)
            [ (lit "positive", 0); (lit "negative", 0); (lit "neutral", 0);
              (lit "mixed", 0) ].

(** [distribution[code] = distribution.get(code, 0) + 1] *)
Definition count_code (distribution : @PyDict.t Z) (code : str)
  : @PyDict.t Z :=
  PyDict.set distribution code (PyDict.get_default distribution code 0 + 1).

Definition get_coding_distribution (st : AppState.t) : @PyDict.t Z :=
  fold_left (fun distribution paragraph =>
               fold_left count_code (Paragraph.codes paragraph) distribution)
            (AppState.paragraphs st) [].
End AppStateOps.

(* ================================================================== *)
(** ** app_state.py: the whole state, transcripts and coding schemes *)
(* ================================================================== *)

Module CodingScheme.
Record t : Type := mk {
  id : str;
  title : str;
  keywords : list str
}.
End CodingScheme.

(** Python values as [json] reads and writes them. *)
Module PyValue.
#[warnings="-register-all"] Inductive value : Type :=
| Null
| Bool (b : bool)
| Int (z : Z)
| Float (mantissa exponent : Z)
| Str (s : str)
| List (l : list value)
| Dict (d : list (str * value)).
End PyValue.

(** The whole [AppState] object: the attributes of [AppState.t], in
    [base], and the four attributes it leaves out. *)
Module FullState.
Record t : Type := mk {
  current_step : Z;
  transcript_file_path : option str;
  base : AppState.t;
  coding_schemes : list CodingScheme.t;
  analysis_results : PyValue.value
}.

Definition set_base (st : t) (b : AppState.t) : t :=
  mk (current_step st) (transcript_file_path st) b (coding_schemes st)
     (analysis_results st).

Definition set_coding_schemes (st : t) (schemes : list CodingScheme.t) : t :=
  mk (current_step st) (transcript_file_path st) (base st) schemes
     (analysis_results st).

Definition reset : t :=
  mk 0 None (AppState.mk [] [] [] []) [] (PyValue.Dict []).

Definition load_transcript (st : t) (content : str) (file_path : option str)
  : t :=
  let b := base st in
  mk (current_step st) file_path
     (AppState._split_into_paragraphs
        (AppState.mk content content (AppState.paragraphs b)
                     (AppState.entities b))
        content)
     (coding_schemes st) (analysis_results st).

Definition save_transcript_changes (st : t) (new_content : str) : t :=
  let b := base st in
  set_base st
    (AppState._split_into_paragraphs
       (AppState.mk (AppState.original_transcript b) new_content
                    (AppState.paragraphs b) (AppState.entities b))
       new_content).

Definition reload_transcript (st : t) : t :=
  let b := base st in
  set_base st
    (AppState._split_into_paragraphs
       (AppState.mk (AppState.original_transcript b)
                    (AppState.original_transcript b)
                    (AppState.paragraphs b) (AppState.entities b))
       (AppState.original_transcript b)).

Definition add_coding_scheme (st : t) (scheme : CodingScheme.t) : t :=
  set_coding_schemes st (coding_schemes st ++ [scheme]).

Definition remove_coding_scheme (st : t) (scheme_id : str) : t :=
  set_coding_schemes st
    (filter (fun s => negb (str_eqb (CodingScheme.id s) scheme_id))
            (coding_schemes st)).
End FullState.

(* ================================================================== *)
(** ** ui/components/entities.py: the entity table and the detection *)
(* ================================================================== *)

Module EntityTable.
Import PyList.
Import EntitiesSection.

(** The notifications of these handlers; each constructor stands for one
    message of the source and carries the values formatted into it. *)
Inductive notice : Type :=
| AnonymizationToggled (enabled : bool) (entity_text : str)
| MarkedEntities (count : Z)
| ClearedAllAnonymization
| NoTranscriptForAnalysis
| DetectionComplete (entity_count : Z)
| DetectionError (exc : str).

Definition set_anonymized (e : Entity.t) (b : bool) : Entity.t :=
  Entity.mk (text e) (entity_type e) (start_pos e) (end_pos e) b
            (replacement e) (paragraph_id e) (auto_detected e).

Definition set_replacement (e : Entity.t) (r : str) : Entity.t :=
  Entity.mk (text e) (entity_type e) (start_pos e) (end_pos e) (anonymized e)
            r (paragraph_id e) (auto_detected e).

Definition set_paragraph_id (e : Entity.t) (i : Z) : Entity.t :=
  Entity.mk (text e) (entity_type e) (start_pos e) (end_pos e) (anonymized e)
            (replacement e) (Some i) (auto_detected e).

(** [entity = self.app_state.entities[entity_index]] raises [IndexError]
    when the index is out of range; then
    [entity.anonymized = not entity.anonymized]. *)
Definition _toggle_entity_anonymization (st : AppState.t) (entity_index : Z)
  : outcome (AppState.t * (notice * notify_type)) :=
  match position (AppState.entities st) entity_index,
        index (AppState.entities st) entity_index with
  | Some k, Some entity =>
      let enabled := negb (anonymized entity) in
      Returns
        (AppState.set_entities st
           (update_nth (fun e => set_anonymized e (negb (anonymized e)))
                       (AppState.entities st) k),
         (AnonymizationToggled enabled (text entity), info))
  | _, _ => Raises (lit "IndexError")
  end.

(** The body of the loop of [_anonymize_all_entities]. *)
Definition mark (e : Entity.t) : Entity.t :=
  let e := set_anonymized e true in
  if negb (truthy (replacement e))
  then set_replacement e (NLPService.placeholder (entity_type e))
  else e.

Definition _anonymize_all_entities (st : AppState.t)
  : AppState.t * (notice * notify_type) :=
  let entities := map mark (AppState.entities st) in
  (AppState.set_entities st entities,
   (MarkedEntities (Z.of_nat (length entities)), positive)).

Definition _clear_all_entities (st : AppState.t)
  : AppState.t * (notice * notify_type) :=
  (AppState.set_entities st
     (map (fun e => set_anonymized e false) (AppState.entities st)),
   (ClearedAllAnonymization, info)).

Section Detection.
Variable finditer : str -> str -> list NLPService.Match.
Variable stanza : NLPService.Stanza.

(** The [for i, paragraph in enumerate(self.app_state.paragraphs)] loop
    of [_detect_entities]: the service, the collection so far, and the
    exception that ended the loop, if any. *)
Fixpoint detect_loop (nlp : NLPService.t) (collected : list Entity.t)
    (ps : list Paragraph.t)
  : NLPService.t * list Entity.t * option str :=
  match ps with
  | [] => (nlp, collected, None)
  | paragraph :: rest =>
      match NLPService.extract_entities finditer stanza nlp
                                        (Paragraph.text paragraph) with
      | Raises exc => (nlp, collected, Some exc)
      | Returns (nlp', entities) =>
          detect_loop nlp'
            (collected
               ++ map (fun entity =>
                         set_paragraph_id entity (Paragraph.id paragraph))
                      entities)
            rest
      end
  end.

(** One run of the coroutine [_detect_entities], with no other handler
    run while it is suspended.  The progress dialog and the redraws
    change nothing of this state. *)
Definition _detect_entities (nlp : NLPService.t) (st : AppState.t)
  : NLPService.t * AppState.t * (notice * notify_type) :=
  match AppState.paragraphs st with
  | [] => (nlp, st, (NoTranscriptForAnalysis, warning))
  | _ :: _ =>
      match detect_loop nlp [] (AppState.paragraphs st) with
      | (nlp', entities, None) =>
          (nlp', AppState.set_entities st entities,
           (DetectionComplete (Z.of_nat (length entities)), positive))
      | (nlp', entities, Some exc) =>
          (nlp', AppState.set_entities st entities,
           (DetectionError exc, negative))
      end
  end.
End Detection.
End EntityTable.

(* ================================================================== *)
(** ** ui/components/speakers.py and sentiment.py: the label handlers *)
(* ================================================================== *)

Module SpeakersSection.
Import PyList.
Import EntitiesSection.

Inductive notice : Type :=
| NoTranscriptAvailable
| NoTherapistParagraphs
| RemovedTherapistParagraphs (therapist_count remaining_count : Z).

Definition is_therapist (p : Paragraph.t) : bool :=
  str_eqb (Paragraph.speaker p) (lit "therapist").

Definition _drop_therapist_paragraphs (st : AppState.t)
  : AppState.t * (notice * notify_type) :=
  match AppState.paragraphs st with
  | [] => (st, (NoTranscriptAvailable, warning))
  | _ :: _ =>
      let therapist_count :=
        Z.of_nat (length (filter is_therapist (AppState.paragraphs st))) in
      if therapist_count =? 0 then (st, (NoTherapistParagraphs, info))
      else
        let kept :=
          filter (fun p => negb (is_therapist p)) (AppState.paragraphs st) in
        let paragraphs :=
          map (fun ip => AppStateOps.set_id (snd ip) (fst ip))
              (enumerate kept) in
        let remaining_texts := map Paragraph.text paragraphs in
        (AppState.mk (AppState.original_transcript st)
                     (str_join [AppState.LF; AppState.LF] remaining_texts)
                     paragraphs (AppState.entities st),
         (RemovedTherapistParagraphs therapist_count
                                     (Z.of_nat (length paragraphs)),
          positive))
  end.

(** [labels.index(x) if x in labels else 2], then the next label
    cyclically. *)
Definition next_label (labels : list str) (current : str) : outcome str :=
  current_index <- (if str_in current labels then list_index labels current
                    else Returns 2) ;;
  let next_index := (current_index + 1) mod Z.of_nat (length labels) in
  match index labels next_index with
  | Some label => Returns label
  | None => Raises (lit "IndexError")
  end.

(** An exception as an [except RuntimeError as e] clause sees it: whether
    it is an instance of [RuntimeError], and [str(e)]. *)
Record error : Type := { runtime_error : bool; error_text : str }.

(** How a call made for its effect ends. *)
Inductive completion : Type :=
| Done
| Raised (e : error).

(** [first; second] *)
Definition and_then (first second : completion) : completion :=
  match first with
  | Done => second
  | Raised e => Raised e
  end.

(** The exceptions of the list operations are no [RuntimeError]s. *)
Definition lookup_error (exc : str) : error :=
  {| runtime_error := false; error_text := exc |}.

(** [[
     try:
         ui.notify(...)
     except RuntimeError as e:
         if "parent element" in str(e) and "deleted" in str(e):
             pass
         else:
             raise e
    ]] *)
Definition safe_notification (notification : completion) : completion :=
  match notification with
  | Done => Done
  | Raised e =>
      if runtime_error e
      then if contains (error_text e) (lit "parent element")
              && contains (error_text e) (lit "deleted")
           then Done
           else Raised e
      else Raised e
  end.

(** The two values formatted into the text of the notification: the
    paragraph number and the new label (shown in title case). *)
Inductive change : Type :=
| Changed (number : Z) (label : str).

Definition speakers : list str :=
  map lit ["client"; "therapist"; "unknown"]%string.

Section Handler.

(** The user interface the handler calls: redrawing the list of paragraphs
    and showing a notification; either call can raise. *)
Variable _update_paragraph_display : Paragraph.t -> completion.
Variable ui_notify : change -> notify_type -> completion.

(** [_toggle_speaker] assigns to the paragraph in place, so the paragraph
    keeps its new speaker however the call ends: the result is the
    paragraph after the call and the way the call ended. *)
Definition _toggle_speaker (paragraph : Paragraph.t)
  : Paragraph.t * completion :=
  match next_label speakers (Paragraph.speaker paragraph) with
  | Raises exc => (paragraph, Raised (lookup_error exc))
  | Returns label =>
      let paragraph := AppStateOps.set_speaker paragraph label in
      (paragraph,
       and_then (_update_paragraph_display paragraph)
                (safe_notification
                   (ui_notify (Changed (Paragraph.id paragraph + 1)
                                       (Paragraph.speaker paragraph))
                              info)))
  end.

End Handler.
End SpeakersSection.

Module SentimentSection.
Import EntitiesSection.
Import SpeakersSection.

Definition sentiments : list str :=
  map lit ["positive"; "negative"; "neutral"; "mixed"]%string.

Section Handler.

Variable _update_paragraph_display : Paragraph.t -> completion.
Variable _update_sentiment_summary : Paragraph.t -> completion.
Variable ui_notify : change -> notify_type -> completion.

(** [_toggle_sentiment]: as [_toggle_speaker], with two redraws. *)
Definition _toggle_sentiment (paragraph : Paragraph.t)
  : Paragraph.t * completion :=
  match next_label sentiments (Paragraph.sentiment paragraph) with
  | Raises exc => (paragraph, Raised (lookup_error exc))
  | Returns label =>
      let paragraph := AppStateOps.set_sentiment paragraph label in
      (paragraph,
       and_then (_update_paragraph_display paragraph)
         (and_then (_update_sentiment_summary paragraph)
            (safe_notification
               (ui_notify (Changed (Paragraph.id paragraph + 1)
                                   (Paragraph.sentiment paragraph))
                          info))))
  end.

End Handler.
End SentimentSection.

(* ================================================================== *)
(** ** ui/components/encoding.py: adding a coding scheme *)
(* ================================================================== *)

Module EncodingSection.
Import EntitiesSection.

Inductive notice : Type :=
| CodeIdAndTitleRequired
| CodeIdExists
| AddedCodingScheme (title : str).

(** The separator of [keywords_text.split('\\n')]: the source escapes the
    backslash, so the separator is the two code points backslash and n. *)
Definition keyword_separator : str := [92; 110]%N.

(** [[k.strip() for k in keywords_text.split('\\n') if k.strip()]
    if keywords_text else []] *)
Definition parse_keywords (keywords_text : str) : list str :=
  if truthy keywords_text
  then AppState.stripped_units (str_split keywords_text keyword_separator)
  else [].

Definition _add_coding_scheme (st : FullState.t)
    (code_id title keywords_text : str)
  : FullState.t * (notice * notify_type) :=
  if negb (truthy code_id) || negb (truthy title) then
    (st, (CodeIdAndTitleRequired, warning))
  else if existsb (fun scheme => str_eqb (CodingScheme.id scheme) code_id)
                  (FullState.coding_schemes st) then
    (st, (CodeIdExists, warning))
  else
    let keywords := parse_keywords keywords_text in
    let scheme := CodingScheme.mk code_id title keywords in
    (FullState.add_coding_scheme st scheme, (AddedCodingScheme title, positive)).

Definition _toggle_paragraph_code (st : AppState.t) (paragraph : Paragraph.t)
    (code_id : str) (is_checked : bool) : AppState.t :=
  if is_checked
  then AppStateOps.add_paragraph_code st (Paragraph.id paragraph) code_id
  else AppStateOps.remove_paragraph_code st (Paragraph.id paragraph) code_id.
End EncodingSection.

(* ================================================================== *)
(** ** Further specification: sizes, positions, identifiers *)
(* ================================================================== *)

Module SizeSpec.
Import NLPService.

(** Strictly descending keys. *)
Definition strictly_desc {A : Type} (key : A -> Z) (a b : A) : Prop :=
  key b < key a.

Definition sum_Z (l : list Z) : Z := fold_right Z.add 0 l.

(** By how much the splice of [e] lengthens a text that holds its span. *)
Definition growth (e : Entity.t) : Z :=
  len (replacement_of e) - (end_pos e - start_pos e).
End SizeSpec.

Module RecognizerSpec2.
Import NLPService.

(** The entity types of the application that the mapping produces. *)
Definition standard_types : list str :=
  map lit ["PERSON"; "ORGANIZATION"; "LOCATION"; "DATE"; "TIME"; "MONEY";
           "PERCENT"; "PHONE"; "EMAIL"; "MISC"]%string.

(** An entity as the recognizers return it: not marked, without a
    replacement, with no dynamic attribute set. *)
Definition fresh (e : Entity.t) : Prop :=
  anonymized e = false /\ replacement e = [] /\ paragraph_id e = None
  /\ auto_detected e = None.

(** The engine returns spans that lie in the searched text. *)
Definition spans_inside (finditer : str -> str -> list Match) (txt : str)
  : Prop :=
  forall pattern m, In m (finditer pattern txt) ->
                    0 <= m_start m <= m_end m /\ m_end m <= len txt.
End RecognizerSpec2.

Module AnnotationSpec.

(** No paragraph carries a code twice. *)
Definition codes_distinct (st : AppState.t) : Prop :=
  Forall (fun p => NoDup (Paragraph.codes p)) (AppState.paragraphs st).

(** The number of paragraphs with the sentiment [label]. *)
Definition paragraphs_with_sentiment (st : AppState.t) (label : str) : Z :=
  Z.of_nat (length (filter (fun p => str_eqb (Paragraph.sentiment p) label)
                           (AppState.paragraphs st))).

(** How many times [code] is assigned, over all paragraphs. *)
Definition assignments (code : str) (ps : list Paragraph.t) : Z :=
  SizeSpec.sum_Z
    (map (fun p => Z.of_nat (length (filter (fun c => str_eqb c code)
                                            (Paragraph.codes p))))
         ps).

(** The identifiers of the paragraphs are their positions in the list. *)
Definition ids_are_positions (ps : list Paragraph.t) : Prop :=
  map Paragraph.id ps = map Z.of_nat (seq 0 (length ps)).
End AnnotationSpec.

Module MoreExamples.
Import Examples EntitiesSection.

(** Two paragraphs, both carrying the code A1. *)
Definition coded : AppState.t :=
  AppStateOps.add_paragraph_code
    (AppStateOps.add_paragraph_code (app_state ui_bob) 0 (lit "A1"))
    1 (lit "A1").
End MoreExamples.

Module SegmenterSpec2.

(** A text that is not empty and has no white space at either end. *)
Definition trimmed (t : str) : Prop := t <> [] /\ strip t = t.

(** The default annotations of a new paragraph. *)
Definition unannotated (p : Paragraph.t) : Prop :=
  Paragraph.speaker p = lit "unknown" /\ Paragraph.sentiment p = lit "neutral"
  /\ Paragraph.entities p = [] /\ Paragraph.codes p = [].

(** White space or one of the sentence ends [.], [!], [?]. *)
Definition space_or_sentence_end (c : char) : Prop :=
  isspace c = true \/ is_sentence_end c = true.
End SegmenterSpec2.

Module DetectionSpec.
Import NLPService EntityTable.

(** The entities [extract_entities] returns for a text. *)
Definition recognized (finditer : str -> str -> list Match) (stanza : Stanza)
    (nlp : NLPService.t) (txt : str) : list Entity.t :=
  match extract_entities finditer stanza nlp txt with
  | Returns (_, entities) => entities
  | Raises _ => []
  end.

(** The entities of a detection run: those recognized in each paragraph,
    with the identifier of the paragraph attached. *)
Definition detected (finditer : str -> str -> list Match) (stanza : Stanza)
    (nlp : NLPService.t) (ps : list Paragraph.t) : list Entity.t :=
  flat_map (fun p => map (fun e => set_paragraph_id e (Paragraph.id p))
                         (recognized finditer stanza nlp (Paragraph.text p)))
           ps.

(** An unmarked entity of one of the paragraphs [ps]. *)
Definition unmarked_of (ps : list Paragraph.t) (e : Entity.t) : Prop :=
  anonymized e = false /\ replacement e = []
  /\ exists p, In p ps /\ paragraph_id e = Some (Paragraph.id p).

(** An entity of one of the paragraphs [ps] whose offsets are valid in
    the text of that paragraph. *)
Definition valid_in (ps : list Paragraph.t) (e : Entity.t) : Prop :=
  exists p, In p ps /\ paragraph_id e = Some (Paragraph.id p)
            /\ AnonymizerSpec.offset_valid (Paragraph.text p) e.
End DetectionSpec.

Module InsertionSpec2.
Import EntitiesSection.

(** An entity as the manual insertion paths create it, for the type [K]
    and the replacement field [R]. *)
Definition manually_added (K R : str) (e : Entity.t) : Prop :=
  anonymized e = false /\ entity_type e = K
  /\ replacement e = manual_replacement R K
  /\ auto_detected e = Some false.

(** The (paragraph, start) pairs of the entities that have a paragraph. *)
Definition positions (es : list Entity.t) : list (Z * Z) :=
  flat_map (fun e => match paragraph_id e with
                     | Some i => [(i, start_pos e)]
                     | None => []
                     end)
           es.

(** A text without U+0130, the one code point that [lower] lengthens. *)
Definition dotless (t : str) : Prop := Forall (fun c => c <> 304%N) t.

(** A text without U+03A3, the one code point whose lower case depends on
    the code points around it. *)
Definition sigmaless (t : str) : Prop := Forall (fun c => c <> 931%N) t.
End InsertionSpec2.

Module LabelSpec.

(** The same paragraph up to its identifier. *)
Definition same_but_id (a b : Paragraph.t) : Prop :=
  AppStateOps.set_id a 0 = AppStateOps.set_id b 0.

(** Coding schemes with pairwise distinct, non-empty identifiers and
    non-empty titles. *)
Definition schemes_well_formed (schemes : list CodingScheme.t) : Prop :=
  NoDup (map CodingScheme.id schemes)
  /\ Forall (fun s => CodingScheme.id s <> [] /\ CodingScheme.title s <> [])
            schemes.
End LabelSpec.

Module MoreExamples2.
Import Examples EntitiesSection.

(** The two paragraphs about Bob, the first one said by the therapist. *)
Definition with_therapist : AppState.t :=
  AppStateOps.update_paragraph_speaker (app_state ui_bob) 0 (lit "therapist").

(** Two keywords on two lines. *)
Definition two_lines : str := lit "grief" ++ [AppState.LF] ++ lit "loss".

(** A paragraph whose speaker is none of the three labels. *)
Definition nurse : Paragraph.t :=
  AppStateOps.set_speaker (Paragraph.new 0 (lit "Hello")) (lit "nurse").

(** A redraw that succeeds, and a notification that fails because the
    page was rebuilt in between. *)
Definition redrawn (_ : Paragraph.t) : SpeakersSection.completion :=
  SpeakersSection.Done.

Definition parent_deleted (_ : SpeakersSection.change) (_ : notify_type)
  : SpeakersSection.completion :=
  SpeakersSection.Raised
    {| SpeakersSection.runtime_error := true;
       SpeakersSection.error_text :=
         lit "The parent element this slot belongs to has been deleted." |}.
End MoreExamples2.

(* ================================================================== *)
(** ** app_state.py: export_state and load_from_file *)
(* ================================================================== *)

Module Persistence.
Import PyValue.

(** Reading a Python value into the typed records.  [Read a]: the
    statements complete and leave [a].  [Fails exc]: they raise [exc].
    [Foreign]: they meet a value of a type the records here cannot hold
    (Python would store it as it is); nothing is stated about that case. *)
Inductive read (A : Type) : Type :=
| Read (a : A)
| Fails (exc : str)
| Foreign.
Arguments Read {A} a.
Arguments Fails {A} exc.
Arguments Foreign {A}.

Definition read_bind {A B : Type} (c : read A) (k : A -> read B) : read B :=
  match c with
  | Read a => k a
  | Fails exc => Fails exc
  | Foreign => Foreign
  end.

Notation "x <~ c ;; k" := (read_bind c (fun x => k))
  (at level 61, c at next level, right associativity).

(** [[f(x) for x in l]] *)
Fixpoint read_all {A B : Type} (f : A -> read B) (l : list A) : read (list B) :=
  match l with
  | [] => Read []
  | x :: l' => y <~ f x ;; ys <~ read_all f l' ;; Read (y :: ys)
  end.

(** [d.get(k, default)]: only a dictionary has the method. *)
Definition get (d : value) (k : str) (default : value) : read value :=
  match d with
  | Dict items => Read (PyDict.get_default items k default)
  | _ => Fails (lit "AttributeError")
  end.

(** [d[k]] with a string [k]: [KeyError] on a dictionary without the
    key, [TypeError] on any other value. *)
Definition getitem (d : value) (k : str) : read value :=
  match d with
  | Dict items =>
      match PyDict.get items k with
      | Some v => Read v
      | None => Fails (lit "KeyError")
      end
  | _ => Fails (lit "TypeError")
  end.

(** [for x in v]: the elements of a list, the keys of a dictionary, the
    code points of a string; the other values are not iterable. *)
Definition iterate (v : value) : read (list value) :=
  match v with
  | List l => Read l
  | Dict items => Read (map (fun kv => Str (fst kv)) items)
  | Str s => Read (map (fun c => Str [c]) s)
  | _ => Fails (lit "TypeError")
  end.

Definition as_int (v : value) : read Z :=
  match v with Int z => Read z | _ => Foreign end.

Definition as_bool (v : value) : read bool :=
  match v with Bool b => Read b | _ => Foreign end.

Definition as_str (v : value) : read str :=
  match v with Str s => Read s | _ => Foreign end.

Definition as_optional_str (v : value) : read (option str) :=
  match v with
  | Null => Read None
  | Str s => Read (Some s)
  | _ => Foreign
  end.

Definition as_str_list (v : value) : read (list str) :=
  match v with
  | List l => read_all as_str l
  | _ => Foreign
  end.

Definition optional_str (s : option str) : value :=
  match s with
  | None => Null
  | Some s => Str s
  end.

(** *** export_state *)

Definition entity_dict (e : Entity.t) : value :=
  Dict [ (lit "text", Str (text e));
         (lit "entity_type", Str (entity_type e));
         (lit "start_pos", Int (start_pos e));
         (lit "end_pos", Int (end_pos e));
         (lit "anonymized", Bool (anonymized e));
         (lit "replacement", Str (replacement e)) ].

Definition paragraph_dict (p : Paragraph.t) : value :=
  Dict [ (lit "id", Int (Paragraph.id p));
         (lit "text", Str (Paragraph.text p));
         (lit "speaker", Str (Paragraph.speaker p));
         (lit "sentiment", Str (Paragraph.sentiment p));
         (lit "codes", List (map Str (Paragraph.codes p)));
         (lit "entities", List (map entity_dict (Paragraph.entities p))) ].

Definition scheme_dict (s : CodingScheme.t) : value :=
  Dict [ (lit "id", Str (CodingScheme.id s));
         (lit "title", Str (CodingScheme.title s));
         (lit "keywords", List (map Str (CodingScheme.keywords s))) ].

Definition export_state (st : FullState.t) : value :=
  let b := FullState.base st in
  Dict [ (lit "current_step", Int (FullState.current_step st));
         (lit "transcript_file_path",
          optional_str (FullState.transcript_file_path st));
         (lit "original_transcript", Str (AppState.original_transcript b));
         (lit "current_transcript", Str (AppState.current_transcript b));
         (lit "paragraphs", List (map paragraph_dict (AppState.paragraphs b)));
         (lit "coding_schemes",
          List (map scheme_dict (FullState.coding_schemes st)));
         (lit "analysis_results", FullState.analysis_results st) ].

(** *** load_from_file, from the value [json.load] returned *)

(** [Entity(text=e['text'], ..., replacement=e.get('replacement', ''))] *)
Definition load_entity (e : value) : read Entity.t :=
  txt <~ (v <~ getitem e (lit "text") ;; as_str v) ;;
  ty <~ (v <~ getitem e (lit "entity_type") ;; as_str v) ;;
  s <~ (v <~ getitem e (lit "start_pos") ;; as_int v) ;;
  en <~ (v <~ getitem e (lit "end_pos") ;; as_int v) ;;
  a <~ (v <~ get e (lit "anonymized") (Bool false) ;; as_bool v) ;;
  r <~ (v <~ get e (lit "replacement") (Str []) ;; as_str v) ;;
  Read (Entity.mk txt ty s en a r None None).

Definition load_paragraph (p_data : value) : read Paragraph.t :=
  entities <~ (v <~ get p_data (lit "entities") (List []) ;;
               l <~ iterate v ;;
               read_all load_entity l) ;;
  i <~ (v <~ getitem p_data (lit "id") ;; as_int v) ;;
  txt <~ (v <~ getitem p_data (lit "text") ;; as_str v) ;;
  speaker <~ (v <~ get p_data (lit "speaker") (Str (lit "unknown")) ;;
              as_str v) ;;
  sentiment <~ (v <~ get p_data (lit "sentiment") (Str (lit "neutral")) ;;
                as_str v) ;;
  codes <~ (v <~ get p_data (lit "codes") (List []) ;; as_str_list v) ;;
  Read (Paragraph.mk i txt speaker sentiment entities codes).

Definition load_scheme (s : value) : read CodingScheme.t :=
  i <~ (v <~ getitem s (lit "id") ;; as_str v) ;;
  title <~ (v <~ getitem s (lit "title") ;; as_str v) ;;
  keywords <~ (v <~ get s (lit "keywords") (List []) ;; as_str_list v) ;;
  Read (CodingScheme.mk i title keywords).

(** The body of [load_from_file] after [data = json.load(f)].  The
    attribute [entities] of the state is not assigned.  When the body
    raises, the attributes assigned before keep their new values; that
    partly loaded state is not modelled. *)
Definition load_state (st : FullState.t) (data : value) : read FullState.t :=
  current_step <~ (v <~ get data (lit "current_step") (Int 0) ;; as_int v) ;;
  path <~ (v <~ get data (lit "transcript_file_path") Null ;;
           as_optional_str v) ;;
  original <~ (v <~ get data (lit "original_transcript") (Str []) ;;
               as_str v) ;;
  current <~ (v <~ get data (lit "current_transcript") (Str []) ;;
              as_str v) ;;
  paragraphs <~ (v <~ get data (lit "paragraphs") (List []) ;;
                 l <~ iterate v ;;
                 read_all load_paragraph l) ;;
  schemes <~ (v <~ get data (lit "coding_schemes") (List []) ;;
              l <~ iterate v ;;
              read_all load_scheme l) ;;
  results <~ get data (lit "analysis_results") (Dict []) ;;
  Read (FullState.mk current_step path
          (AppState.mk original current paragraphs
                       (AppState.entities (FullState.base st)))
          schemes results).

(** *** What a saved state keeps *)

(** An entity without the attributes attached after construction. *)
Definition plain (e : Entity.t) : Entity.t :=
  Entity.mk (text e) (entity_type e) (start_pos e) (end_pos e) (anonymized e)
            (replacement e) None None.

Definition plain_paragraph (p : Paragraph.t) : Paragraph.t :=
  Paragraph.mk (Paragraph.id p) (Paragraph.text p) (Paragraph.speaker p)
               (Paragraph.sentiment p) (map plain (Paragraph.entities p))
               (Paragraph.codes p).

(** The state [st] as a saved file gives it back to a state whose entity
    collection is [entities]. *)
Definition restored (st : FullState.t) (entities : list Entity.t)
  : FullState.t :=
  let b := FullState.base st in
  FullState.mk (FullState.current_step st) (FullState.transcript_file_path st)
    (AppState.mk (AppState.original_transcript b)
                 (AppState.current_transcript b)
                 (map plain_paragraph (AppState.paragraphs b))
                 entities)
    (FullState.coding_schemes st) (FullState.analysis_results st).
End Persistence.
(* ================================================================== *)
(** ** Tactics *)
(* ================================================================== *)

(** Break a conjunction of closed facts into its parts. *)
Ltac split_all := repeat match goal with |- _ /\ _ => split end.

(** Settle a closed equation by evaluation. *)
Ltac by_computation := vm_compute; reflexivity.

(* ================================================================== *)
(** * Proofs *)
(* ================================================================== *)

Import NLPService EntitiesSection.
Import AnonymizerSpec RecognizerSpec InsertionSpec SegmenterSpec Examples.

(* ================================================================== *)
(** ** Slicing and sorting facts *)
(* ================================================================== *)

Module PyFacts.

Lemma len_nonneg (t : str) : 0 <= len t.
Proof. unfold len; lia. Qed.

Lemma len_app (a b : str) : len (a ++ b) = len a + len b.
Proof. unfold len; rewrite length_app; lia. Qed.

Lemma clip_range n i : 0 <= n -> 0 <= clip n i <= n.
Proof. unfold clip; intros; destruct (i <? 0) eqn:E; lia. Qed.

Lemma clip_id n i : 0 <= i <= n -> clip n i = i.
Proof. unfold clip; intros; destruct (i <? 0) eqn:E; lia. Qed.

Lemma clip_beyond n i : 0 <= n <= i -> clip n i = n.
Proof. unfold clip; intros; destruct (i <? 0) eqn:E; lia. Qed.

Lemma clip_idem n i : 0 <= n -> clip n (clip n i) = clip n i.
Proof. intros; apply clip_id, clip_range; assumption. Qed.

Lemma slice_to_valid (t : str) i :
  0 <= i <= len t -> slice_to t i = firstn (Z.to_nat i) t.
Proof. intros; unfold slice_to; now rewrite clip_id. Qed.

Lemma slice_from_valid (t : str) i :
  0 <= i <= len t -> slice_from t i = skipn (Z.to_nat i) t.
Proof. intros; unfold slice_from; now rewrite clip_id. Qed.

Lemma slice_valid (t : str) i j :
  0 <= i <= len t -> 0 <= j <= len t ->
  slice t i j = firstn (Z.to_nat (j - i)) (skipn (Z.to_nat i) t).
Proof. intros; unfold slice; now rewrite !clip_id. Qed.

Lemma len_slice_to (t : str) i : 0 <= i <= len t -> len (slice_to t i) = i.
Proof.
  intros; rewrite slice_to_valid by assumption.
  unfold len in *; rewrite length_firstn; lia.
Qed.

(** Slicing a working text whose head is still the original text up to
    [c]. *)
Lemma slice_to_head (t q : str) c s :
  0 <= s <= c -> c <= len t ->
  slice_to (slice_to t c ++ q) s = slice_to t s.
Proof.
  intros Hs Hc.
  assert (Hl : len (slice_to t c) = c) by (apply len_slice_to; lia).
  rewrite (slice_to_valid (slice_to t c ++ q)).
  2:{ rewrite len_app, Hl. pose proof (len_nonneg q). lia. }
  rewrite firstn_app.
  replace (Z.to_nat s - length (slice_to t c))%nat with 0%nat
    by (unfold len in Hl; lia).
  simpl; rewrite app_nil_r.
  rewrite !slice_to_valid by lia.
  rewrite firstn_firstn. f_equal. lia.
Qed.

Lemma slice_from_head (t q : str) c e :
  0 <= e <= c -> c <= len t ->
  slice_from (slice_to t c ++ q) e = slice t e c ++ q.
Proof.
  intros He Hc.
  assert (Hl : len (slice_to t c) = c) by (apply len_slice_to; lia).
  rewrite (slice_from_valid (slice_to t c ++ q)).
  2:{ rewrite len_app, Hl. pose proof (len_nonneg q). lia. }
  rewrite skipn_app.
  replace (Z.to_nat e - length (slice_to t c))%nat with 0%nat
    by (unfold len in Hl; lia).
  simpl. f_equal.
  rewrite slice_to_valid, slice_valid by lia.
  rewrite skipn_firstn_comm. f_equal. lia.
Qed.

Section SortedFacts.
Context {A : Type} (key : A -> Z).

Lemma insert_desc_perm x l : Permutation (insert_desc key x l) (x :: l).
Proof.
  induction l as [|y l IH]; simpl; [reflexivity|].
  destruct (key x <? key y).
  - rewrite IH. apply perm_swap.
  - reflexivity.
Qed.

Lemma sorted_desc_perm l : Permutation (sorted_desc key l) l.
Proof.
  induction l as [|x l IH]; simpl; [reflexivity|].
  rewrite insert_desc_perm. now constructor.
Qed.

Lemma insert_desc_ordered x l :
  ForallOrdPairs (key_desc key) l -> ForallOrdPairs (key_desc key) (insert_desc key x l).
Proof.
  induction 1 as [|y l Hy Hl IH]; simpl.
  - repeat constructor.
  - destruct (key x <? key y) eqn:E.
    + constructor; [|exact IH].
      rewrite insert_desc_perm. constructor; [|exact Hy].
      unfold key_desc; lia.
    + constructor; [|now constructor].
      constructor; [unfold key_desc; lia|].
      eapply Forall_impl; [|exact Hy].
      unfold key_desc; intros; lia.
Qed.

Lemma sorted_desc_ordered l : ForallOrdPairs (key_desc key) (sorted_desc key l).
Proof.
  induction l; simpl; [constructor|]. now apply insert_desc_ordered.
Qed.

Lemma insert_desc_head x l :
  Forall (fun y => key y <= key x) l -> insert_desc key x l = x :: l.
Proof.
  destruct 1 as [|y l Hy _]; simpl; [reflexivity|].
  destruct (key x <? key y) eqn:E; [lia|reflexivity].
Qed.

(** Sorting commutes with filtering: the sort is stable. *)
Lemma filter_insert_desc (p : A -> bool) x l :
  ForallOrdPairs (key_desc key) l ->
  filter p (insert_desc key x l)
  = if p x then insert_desc key x (filter p l) else filter p l.
Proof.
  induction 1 as [|y l Hy Hl IH]; simpl.
  - destruct (p x); reflexivity.
  - destruct (key x <? key y) eqn:E; simpl.
    + rewrite IH. destruct (p y), (p x); simpl; try rewrite E; reflexivity.
    + destruct (p x) eqn:Px, (p y) eqn:Py; simpl;
        rewrite ?Px, ?Py, ?E; try reflexivity.
      symmetry; apply insert_desc_head.
      apply Forall_forall; intros z Hz.
      apply filter_In in Hz as [Hz _].
      rewrite Forall_forall in Hy. specialize (Hy z Hz).
      unfold key_desc in Hy. lia.
Qed.

Lemma filter_sorted_desc (p : A -> bool) l :
  filter p (sorted_desc key l) = sorted_desc key (filter p l).
Proof.
  induction l as [|x l IH]; simpl; [reflexivity|].
  rewrite filter_insert_desc by apply sorted_desc_ordered.
  rewrite IH. destruct (p x); reflexivity.
Qed.
End SortedFacts.

(** A symmetric relation that holds of all ordered pairs of a list holds
    of all ordered pairs of its permutations and of its sublists. *)
Section Pairs.
Context {A : Type} (R : A -> A -> Prop).
Hypothesis R_sym : forall a b, R a b -> R b a.

Lemma ForallOrdPairs_perm l l' :
  Permutation l l' -> ForallOrdPairs R l -> ForallOrdPairs R l'.
Proof.
  induction 1 as [|x l l' Hp IH|x y l|l l' l'' _ IH1 _ IH2]; intros H.
  - constructor.
  - inversion H as [|? ? Hx Hl]; subst.
    constructor; [now rewrite <- Hp | now apply IH].
  - inversion H as [|? ? Hy Hxl]; subst.
    inversion Hxl as [|? ? Hx Hl]; subst.
    inversion Hy as [|? ? Hyx Hyl]; subst.
    constructor; [constructor; [now apply R_sym | assumption]|].
    now constructor.
  - auto.
Qed.

End Pairs.

Lemma ForallOrdPairs_filter_any {A : Type} (R : A -> A -> Prop)
    (p : A -> bool) l :
  ForallOrdPairs R l -> ForallOrdPairs R (filter p l).
Proof.
  induction 1 as [|x l Hx Hl IH]; simpl; [constructor|].
  destruct (p x); [|exact IH].
  constructor; [|exact IH].
  apply Forall_forall; intros z Hz. apply filter_In in Hz as [Hz _].
  rewrite Forall_forall in Hx; auto.
Qed.

Lemma ForallOrdPairs_and {A : Type} (R S : A -> A -> Prop) l :
  ForallOrdPairs R l -> ForallOrdPairs S l ->
  ForallOrdPairs (fun a b => R a b /\ S a b) l.
Proof.
  induction 1 as [|x l Hx Hl IH]; intros HS; [constructor|].
  inversion HS as [|? ? Sx Sl]; subst.
  constructor; [|now apply IH].
  rewrite Forall_forall in *; auto.
Qed.

Lemma ForallOrdPairs_impl {A : Type} (R S : A -> A -> Prop) l :
  (forall a b, In a l -> In b l -> R a b -> S a b) ->
  ForallOrdPairs R l -> ForallOrdPairs S l.
Proof.
  intros HRS H. induction H as [|x l Hx Hl IH]; [constructor|].
  constructor.
  - rewrite Forall_forall in *. intros z Hz.
    apply HRS; [now left | now right | auto].
  - apply IH. intros a b Ha Hb. apply HRS; now right.
Qed.

End PyFacts.

Import PyFacts.

(* ================================================================== *)
(** ** Right-to-left splicing *)
(* ================================================================== *)

Module AnonymizerFacts.

Lemma fold_step_filter l w :
  fold_left anonymize_step l w = fold_left splice (filter anonymized l) w.
Proof.
  revert w; induction l as [|e l IH]; intros w; simpl; [reflexivity|].
  unfold anonymize_step at 2. destruct (anonymized e); simpl; apply IH.
Qed.

Lemma anonymize_text_marked txt entities :
  anonymize_text txt entities
  = fold_left splice (sorted_desc start_pos (filter anonymized entities)) txt.
Proof.
  unfold anonymize_text. rewrite fold_step_filter.
  now rewrite filter_sorted_desc.
Qed.

Lemma rebuild_upto_snoc txt asc e cursor stop :
  rebuild_upto txt cursor (asc ++ [e]) stop
  = rebuild_upto txt cursor asc (start_pos e)
      ++ replacement_of e ++ slice txt (end_pos e) stop.
Proof.
  revert cursor; induction asc as [|a asc IH]; intros cursor; simpl.
  - reflexivity.
  - rewrite IH. now rewrite <- !app_assoc.
Qed.

(** Right-to-left splicing: while the working text still begins with the
    original text up to [c] and every entity left to process ends at or
    before [c], the splices rebuild the text from the original offsets. *)
Lemma fold_splice_rebuild txt l : forall c q,
  0 <= c <= len txt ->
  Forall (fun e => 0 <= start_pos e <= end_pos e /\ end_pos e <= c) l ->
  ForallOrdPairs (fun a b => left_to_right b a) l ->
  fold_left splice l (slice_to txt c ++ q)
  = rebuild_upto txt 0 (rev l) c ++ q.
Proof.
  induction l as [|e l IH]; intros c q Hc Hv Ho; simpl.
  - f_equal. unfold slice, slice_to.
    pose proof (len_nonneg txt).
    rewrite (clip_id _ 0) by lia. simpl. now rewrite Z.sub_0_r.
  - inversion Hv as [|? ? [He1 He2] Hv']; subst.
    inversion Ho as [|? ? Hx Ho']; subst.
    unfold splice at 2.
    rewrite slice_to_head, slice_from_head by lia.
    rewrite IH; try assumption; try lia.
    + rewrite rebuild_upto_snoc. now rewrite <- !app_assoc.
    + rewrite Forall_forall in *. intros z Hz.
      specialize (Hv' z Hz). specialize (Hx z Hz).
      unfold left_to_right in Hx. lia.
Qed.

Lemma ForallOrdPairs_snoc {A} (R : A -> A -> Prop) l x :
  ForallOrdPairs R l -> Forall (fun y => R y x) l ->
  ForallOrdPairs R (l ++ [x]).
Proof.
  induction 1 as [|y l Hy Hl IH]; simpl; intros HF.
  - repeat constructor.
  - inversion HF; subst. constructor; [|now apply IH].
    apply Forall_app; split; [assumption|now repeat constructor].
Qed.

Lemma ForallOrdPairs_rev {A} (R : A -> A -> Prop) l :
  ForallOrdPairs R l -> ForallOrdPairs (fun a b => R b a) (rev l).
Proof.
  induction 1 as [|x l Hx Hl IH]; simpl; [constructor|].
  apply ForallOrdPairs_snoc; [exact IH|].
  apply Forall_rev. exact Hx.
Qed.

Lemma separated_sym a b : separated a b -> separated b a.
Proof. unfold separated, non_overlapping; intuition lia. Qed.

(** The processing order of valid, separated entities: each entity lies
    to the left of every entity processed before it. *)
Lemma processing_order txt marked :
  Forall (valid_span txt) marked ->
  ForallOrdPairs separated marked ->
  ForallOrdPairs (fun a b => left_to_right b a)
                 (sorted_desc start_pos marked).
Proof.
  intros Hv Hs.
  pose proof (sorted_desc_perm start_pos marked) as Hp.
  assert (Hs' : ForallOrdPairs separated (sorted_desc start_pos marked)).
  { eapply ForallOrdPairs_perm; [exact separated_sym| |exact Hs].
    now symmetry. }
  pose proof (sorted_desc_ordered start_pos marked) as Ho.
  pose proof (ForallOrdPairs_and _ _ _ Ho Hs') as Hb.
  eapply ForallOrdPairs_impl; [|exact Hb].
  intros a b Ha Hb' [Hk [Hn Ht]].
  assert (Va : valid_span txt a).
  { rewrite Forall_forall in Hv. apply Hv. eapply Permutation_in; eauto. }
  assert (Vb : valid_span txt b).
  { rewrite Forall_forall in Hv. apply Hv. eapply Permutation_in; eauto. }
  unfold key_desc, left_to_right, valid_span, non_overlapping in *. lia.
Qed.

Lemma anonymize_text_rebuild txt entities :
  Forall (valid_span txt) (filter anonymized entities) ->
  ForallOrdPairs separated (filter anonymized entities) ->
  anonymize_text txt entities
  = rebuild txt (rev (sorted_desc start_pos (filter anonymized entities))).
Proof.
  intros Hv Hs. rewrite anonymize_text_marked.
  set (l := sorted_desc start_pos (filter anonymized entities)).
  pose proof (fold_splice_rebuild txt l (len txt) []) as H.
  rewrite !app_nil_r in H.
  replace (slice_to txt (len txt)) with txt in H.
  2:{ unfold slice_to. pose proof (len_nonneg txt).
      rewrite clip_id by lia. unfold len. rewrite Nat2Z.id.
      symmetry; apply firstn_all. }
  apply H.
  - pose proof (len_nonneg txt); lia.
  - eapply Permutation_Forall; [symmetry; apply sorted_desc_perm|].
    eapply Forall_impl; [|exact Hv]. unfold valid_span; intros; lia.
  - now apply (processing_order txt).
Qed.
End AnonymizerFacts.

Import AnonymizerFacts.

(* ================================================================== *)
(** ** Offsets out of bounds *)
(* ================================================================== *)

Module ClampFacts.

Lemma splice_adjusted w e : splice w (adjusted w e) = splice w e.
Proof.
  unfold splice, adjusted, with_span, slice_to, slice_from, replacement_of; simpl.
  pose proof (len_nonneg w).
  now rewrite !clip_idem.
Qed.

Lemma anonymize_step_adjusted w e :
  anonymize_step w (adjusted w e) = anonymize_step w e.
Proof.
  unfold anonymize_step. simpl. destruct (anonymized e); [apply splice_adjusted|reflexivity].
Qed.

End ClampFacts.

Import ClampFacts.

(* ================================================================== *)
(** ** The anonymization pass over the paragraphs *)
(* ================================================================== *)

Module ApplyFacts.

Lemma ownerless_in_no_paragraph g i :
  paragraph_id g = None -> in_paragraph i g = false.
Proof. unfold in_paragraph; now intros ->. Qed.

Lemma paragraph_entities_without g es1 es2 i :
  paragraph_id g = None ->
  filter (in_paragraph i) (filter anonymized (es1 ++ g :: es2))
  = filter (in_paragraph i) (filter anonymized (es1 ++ es2)).
Proof.
  intros Hg. rewrite !filter_app; simpl.
  destruct (anonymized g); simpl; [|reflexivity].
  now rewrite (ownerless_in_no_paragraph g i Hg).
Qed.

(** The loop reads the marked entities only through each paragraph's own
    replacement set. *)
Lemma anonymize_paragraphs_ext A B ps : forall n,
  (forall i, filter (in_paragraph i) A = filter (in_paragraph i) B) ->
  anonymize_paragraphs A ps n = anonymize_paragraphs B ps n.
Proof.
  induction ps as [|p ps IH]; intros n H; simpl; [reflexivity|].
  rewrite (H (Paragraph.id p)).
  destruct (filter (in_paragraph (Paragraph.id p)) B); now rewrite (IH _ H).
Qed.

Lemma anonymize_paragraphs_idle A ps : forall n,
  (forall i, filter (in_paragraph i) A = []) ->
  anonymize_paragraphs A ps n = (ps, []).
Proof.
  induction ps as [|p ps IH]; intros n H; simpl; [reflexivity|].
  rewrite (H (Paragraph.id p)). now rewrite (IH _ H).
Qed.

Lemma apply_anonymization_texts ui :
  paragraph_texts (_apply_anonymization ui)
  = map Paragraph.text
        (fst (anonymize_paragraphs
                (filter anonymized (AppState.entities (app_state ui)))
                (AppState.paragraphs (app_state ui)) 0)).
Proof.
  unfold _apply_anonymization, paragraph_texts.
  destruct (AppState.entities (app_state ui)) as [|e es] eqn:E.
  - simpl. now rewrite anonymize_paragraphs_idle.
  - destruct (filter anonymized (e :: es)) as [|m ms] eqn:F.
    + simpl. now rewrite anonymize_paragraphs_idle.
    + destruct (anonymize_paragraphs (m :: ms) (AppState.paragraphs (app_state ui)) 0)
        as [ps' log]. reflexivity.
Qed.

End ApplyFacts.

Import ApplyFacts.

(* ================================================================== *)
(** ** The recognizer adapter *)
(* ================================================================== *)

Module RecognizerFacts.

Lemma _initialize_stanza_returns stanza st :
  exists st', _initialize_stanza stanza st = Returns st'.
Proof.
  unfold _initialize_stanza.
  destruct (_stanza_initialized st || _shared_initialized st).
  - destruct (_shared_pipeline st); eauto.
  - destruct (Pipeline_offline stanza); simpl; eauto.
    destruct (download stanza); simpl; eauto.
    destruct (Pipeline_downloaded stanza); simpl; eauto.
Qed.

Lemma extract_entities_initialized finditer stanza st txt :
  extract_entities finditer stanza st txt
  = match nlp_pipeline (initialized stanza st) with
    | Some pipeline =>
        try_except
          (doc <- pipeline txt ;;
           Returns (initialized stanza st, entities_of_document doc))
          (fun _ => Returns (initialized stanza st,
                             _extract_entities_regex finditer txt))
    | None => Returns (initialized stanza st,
                       _extract_entities_regex finditer txt)
    end.
Proof.
  unfold extract_entities, initialized.
  destruct (negb (_stanza_initialized st)); [|reflexivity].
  destruct (_initialize_stanza_returns stanza st) as [st' ->]. reflexivity.
Qed.

End RecognizerFacts.

Import RecognizerFacts.

(* ================================================================== *)
(** ** Searching a text *)
(* ================================================================== *)

Module FindFacts.

Lemma startswith_nil t : startswith t [] = true.
Proof. destruct t; reflexivity. Qed.

Lemma char_eqb_eq a b : char_eqb a b = true <-> a = b.
Proof. apply N.eqb_eq. Qed.

Lemma str_eqb_eq a b : str_eqb a b = true <-> a = b.
Proof.
  revert b; induction a as [|x a IH]; destruct b as [|y b]; simpl;
    try (split; congruence).
  rewrite andb_true_iff, char_eqb_eq, IH.
  split; [intros [-> ->]; reflexivity | intros [= -> ->]; auto].
Qed.

Lemma startswith_firstn t sub :
  startswith t sub = true <-> firstn (length sub) t = sub.
Proof.
  revert t; induction sub as [|x sub IH]; intros t; simpl.
  - rewrite startswith_nil. tauto.
  - destruct t as [|y t]; simpl; [split; congruence|].
    rewrite andb_true_iff, char_eqb_eq, IH.
    split.
    + intros [-> ->]. reflexivity.
    + intros [= -> H]. rewrite H. auto.
Qed.

(** [find_at] returns the first offset at which [sub] starts. *)
Lemma find_at_found sub t : forall i r,
  find_at sub t i = r -> r <> -1 ->
  exists k, r = i + Z.of_nat k /\ (k <= length t)%nat
            /\ startswith (skipn k t) sub = true
            /\ forall j, (j < k)%nat -> startswith (skipn j t) sub = false.
Proof.
  induction t as [|c t IH]; intros i r Hr Hne; cbn [find_at] in Hr.
  - destruct sub; simpl in Hr; [|congruence].
    exists 0%nat. subst. split; [lia|]. split; [simpl; lia|].
    split; [reflexivity|]. intros; lia.
  - destruct (startswith (c :: t) sub) eqn:E.
    + exists 0%nat. subst. split; [lia|]. split; [simpl; lia|].
      split; [exact E|]. intros; lia.
    + destruct (IH (i + 1) r Hr Hne) as (k & -> & Hk & Hs & Hlt).
      exists (S k). split; [lia|]. split; [simpl; lia|].
      split; [exact Hs|].
      intros [|j] Hj; simpl; [exact E|]. apply Hlt; lia.
Qed.

Lemma find_at_none sub t : forall i,
  0 <= i -> find_at sub t i = -1 ->
  forall j, (j <= length t)%nat -> startswith (skipn j t) sub = false.
Proof.
  induction t as [|c t IH]; intros i Hi Hr j Hj; cbn [find_at] in Hr.
  - destruct sub; simpl in Hr; [lia|].
    destruct j; simpl in *; [reflexivity|lia].
  - destruct (startswith (c :: t) sub) eqn:E; [lia|].
    destruct j; simpl; [exact E|].
    apply (IH (i + 1)); simpl in Hj; lia.
Qed.

End FindFacts.

Import FindFacts.

(* ================================================================== *)
(** ** The scanning loop of the bulk insert *)
(* ================================================================== *)

Module ScanFacts.

Lemma filter_none {A} (f : A -> bool) l :
  (forall x, In x l -> f x = false) -> filter f l = [].
Proof.
  induction l as [|x l IH]; simpl; intros H; [reflexivity|].
  rewrite (H x (or_introl eq_refl)). apply IH. intros; apply H; now right.
Qed.

Lemma str_find_from t sub (start : nat) :
  (start <= length t)%nat ->
  str_find t sub (Z.of_nat start) = find_at sub (skipn start t) (Z.of_nat start).
Proof.
  intros H. unfold str_find, len.
  replace (Z.of_nat (length t) <? Z.of_nat start) with false
    by (symmetry; apply Z.ltb_ge; lia).
  rewrite clip_id by lia. now rewrite Nat2Z.id.
Qed.

Lemma str_find_beyond t sub (start : nat) :
  (length t < start)%nat -> str_find t sub (Z.of_nat start) = -1.
Proof.
  intros H. unfold str_find, len.
  replace (Z.of_nat (length t) <? Z.of_nat start) with true
    by (symmetry; apply Z.ltb_lt; lia).
  reflexivity.
Qed.

Lemma occurrences_from_beyond sub t start :
  (length t < start)%nat -> occurrences_from sub t start = [].
Proof.
  intros H. unfold occurrences_from.
  replace (S (length t) - start)%nat with 0%nat by lia. reflexivity.
Qed.

(** One call of [find] in the loop: either nothing is left, or the next
    occurrence is returned. *)
Lemma str_find_step t sub (start : nat) :
  (start <= length t)%nat ->
  (str_find t sub (Z.of_nat start) = -1 /\ occurrences_from sub t start = [])
  \/ exists k, str_find t sub (Z.of_nat start) = Z.of_nat k
               /\ (start <= k <= length t)%nat
               /\ occurrences_from sub t start
                  = Z.of_nat k :: occurrences_from sub t (S k).
Proof.
  intros Hs. rewrite (str_find_from t sub start Hs).
  destruct (Z.eq_dec (find_at sub (skipn start t) (Z.of_nat start)) (-1))
    as [E|E].
  - left. split; [exact E|]. apply filter_none. intros p Hp.
    apply in_map_iff in Hp as (n & <- & Hn). apply in_seq in Hn.
    rewrite Nat2Z.id.
    replace n with ((n - start) + start)%nat by lia.
    rewrite <- skipn_skipn.
    apply (find_at_none sub (skipn start t) (Z.of_nat start)); [lia|exact E|].
    rewrite length_skipn. lia.
  - right.
    destruct (find_at_found sub (skipn start t) _ _ eq_refl E)
      as (k & Hr & Hk & Hs' & Hlt).
    rewrite length_skipn in Hk.
    exists (start + k)%nat. split; [rewrite Hr; lia|]. split; [lia|].
    unfold occurrences_from.
    replace (S (length t) - start)%nat
      with (k + S (S (length t) - S (start + k)))%nat by lia.
    rewrite seq_app, map_app, filter_app.
    rewrite filter_none.
    2:{ intros p Hp. apply in_map_iff in Hp as (n & <- & Hn).
        apply in_seq in Hn. rewrite Nat2Z.id.
        replace n with ((n - start) + start)%nat by lia.
        rewrite <- skipn_skipn. apply Hlt. lia. }
    simpl. rewrite Nat2Z.id.
    replace (start + k)%nat with (k + start)%nat at 1 by lia.
    rewrite <- skipn_skipn, Hs'. reflexivity.
Qed.

Section Loop.
Variables T K R : str.
Variables (i : Z) (ptext tl sl : str).

(** The loop ends on the fuel it is given and visits the occurrences from
    left to right. *)
Lemma scan_occurrences_spec : forall fuel start acc,
  (start <= length tl + 1)%nat ->
  (length tl + 2 - start <= fuel)%nat ->
  scan_occurrences T K R fuel i ptext tl sl (Z.of_nat start) acc
  = Some (fold_left (add_occurrence T K R i ptext)
                    (occurrences_from sl tl start) acc).
Proof.
  induction fuel as [|fuel IH]; intros start acc Hs Hf; [lia|].
  cbn [scan_occurrences].
  destruct (Nat.le_gt_cases start (length tl)) as [Hle|Hgt].
  - destruct (str_find_step tl sl start Hle) as [[E O]|(k & E & Hk & O)].
    + rewrite E, O. reflexivity.
    + rewrite E, O.
      replace (Z.of_nat k =? -1) with false by (symmetry; apply Z.eqb_neq; lia).
      replace (Z.of_nat k + 1) with (Z.of_nat (S k)) by lia.
      rewrite IH by lia. reflexivity.
  - rewrite str_find_beyond, occurrences_from_beyond by lia. reflexivity.
Qed.

Lemma scan_occurrences_terminates acc :
  scan_occurrences T K R (length tl + 2) i ptext tl sl 0 acc <> None.
Proof.
  change 0 with (Z.of_nat 0). rewrite scan_occurrences_spec by lia. discriminate.
Qed.
End Loop.
End ScanFacts.

Import ScanFacts.

(* ================================================================== *)
(** ** The bulk insert over all paragraphs *)
(* ================================================================== *)

Module BulkFacts.

Lemma find_existsb {A} (f : A -> bool) l :
  match find f l with Some _ => true | None => false end = existsb f l.
Proof.
  induction l as [|x l IH]; simpl; [reflexivity|].
  destruct (f x); [reflexivity|exact IH].
Qed.

Lemma takenb_taken es i p : takenb es i p = true <-> taken es i p.
Proof.
  unfold takenb, taken. rewrite existsb_exists.
  split; intros (e & He & H); exists e; (split; [exact He|]).
  - apply andb_true_iff in H as [H1 H2]. unfold in_paragraph in H1.
    destruct (paragraph_id e) as [j|]; [|discriminate].
    apply Z.eqb_eq in H1, H2. subst. auto.
  - destruct H as [H1 H2]. unfold in_paragraph. rewrite H1, H2.
    now rewrite !Z.eqb_refl.
Qed.

Lemma takenb_app es es' i p :
  takenb (es ++ es') i p = takenb es i p || takenb es' i p.
Proof. unfold takenb. apply existsb_app. Qed.

Lemma takenb_occurrence T K R i ptext p j q :
  takenb [occurrence_entity T K R i ptext p] j q = (i =? j) && (p =? q).
Proof. unfold takenb; simpl. now rewrite orb_false_r. Qed.

Section OneParagraph.
Variables T K R : str.
Variables (i : Z) (ptext : str).

Lemma fold_add_occurrence : forall ps es n,
  NoDup ps ->
  fold_left (add_occurrence T K R i ptext) ps (es, n)
  = (es ++ map (occurrence_entity T K R i ptext)
               (filter (fun p => negb (takenb es i p)) ps),
     n + Z.of_nat (length (filter (fun p => negb (takenb es i p)) ps))).
Proof.
  induction ps as [|p ps IH]; intros es n Hnd; simpl.
  - rewrite app_nil_r. f_equal. lia.
  - inversion Hnd as [|? ? Hp Hps]; subst.
    unfold add_occurrence at 2. cbn [fst snd].
    pose proof (find_existsb
                  (fun e => in_paragraph i e && (start_pos e =? p)) es) as Hf.
    fold (takenb es i p) in Hf.
    destruct (find _ es) as [e|].
    + rewrite <- Hf. simpl. now rewrite IH.
    + rewrite <- Hf. simpl. rewrite IH by assumption.
      assert (Hsame : filter (fun q => negb (takenb
                 (es ++ [occurrence_entity T K R i ptext p]) i q)) ps
              = filter (fun q => negb (takenb es i q)) ps).
      { apply filter_ext_in. intros q Hq.
        rewrite takenb_app, takenb_occurrence, Z.eqb_refl. simpl.
        replace (p =? q) with false; [now rewrite orb_false_r|].
        symmetry; apply Z.eqb_neq. intros ->. contradiction. }
      rewrite Hsame, <- app_assoc. simpl. f_equal. lia.
Qed.
End OneParagraph.

Lemma NoDup_occurrences_from sub t start :
  NoDup (occurrences_from sub t start).
Proof.
  unfold occurrences_from. apply NoDup_filter.
  apply Finite.Injective_map_NoDup; [|apply seq_NoDup].
  intros a b H. lia.
Qed.

Lemma filter_filter {A} (f g : A -> bool) l :
  filter g (filter f l) = filter (fun x => f x && g x) l.
Proof.
  induction l as [|x l IH]; simpl; [reflexivity|].
  destruct (f x); simpl; [destruct (g x); now rewrite IH|exact IH].
Qed.

Lemma scan_paragraph_spec T K R es n ip :
  scan_paragraph T K R (es, n) ip
  = (es ++ map (target_entity T K R) (paragraph_targets es T ip),
     n + Z.of_nat (length (paragraph_targets es T ip))).
Proof.
  destruct ip as [i p]. unfold scan_paragraph.
  change 0 with (Z.of_nat 0) at 1.
  rewrite scan_occurrences_spec by lia.
  rewrite fold_add_occurrence by apply NoDup_occurrences_from.
  unfold paragraph_targets, occurrences_from, offsets, occurs_cib.
  cbn [fst snd]. rewrite Nat.sub_0_r, filter_filter.
  rewrite map_map, length_map. reflexivity.
Qed.

(** Entities created for earlier paragraphs never hide an offset of a
    later one. *)
Lemma paragraph_targets_frame es0 extra T k i p :
  (forall e, In e extra -> exists j, paragraph_id e = Some j /\ j < k) ->
  k <= i ->
  paragraph_targets (es0 ++ extra) T (i, p) = paragraph_targets es0 T (i, p).
Proof.
  intros Hx Hk. unfold paragraph_targets. cbn [fst snd]. f_equal.
  apply filter_ext. intros q. f_equal. f_equal.
  rewrite takenb_app.
  replace (takenb extra i q) with false; [apply orb_false_r|].
  symmetry. apply not_true_is_false. intros H.
  apply takenb_taken in H as (e & He & Hi & _).
  destruct (Hx e He) as (j & Hj & Hlt).
  rewrite Hi in Hj. injection Hj as <-. lia.
Qed.

Lemma paragraph_targets_owner es T ip tg :
  In tg (paragraph_targets es T ip) -> fst (fst tg) = fst ip.
Proof.
  unfold paragraph_targets. intros H. apply in_map_iff in H as (q & <- & _).
  reflexivity.
Qed.

Lemma fold_scan_paragraphs T K R es0 ps : forall k extra n,
  (forall e, In e extra -> exists j, paragraph_id e = Some j /\ j < k) ->
  fold_left (scan_paragraph T K R) (enumerate_from k ps) (es0 ++ extra, n)
  = (es0 ++ extra
       ++ map (target_entity T K R)
              (flat_map (paragraph_targets es0 T) (enumerate_from k ps)),
     n + Z.of_nat (length (flat_map (paragraph_targets es0 T)
                                    (enumerate_from k ps)))).
Proof.
  induction ps as [|p ps IH]; intros k extra n Hx;
    cbn [enumerate_from fold_left flat_map].
  - simpl. rewrite !app_nil_r. f_equal. lia.
  - rewrite scan_paragraph_spec.
    rewrite (paragraph_targets_frame es0 extra T k k p Hx) by lia.
    rewrite <- app_assoc.
    rewrite IH.
    + rewrite map_app, length_app, <- !app_assoc. f_equal. lia.
    + intros e He. apply in_app_or in He as [He|He].
      * destruct (Hx e He) as (j & Hj & Hlt). exists j; split; [exact Hj|lia].
      * apply in_map_iff in He as (tg & <- & Htg).
        apply paragraph_targets_owner in Htg. simpl in Htg.
        exists k. split; [|lia]. unfold target_entity, occurrence_entity.
        simpl. now rewrite Htg.
Qed.
End BulkFacts.

Import BulkFacts.

(* ================================================================== *)
(** ** The targets of a bulk insert *)
(* ================================================================== *)

Module InsertionFacts.

Lemma strip_nil : strip [] = [].
Proof. reflexivity. Qed.

Lemma blank_guard entity_text :
  negb (truthy entity_text) || negb (truthy (strip entity_text)) = false
  <-> strip entity_text <> [].
Proof.
  destruct entity_text as [|c t].
  - rewrite strip_nil. simpl. split; [discriminate|congruence].
  - cbn [truthy negb orb]. destruct (strip (c :: t)); simpl.
    + split; [discriminate|congruence].
    + split; [discriminate|reflexivity].
Qed.

Lemma find_none_iff {A} (f : A -> bool) l :
  find f l = None <-> forall x, In x l -> f x = false.
Proof.
  split.
  - intros H x Hx. eapply find_none; eauto.
  - induction l as [|x l IH]; simpl; intros H; [reflexivity|].
    rewrite (H x (or_introl eq_refl)). apply IH. intros; apply H; now right.
Qed.

Lemma find_some_ex {A} (f : A -> bool) l :
  (exists x, In x l /\ f x = true) -> exists y, find f l = Some y.
Proof.
  intros (x & Hx & Hf). destruct (find f l) eqn:E; eauto.
  rewrite (find_none _ _ E x Hx) in Hf. discriminate.
Qed.

(** The bulk insert, once past its two guards. *)
Lemma add_entity_without_search_runs ui entity_text K R :
  let T := strip entity_text in
  let es0 := AppState.entities (app_state ui) in
  let targets := bulk_targets es0 T (AppState.paragraphs (app_state ui)) in
  T <> [] ->
  (forall e, In e es0 -> lower (text e) <> lower T) ->
  _add_entity_without_search ui entity_text K R
  = match targets with
    | [] => notify (set_entities ui (es0 ++ [general_entity T K R]))
                   (AddedGeneralEntity K T) info
    | _ :: _ => notify (set_entities ui (es0 ++ map (target_entity T K R) targets))
                       (AddedEntities (Z.of_nat (length targets)) K T) positive
    end.
Proof.
  intros T es0 targets HT Hdup. unfold _add_entity_without_search.
  rewrite (proj2 (blank_guard entity_text) HT).
  fold T. fold es0.
  replace (find (fun e => str_eqb (lower (text e)) (lower T)) es0) with (@None Entity.t).
  2:{ symmetry. apply find_none_iff. intros e He.
      apply not_true_is_false. intros H. apply str_eqb_eq in H.
      exact (Hdup e He H). }
  unfold enumerate.
  pose proof (fold_scan_paragraphs T K R es0
                (AppState.paragraphs (app_state ui)) 0 [] 0) as H.
  rewrite app_nil_r in H. rewrite H by (intros e []).
  fold (enumerate (AppState.paragraphs (app_state ui))).
  fold (bulk_targets es0 T (AppState.paragraphs (app_state ui))). fold targets.
  cbn [app]. destruct targets as [|tg tgs].
  { simpl. now rewrite app_nil_r. }
  replace (0 + Z.of_nat (length (tg :: tgs)) =? 0) with false
    by (symmetry; apply Z.eqb_neq; simpl length; lia).
  rewrite Z.add_0_l. reflexivity.
Qed.

Lemma enumerate_from_In {A} (l : list A) : forall k i x,
  In (i, x) (enumerate_from k l)
  <-> k <= i /\ nth_error l (Z.to_nat (i - k)) = Some x.
Proof.
  induction l as [|y l IH]; intros k i x; simpl.
  - split; [tauto|]. intros [_ H]. destruct (Z.to_nat (i - k)); discriminate.
  - rewrite IH. split.
    + intros [[= <- <-]|[Hk Hn]].
      * split; [lia|]. now rewrite Z.sub_diag.
      * split; [lia|].
        replace (Z.to_nat (i - k)) with (S (Z.to_nat (i - (k + 1)))) by lia.
        exact Hn.
    + intros [Hk Hn].
      destruct (Z.eq_dec i k) as [->|Hne].
      * rewrite Z.sub_diag in Hn. simpl in Hn. left. congruence.
      * right. split; [lia|].
        replace (Z.to_nat (i - k)) with (S (Z.to_nat (i - (k + 1)))) in Hn by lia.
        exact Hn.
Qed.

Lemma offsets_In t p : In p (offsets t) <-> 0 <= p <= len t.
Proof.
  unfold offsets, len. rewrite in_map_iff. split.
  - intros (n & <- & Hn). apply in_seq in Hn. lia.
  - intros H. exists (Z.to_nat p). split; [lia|]. apply in_seq. lia.
Qed.

Lemma occurs_cib_ci T txt p :
  0 <= p <= len (lower txt) ->
  occurs_cib T txt p = true <-> occurs_ci T txt p.
Proof.
  intros Hp. unfold occurs_cib, occurs_ci.
  rewrite startswith_firstn. split.
  - intros H.
    assert (Hl : (length (lower T) <= length (skipn (Z.to_nat p) (lower txt)))%nat).
    { rewrite <- H at 1. rewrite length_firstn. lia. }
    rewrite length_skipn in Hl. unfold len in *.
    split; [lia|]. split; [lia|].
    unfold slice, len. rewrite !clip_id by lia.
    replace (Z.to_nat (p + Z.of_nat (length (lower T)) - p))
      with (length (lower T)) by lia.
    exact H.
  - intros (_ & Hb & H). unfold slice in H. unfold len in *.
    rewrite !clip_id in H by lia.
    replace (Z.to_nat (p + Z.of_nat (length (lower T)) - p))
      with (length (lower T)) in H by lia.
    exact H.
Qed.

Lemma occurs_ci_range T txt p : occurs_ci T txt p -> 0 <= p <= len (lower txt).
Proof. unfold occurs_ci. pose proof (len_nonneg (lower T)). lia. Qed.

(** The targets are exactly the occurrences not already taken. *)
Lemma bulk_targets_iff es T ps i para p :
  In (i, para, p) (bulk_targets es T ps)
  <-> 0 <= i /\ nth_error ps (Z.to_nat i) = Some para
      /\ occurs_ci T (Paragraph.text para) p /\ ~ taken es i p.
Proof.
  unfold bulk_targets. rewrite in_flat_map. split.
  - intros ([j q] & Hin & Htg).
    unfold paragraph_targets in Htg. cbn [fst snd] in Htg.
    apply in_map_iff in Htg as (p' & [= -> -> ->] & Hf).
    apply filter_In in Hf as [Ho Hf].
    apply andb_true_iff in Hf as [Hc Ht].
    apply offsets_In in Ho.
    apply enumerate_from_In in Hin as [Hi Hn]. rewrite Z.sub_0_r in Hn.
    split; [exact Hi|]. split; [exact Hn|].
    split; [now apply occurs_cib_ci|].
    intros Htk. apply takenb_taken in Htk. rewrite Htk in Ht. discriminate.
  - intros (Hi & Hn & Hc & Ht).
    exists (i, para). split.
    + apply enumerate_from_In. rewrite Z.sub_0_r. auto.
    + unfold paragraph_targets. cbn [fst snd]. apply in_map_iff.
      exists p. split; [reflexivity|]. apply filter_In.
      pose proof (occurs_ci_range _ _ _ Hc) as Hr.
      split; [now apply offsets_In|].
      apply andb_true_iff. split; [now apply occurs_cib_ci|].
      apply negb_true_iff, not_true_is_false.
      intros Htk. apply takenb_taken in Htk. contradiction.
Qed.
End InsertionFacts.

Import InsertionFacts.

(* ================================================================== *)
(** ** The single insert from a search result *)
(* ================================================================== *)

Module SingleFacts.

Lemma str_find_first t sub p :
  str_find t sub 0 = p -> p <> -1 ->
  0 <= p <= len t
  /\ startswith (skipn (Z.to_nat p) t) sub = true
  /\ forall q, 0 <= q < p -> startswith (skipn (Z.to_nat q) t) sub = false.
Proof.
  intros Hf Hne. change 0 with (Z.of_nat 0) in Hf.
  rewrite str_find_from in Hf by lia. simpl in Hf.
  destruct (find_at_found sub t 0 p Hf Hne) as (k & -> & Hk & Hs & Hlt).
  unfold len. rewrite Z.add_0_l, Nat2Z.id.
  split; [lia|]. split; [exact Hs|].
  intros q Hq. apply Hlt. lia.
Qed.

Lemma index_enumerate {A} (l : list A) i x :
  In (i, x) (enumerate l) -> index l i = Some x.
Proof.
  intros H. apply enumerate_from_In in H as [Hi Hn]. rewrite Z.sub_0_r in Hn.
  assert (Hlt : (Z.to_nat i < length l)%nat)
    by (apply nth_error_Some; congruence).
  unfold index.
  replace ((0 <=? i) && (i <? Z.of_nat (length l))) with true; [exact Hn|].
  symmetry. apply andb_true_iff. split; [apply Z.leb_le|apply Z.ltb_lt]; lia.
Qed.

(** What a search result stands for. *)
Lemma search_text_In ui input m :
  In m (search_text ui input) ->
  strip input <> []
  /\ exists para,
       In (match_paragraph_id m, para)
          (enumerate (AppState.paragraphs (app_state ui)))
       /\ str_find (lower (Paragraph.text para)) (lower (strip input)) 0 <> -1
       /\ match_start_pos m
          = str_find (lower (Paragraph.text para)) (lower (strip input)) 0.
Proof.
  unfold search_text. destruct (strip input) as [|c T] eqn:E; simpl truthy;
    cbn [negb]; [intros []|].
  intros H. split; [discriminate|].
  apply in_flat_map in H as ([i para] & Hin & Hm).
  destruct (contains (lower (Paragraph.text para)) (lower (c :: T))) eqn:C;
    [|destruct Hm].
  destruct Hm as [<-|[]]. cbn [match_paragraph_id match_start_pos].
  exists para. split; [exact Hin|]. split; [|reflexivity].
  unfold contains in C. apply negb_true_iff, Z.eqb_neq in C. exact C.
Qed.

Lemma has_entity_find es i :
  has_entity es i <-> exists e, find (in_paragraph i) es = Some e.
Proof.
  split.
  - intros (e & He & Hi). apply find_some_ex. exists e. split; [exact He|].
    unfold in_paragraph. rewrite Hi. apply Z.eqb_refl.
  - intros (e & Hf). apply find_some in Hf as [He Hi]. exists e.
    split; [exact He|]. unfold in_paragraph in Hi.
    destruct (paragraph_id e) as [j|]; [|discriminate].
    apply Z.eqb_eq in Hi. now subst.
Qed.

(** The single insert on a paragraph in which the text is found. *)
Lemma create_entity_from_match_found ui T K R m para :
  index (AppState.paragraphs (app_state ui)) (match_paragraph_id m) = Some para ->
  str_find (lower (Paragraph.text para)) (lower T) 0 <> -1 ->
  let pid := match_paragraph_id m in
  let ptext := Paragraph.text para in
  let p := str_find (lower ptext) (lower T) 0 in
  let es0 := AppState.entities (app_state ui) in
  (has_entity es0 pid ->
   _create_entity_from_match ui T K R m
   = Returns (notify ui (EntityExistsInParagraph (slice ptext p (p + len T))
                                                 (pid + 1)) warning))
  /\ (~ has_entity es0 pid ->
      _create_entity_from_match ui T K R m
      = Returns (notify (set_entities ui (es0 ++ [match_entity T K R pid ptext p]))
                        (AddedEntityInParagraph K (slice ptext p (p + len T))
                                                (pid + 1)) positive)).
Proof.
  intros Hidx Hfound pid ptext p es0.
  unfold _create_entity_from_match. rewrite Hidx.
  fold ptext. fold p. fold pid. fold es0.
  replace (p =? -1) with false by (symmetry; apply Z.eqb_neq; exact Hfound).
  split; intros H.
  - apply has_entity_find in H as (e & ->). reflexivity.
  - destruct (find (in_paragraph pid) es0) as [e|] eqn:E.
    + exfalso. apply H. apply has_entity_find. eauto.
    + reflexivity.
Qed.
End SingleFacts.

Import SingleFacts.

(* ================================================================== *)
(** ** The order of the targets *)
(* ================================================================== *)

Module OrderFacts.

Lemma ForallOrdPairs_app {A} (R : A -> A -> Prop) l1 l2 :
  ForallOrdPairs R l1 -> ForallOrdPairs R l2 ->
  (forall a b, In a l1 -> In b l2 -> R a b) ->
  ForallOrdPairs R (l1 ++ l2).
Proof.
  induction 1 as [|x l1 Hx Hl IH]; intros H2 H12; simpl; [exact H2|].
  constructor.
  - apply Forall_app. split; [exact Hx|].
    apply Forall_forall. intros b Hb. apply H12; [now left|exact Hb].
  - apply IH; [exact H2|]. intros a b Ha Hb. apply H12; [now right|exact Hb].
Qed.

Lemma ForallOrdPairs_map {A B} (f : A -> B) (R : B -> B -> Prop) l :
  ForallOrdPairs (fun a b => R (f a) (f b)) l -> ForallOrdPairs R (map f l).
Proof.
  induction 1 as [|x l Hx Hl IH]; simpl; constructor; [|exact IH].
  apply Forall_map. exact Hx.
Qed.

Lemma offsets_ordered t : ForallOrdPairs Z.lt (offsets t).
Proof.
  unfold offsets. generalize (S (length t)) as n. generalize 0%nat as s.
  intros s n; revert s. induction n as [|n IH]; intros s; simpl; constructor.
  - apply Forall_forall. intros q Hq.
    apply in_map_iff in Hq as (m & <- & Hm). apply in_seq in Hm. lia.
  - apply IH.
Qed.

Lemma paragraph_targets_ordered es T ip :
  ForallOrdPairs target_before (paragraph_targets es T ip).
Proof.
  unfold paragraph_targets. apply ForallOrdPairs_map.
  apply ForallOrdPairs_filter_any.
  eapply ForallOrdPairs_impl; [|apply offsets_ordered].
  intros a b _ _ H. right. simpl. auto.
Qed.

Lemma enumerate_from_ge {A} (l : list A) k i x :
  In (i, x) (enumerate_from k l) -> k <= i.
Proof. intros H. now apply enumerate_from_In in H. Qed.

Lemma bulk_targets_ordered es T ps :
  ForallOrdPairs target_before (bulk_targets es T ps).
Proof.
  unfold bulk_targets, enumerate. generalize 0 as k.
  induction ps as [|p ps IH]; intros k; simpl; [constructor|].
  apply ForallOrdPairs_app.
  - apply paragraph_targets_ordered.
  - apply IH.
  - intros a b Ha Hb. left.
    apply paragraph_targets_owner in Ha. simpl in Ha.
    apply in_flat_map in Hb as ([j q] & Hj & Hb).
    apply paragraph_targets_owner in Hb. simpl in Hb.
    apply enumerate_from_ge in Hj. lia.
Qed.
End OrderFacts.

Import OrderFacts.

(* ================================================================== *)
(** ** Offset validity of created entities *)
(* ================================================================== *)

Module ValidityFacts.

Lemma firstn_own_length {A} n (l : list A) :
  firstn (length (firstn n l)) l = firstn n l.
Proof.
  rewrite length_firstn.
  destruct (Nat.le_ge_cases n (length l)) as [H|H].
  - now rewrite Nat.min_l.
  - rewrite Nat.min_r by assumption.
    now rewrite firstn_all, firstn_all2.
Qed.

Lemma slice_self t p q :
  0 <= p <= len t ->
  0 <= p <= p + len (slice t p q) /\ p + len (slice t p q) <= len t
  /\ slice t p (p + len (slice t p q)) = slice t p q.
Proof.
  intros Hp. pose proof (len_nonneg (slice t p q)) as Hn.
  assert (Hl : len (slice t p q) <= len t - p).
  { unfold slice, len in *. rewrite length_firstn, length_skipn.
    rewrite (clip_id _ p) by lia. lia. }
  split; [lia|]. split; [lia|].
  unfold slice at 1. rewrite !clip_id by lia.
  replace (Z.to_nat (p + len (slice t p q) - p))
    with (length (slice t p q)) by (unfold len; lia).
  unfold slice. rewrite (clip_id _ p) by lia.
  apply firstn_own_length.
Qed.

(** A bulk-insert entity is valid against a paragraph whose lower-cased
    text is as long as the text itself. *)
Lemma target_entity_valid es T K R ps tg :
  In tg (bulk_targets es T ps) ->
  len (lower (Paragraph.text (snd (fst tg)))) = len (Paragraph.text (snd (fst tg))) ->
  offset_valid (Paragraph.text (snd (fst tg))) (target_entity T K R tg).
Proof.
  destruct tg as [[i para] p]. intros Hin Hlen. cbn [fst snd] in *.
  apply bulk_targets_iff in Hin as (_ & _ & Hocc & _).
  apply occurs_ci_range in Hocc. rewrite Hlen in Hocc.
  unfold offset_valid, target_entity, occurrence_entity. cbn.
  destruct (slice_self (Paragraph.text para) p (p + len T) Hocc)
    as (H1 & H2 & H3).
  repeat split; try lia. exact H3.
Qed.

(** A regex-fallback entity is valid whenever the engine returns spans
    inside the searched text. *)
Lemma regex_entity_valid finditer txt e :
  (forall pattern m, In m (finditer pattern txt) ->
                     0 <= m_start m <= m_end m /\ m_end m <= len txt) ->
  In e (_extract_entities_regex finditer txt) ->
  offset_valid txt e.
Proof.
  intros Hspan He. unfold _extract_entities_regex in He.
  apply in_flat_map in He as ([ty pattern] & _ & He).
  apply in_flat_map in He as (m & Hm & He).
  unfold entities_of_match in He. cbn [fst snd] in *.
  destruct (_ && _) in He; [destruct He|].
  destruct He as [<-|[]].
  specialize (Hspan pattern m Hm).
  unfold offset_valid, Entity.new, group. cbn. repeat split; lia || reflexivity.
Qed.
End ValidityFacts.

Import ValidityFacts.

(* ================================================================== *)
(** ** The segmenter *)
(* ================================================================== *)

Module SegmenterFacts.

Lemma lstrip_head t c r : lstrip t = c :: r -> isspace c = false.
Proof.
  induction t as [|x t IH]; simpl; [discriminate|].
  destruct (isspace x) eqn:E; [exact IH|]. now intros [= <- _].
Qed.

Lemma lstrip_blank t : lstrip t = [] <-> blank t.
Proof.
  unfold blank. induction t as [|x t IH]; simpl.
  - split; auto.
  - destruct (isspace x) eqn:E.
    + rewrite IH. split; [now constructor|now inversion 1].
    + split; [discriminate|]. inversion 1; congruence.
Qed.

Lemma strip_blank t : strip t = [] <-> blank t.
Proof.
  unfold strip, rstrip. split.
  - intros H. apply (f_equal (@rev char)) in H. rewrite rev_involutive in H.
    simpl in H. apply lstrip_blank in H. unfold blank in H.
    apply Forall_rev in H. rewrite rev_involutive in H.
    apply lstrip_blank.
    destruct (lstrip t) as [|c r] eqn:E; [reflexivity|].
    apply lstrip_head in E. inversion H; congruence.
  - intros H. apply lstrip_blank in H. now rewrite H.
Qed.

Lemma stripped_units_nil units :
  AppState.stripped_units units = [] <-> Forall blank units.
Proof.
  unfold AppState.stripped_units. induction units as [|u units IH]; simpl.
  - split; auto.
  - destruct (strip u) as [|c r] eqn:E; simpl.
    + rewrite IH. apply strip_blank in E.
      split; [now constructor|now inversion 1].
    + split; [discriminate|]. inversion 1 as [|? ? Hu _]; subst.
      apply strip_blank in Hu. congruence.
Qed.

Section Split.
Variable P : char -> Prop.
Variable sep : str.

(** Every piece of a split is made of code points of the text. *)
Lemma split_go_pieces : forall txt cur skip,
  Forall P txt -> Forall P cur -> Forall (Forall P) (split_go sep txt cur skip).
Proof.
  intros txt. induction txt as [|c txt IH]; intros cur skip Ht Hc;
    cbn [split_go].
  - constructor; [now apply Forall_rev|constructor].
  - inversion Ht; subst. destruct skip as [|k]; [|now apply IH].
    destruct (startswith (c :: txt) sep).
    + constructor; [now apply Forall_rev|]. apply IH; auto.
    + apply IH; auto.
Qed.

(** The text is made of its pieces and of separators. *)
Lemma split_go_covers : sep <> [] -> Forall P sep -> forall txt cur skip,
  Forall P (firstn skip txt) ->
  Forall (Forall P) (split_go sep txt cur skip) ->
  Forall P txt /\ Forall P cur.
Proof.
  intros Hne Hsep txt. induction txt as [|c txt IH]; intros cur skip Hskip H.
  - simpl in H. inversion H as [|? ? Hc _]; subst.
    split; [constructor|]. apply Forall_rev in Hc.
    now rewrite rev_involutive in Hc.
  - cbn [split_go] in H. destruct skip as [|k].
    + destruct (startswith (c :: txt) sep) eqn:E.
      * inversion H as [|? ? Hc H']; subst.
        apply startswith_firstn in E.
        assert (Hf : Forall P (firstn (length sep) (c :: txt)))
          by (rewrite E; exact Hsep).
        destruct sep as [|s sep']; [congruence|].
        simpl in Hf. inversion Hf; subst. simpl in H'.
        destruct (IH [] (length sep') ltac:(assumption) H') as [Ht _].
        split; [now constructor|].
        apply Forall_rev in Hc. now rewrite rev_involutive in Hc.
      * destruct (IH (c :: cur) 0%nat ltac:(constructor) H) as [Ht Hc].
        inversion Hc; subst. split; [now constructor|assumption].
    + simpl in Hskip. inversion Hskip; subst.
      destruct (IH cur k ltac:(assumption) H) as [Ht Hc].
      split; [now constructor|assumption].
Qed.
End Split.



Lemma blank_split content sep :
  blank content -> Forall blank (str_split content sep).
Proof.
  intros H. apply split_go_pieces; [exact H|constructor].
Qed.

Lemma split_blank content sep :
  sep <> [] ->
  blank sep -> Forall blank (str_split content sep) -> blank content.
Proof.
  intros Hne Hs H. unfold blank.
  now destruct (split_go_covers _ sep Hne Hs content [] 0%nat
                                ltac:(constructor) H).
Qed.

Lemma blank_by_line_breaks content :
  blank content -> AppState.by_line_breaks content = [].
Proof.
  intros H. apply stripped_units_nil. now apply blank_split.
Qed.


Lemma by_blank_lines_nil content :
  AppState.by_blank_lines content = [] -> blank content.
Proof.
  intros H. apply stripped_units_nil in H.
  apply (split_blank content [AppState.LF; AppState.LF]);
    [discriminate|repeat constructor|exact H].
Qed.

Lemma by_line_breaks_nil content :
  AppState.by_line_breaks content = [] -> blank content.
Proof.
  intros H. apply stripped_units_nil in H.
  apply (split_blank content [AppState.LF]);
    [discriminate|repeat constructor|exact H].
Qed.
End SegmenterFacts.

Import SegmenterFacts.

(* ================================================================== *)
(** ** What the manual insertion paths do on every input *)
(* ================================================================== *)

Module OccurrenceFacts.
Import EntitiesSection.

(** A bulk insert of the text [T] (the search text once stripped, not
    blank and not the text of an existing entity) appends one entity per
    target, in order; the targets are exactly the pairs of a paragraph
    [i] and an offset [p] at which the lower-cased [T] is found in the
    lower-cased copy of paragraph [i] and which no existing entity has;
    matches that overlap each other are all targets.  The offset is then
    used in the paragraph itself.  When there is no target, one entity
    without a paragraph is appended instead. *)
Lemma bulk_insert_lowered_occurrences :
  forall ui entity_text K R,
    let T := strip entity_text in
    let es0 := AppState.entities (app_state ui) in
    let ps := AppState.paragraphs (app_state ui) in
    let targets := bulk_targets es0 T ps in
    T <> [] ->
    (forall e, In e es0 -> lower (text e) <> lower T) ->
    AppState.entities
      (app_state (_add_entity_without_search ui entity_text K R))
    = es0 ++ match targets with
             | [] => [general_entity T K R]
             | _ :: _ => map (target_entity T K R) targets
             end
    /\ (forall i para p,
          In (i, para, p) targets
          <-> 0 <= i /\ nth_error ps (Z.to_nat i) = Some para
              /\ occurs_ci T (Paragraph.text para) p /\ ~ taken es0 i p)
    /\ (forall tg,
          paragraph_id (target_entity T K R tg) = Some (fst (fst tg))
          /\ start_pos (target_entity T K R tg) = snd tg)
    /\ ForallOrdPairs target_before targets.
Proof.
  intros ui entity_text K R T es0 ps targets HT Hdup.
  split; [|split; [|split]].
  - rewrite (add_entity_without_search_runs ui entity_text K R HT Hdup).
    fold T es0 ps targets. destruct targets; reflexivity.
  - intros i para p. apply bulk_targets_iff.
  - intros tg. split; reflexivity.
  - apply bulk_targets_ordered.
Qed.

(** For a search result [m] of the search box: the paragraph of [m]
    exists, and the offset of [m] is the first offset at which the
    lower-cased search text is found in the lower-cased copy of that
    paragraph; if the paragraph owns any entity the insert is rejected
    with a warning and the collection is unchanged; otherwise one entity,
    cut out of the paragraph itself at that offset, is appended. *)
Lemma single_insert_lowered_occurrence :
  forall ui input K R m,
    let T := strip input in
    let pid := match_paragraph_id m in
    let p := match_start_pos m in
    let es0 := AppState.entities (app_state ui) in
    In m (search_text ui input) ->
    exists para ui',
      index (AppState.paragraphs (app_state ui)) pid = Some para
      /\ occurs_ci T (Paragraph.text para) p
      /\ (forall q, occurs_ci T (Paragraph.text para) q -> p <= q)
      /\ _create_entity_from_match ui T K R m = Returns ui'
      /\ AppState.paragraphs (app_state ui')
         = AppState.paragraphs (app_state ui)
      /\ (has_entity es0 pid -> AppState.entities (app_state ui') = es0)
      /\ (~ has_entity es0 pid ->
          AppState.entities (app_state ui')
          = es0 ++ [match_entity T K R pid (Paragraph.text para) p]).
Proof.
  intros ui input K R m T pid p es0 Hm.
  destruct (search_text_In ui input m Hm) as (_ & para & Hin & Hf & Hs).
  fold T in Hf, Hs. subst p.
  pose proof (index_enumerate _ _ _ Hin) as Hidx.
  destruct (str_find_first _ _ _ (eq_sym Hs) ltac:(rewrite Hs; exact Hf))
    as (Hr & Hocc & Hfirst).
  assert (Hleast : forall q, occurs_ci T (Paragraph.text para) q ->
                             match_start_pos m <= q).
  { intros q Hq.
    destruct (Z_lt_le_dec q (match_start_pos m)) as [Hlt|]; [|assumption].
    pose proof (occurs_ci_range _ _ _ Hq) as Hqr.
    apply occurs_cib_ci in Hq; [|exact Hqr].
    unfold occurs_cib in Hq. rewrite Hfirst in Hq by lia. discriminate. }
  pose proof (create_entity_from_match_found ui T K R m para Hidx Hf)
    as [Hhas Hnew].
  rewrite <- Hs in Hhas, Hnew. fold pid es0 in Hhas, Hnew.
  assert (Hdec : has_entity es0 pid \/ ~ has_entity es0 pid).
  { destruct (find (in_paragraph pid) es0) as [e|] eqn:E.
    - left. apply has_entity_find. eauto.
    - right. intros H. apply has_entity_find in H as [e He]. congruence. }
  destruct Hdec as [Hyes | Hno].
  - eexists para, _. split; [exact Hidx|]. split; [now apply occurs_cib_ci|].
    split; [exact Hleast|]. split; [exact (Hhas Hyes)|].
    destruct ui as [[orig cur ps es] log].
    split; [reflexivity|]. split; [reflexivity | contradiction].
  - eexists para, _. split; [exact Hidx|]. split; [now apply occurs_cib_ci|].
    split; [exact Hleast|]. split; [exact (Hnew Hno)|].
    destruct ui as [[orig cur ps es] log].
    split; [reflexivity|]. split; [contradiction | reflexivity].
Qed.
End OccurrenceFacts.

(* ================================================================== *)
(** * The claims *)
(* ================================================================== *)

(** C1, counterexample.  The two entities below satisfy the offset
    validity of the data model and do not overlap: the first is the empty
    span [3,3), the second the span [3,5) of the digits.  Both start at 3,
    so the stable sort keeps the order of the list: the empty span is
    spliced first, and the splice of [3,5) then cuts into its replacement.
    The output keeps the digits 3 and 4 and loses the replacement of the
    empty span; it is not the text rebuilt from the original offsets, and
    it changes when the two entities are listed in the other order. *)
Lemma anonymize_text_empty_span_counterexample :
  Forall (offset_valid digits) [empty_at_3; span_3_5]
  /\ ForallOrdPairs non_overlapping [empty_at_3; span_3_5]
  /\ anonymize_text digits [empty_at_3; span_3_5] = lit "012X3456"
  /\ rebuild digits [empty_at_3; span_3_5] = lit "012ABX56"
  /\ anonymize_text digits [empty_at_3; span_3_5]
     <> rebuild digits [empty_at_3; span_3_5]
  /\ anonymize_text digits [span_3_5; empty_at_3] = lit "012ABX56".
Proof.
  split_all; try by_computation.
  - repeat constructor; vm_compute; discriminate.
  - repeat constructor; vm_compute; discriminate.
  - vm_compute. discriminate.
Qed.

(** C1, amended.  For every text and every list of entities whose marked
    entities have valid offsets, do not overlap pairwise, and share a start
    position only when both are empty: [anonymize_text] processes the
    marked entities in descending [start_pos] order, and its result is the
    text rebuilt from the original offsets, that is the untouched stretches
    of the original text with each replacement in the place of its span,
    from left to right, whatever the lengths of the replacements.  In
    particular the two results on the text of Alice and Bob. *)
Theorem anonymize_text_right_to_left :
  (forall txt entities,
     let marked := filter anonymized entities in
     let processed := sorted_desc start_pos marked in
     let asc := rev processed in
     Forall (valid_span txt) marked ->
     ForallOrdPairs separated marked ->
     (anonymize_text txt entities = fold_left splice processed txt
      /\ ForallOrdPairs (key_desc start_pos) processed)
     /\ Permutation asc marked
     /\ ForallOrdPairs left_to_right asc
     /\ anonymize_text txt entities = rebuild txt asc)
  /\ anonymize_text alice_met_bob [alice; bob] = lit "[PERSON] met [PERSON]"
  /\ anonymize_text alice_met_bob [alice_x; bob_z] = lit "X met ZZZZZZZZ".
Proof.
  split; [|split; vm_compute; reflexivity].
  intros txt entities marked processed asc Hv Hs. split; [|split; [|split]].
  - split; [apply anonymize_text_marked|apply sorted_desc_ordered].
  - unfold asc, processed. rewrite <- Permutation_rev. apply sorted_desc_perm.
  - unfold asc, processed.
    apply (ForallOrdPairs_rev (fun a b => left_to_right b a)).
    now apply (processing_order txt).
  - now apply anonymize_text_rebuild.
Qed.

(** The amended C1 at the entities of Alice and Bob with the replacements
    of different lengths. *)
Lemma anonymize_text_right_to_left_witness :
  Forall (valid_span alice_met_bob) (filter anonymized [alice_x; bob_z])
  /\ ForallOrdPairs separated (filter anonymized [alice_x; bob_z])
  /\ anonymize_text alice_met_bob [alice_x; bob_z]
     = rebuild alice_met_bob [alice_x; bob_z].
Proof.
  assert (Hv : Forall (valid_span alice_met_bob)
                      (filter anonymized [alice_x; bob_z]))
    by (repeat constructor; vm_compute; congruence).
  assert (Hs : ForallOrdPairs separated (filter anonymized [alice_x; bob_z]))
    by (repeat constructor; vm_compute; congruence).
  split; [exact Hv|]. split; [exact Hs|].
  exact (proj2 (proj2 (proj2 (proj1 anonymize_text_right_to_left
                                    alice_met_bob [alice_x; bob_z] Hv Hs)))).
Defined.

(** C2, counterexample.  An entity [1,10) of the three-letter text is out
    of bounds, and [anonymize_text] returns the output of the entity
    [1,3): the end offset is treated as the length of the text.  An entity
    that starts at -1 is spliced from offset 2.  Applying the anonymization
    to the paragraph rewrites it and signals a success. *)
Lemma anonymize_text_clamps_counterexample :
  out_of_bounds abc beyond_end
  /\ anonymize_text abc [beyond_end] = lit "aX"
  /\ anonymize_text abc [beyond_end]
     = anonymize_text abc [with_span beyond_end 1 3]
  /\ out_of_bounds abc before_start
  /\ anonymize_text abc [before_start] = lit "abX"
  /\ anonymize_text abc [before_start]
     = anonymize_text abc [with_span before_start 2 3]
  /\ paragraph_texts (_apply_anonymization ui_abc) = [lit "aX"]
  /\ notifications (_apply_anonymization ui_abc)
     = [(ApplyingAnonymization 1, info); (AnonymizationComplete 1, positive)].
Proof. split_all; try by_computation; vm_compute; auto. Qed.

(** C2, amended.  [anonymize_text] checks no bound and fails on none: each
    splice cuts the working text at the offsets adjusted as slicing adjusts
    them, so an offset at or beyond the end of the working text acts as its
    length, and a negative offset counts back from the end and is floored
    at 0.  The output is the output for the entities with their offsets so
    adjusted. *)
Theorem anonymize_text_never_fails_on_bounds :
  forall txt entities,
    anonymize_text txt entities
    = fold_left (fun working e => anonymize_step working (adjusted working e))
                (sorted_desc start_pos entities) txt
    /\ (forall working e,
          0 <= start_pos (adjusted working e) <= len working
          /\ 0 <= end_pos (adjusted working e) <= len working
          /\ (len working <= end_pos e ->
              end_pos (adjusted working e) = len working)
          /\ (start_pos e < 0 ->
              start_pos (adjusted working e)
              = Z.max 0 (start_pos e + len working)))
    /\ (forall e, anonymized e = true ->
          anonymize_text txt [e]
          = firstn (Z.to_nat (start_pos (adjusted txt e))) txt
              ++ replacement_of e
              ++ skipn (Z.to_nat (end_pos (adjusted txt e))) txt).
Proof.
  intros txt entities. split; [|split].
  - unfold anonymize_text.
    generalize (sorted_desc start_pos entities) as l. intros l; revert txt.
    induction l as [|e l IH]; intros txt; simpl; [reflexivity|].
    rewrite anonymize_step_adjusted. apply IH.
  - intros working e; simpl. pose proof (len_nonneg working) as Hn.
    split; [now apply clip_range|]. split; [now apply clip_range|].
    split.
    + intros H. apply clip_beyond. lia.
    + intros H. unfold clip.
      now replace (start_pos e <? 0) with true by (symmetry; apply Z.ltb_lt; lia).
  - intros e He. unfold anonymize_text; simpl. unfold anonymize_step.
    rewrite He. reflexivity.
Qed.

(** The amended C2 at the entity [1,10) of the three-letter text. *)
Lemma anonymize_text_never_fails_on_bounds_witness :
  anonymized beyond_end = true
  /\ len abc <= end_pos beyond_end
  /\ end_pos (adjusted abc beyond_end) = len abc
  /\ anonymize_text abc [beyond_end] = lit "a" ++ lit "X" ++ [].
Proof.
  destruct (anonymize_text_never_fails_on_bounds abc [beyond_end])
    as (_ & Hadj & Hone).
  split; [reflexivity|]. split; [vm_compute; discriminate|].
  split.
  - apply (Hadj abc beyond_end). vm_compute; discriminate.
  - exact (Hone beyond_end eq_refl).
Defined.

(** C3, the code at the failing input.  The paragraph is two capital I
    with dot above (U+0130) followed by the letter a; its lower-cased copy
    is five code points long, and the letter a is found there at offset 4.
    The bulk insert of the letter a slices the paragraph itself at that
    offset: the entity it creates has the empty text and the span [4,4) in
    a paragraph of length 3, which breaks [end_pos <= len(text)]. *)
Theorem bulk_insert_offset_past_end :
  lower dotted_text = [105; 775; 105; 775; 97]%N
  /\ AppState.entities
       (app_state (_add_entity_without_search ui_dotted (lit "a")
                                              (lit "PERSON") []))
     = [dotted_entity]
  /\ len dotted_text = 3
  /\ end_pos dotted_entity = 4
  /\ ~ offset_valid dotted_text dotted_entity.
Proof.
  split; [reflexivity|]. split; [vm_compute; reflexivity|].
  split; [reflexivity|]. split; [reflexivity|].
  unfold offset_valid. intros (H1 & H2 & _). vm_compute in H2. congruence.
Qed.

(** C4, the code at the failing input.  The paragraph begins with a
    capital I with dot above (U+0130) and has the name Ali at offset 12,
    the one offset at which the search text [ali] occurs in it up to
    letter case.  The lower-cased copy of the paragraph is one code point
    longer, and [ali] is found there at offset 13.  The bulk insert cuts
    the paragraph itself at that offset: the one entity it creates is [li]
    at [13,15), and no entity is created at offset 12. *)
Theorem bulk_insert_shifted_occurrence :
  occurrences_in_text (lit "ali") istanbul = [12]
  /\ slice istanbul 12 15 = lit "Ali"
  /\ len istanbul = 15
  /\ len (lower istanbul) = 16
  /\ str_find (lower istanbul) (lower (lit "ali")) 0 = 13
  /\ AppState.entities
       (app_state (_add_entity_without_search ui_istanbul (lit "ali")
                                              (lit "PERSON") []))
     = [Entity.mk (lit "li") (lit "PERSON") 13 15 false (lit "[PERSON]")
                  (Some 0) (Some false)].
Proof. split_all; by_computation. Qed.




(** C6.  With no entity marked, [anonymize_text] returns the text
    unchanged, and so it does on the empty list; in general the output
    depends on the marked entities alone: the unmarked ones can be removed
    from the list without changing it. *)
Theorem anonymize_text_unmarked :
  forall txt entities,
    (filter anonymized entities = [] -> anonymize_text txt entities = txt)
    /\ anonymize_text txt entities
       = anonymize_text txt (filter anonymized entities)
    /\ anonymize_text txt [] = txt.
Proof.
  intros txt entities. split; [|split].
  - intros H. rewrite anonymize_text_marked, H. reflexivity.
  - rewrite !anonymize_text_marked.
    replace (filter anonymized (filter anonymized entities))
      with (filter anonymized entities); [reflexivity|].
    induction entities as [|e l IH]; simpl; [reflexivity|].
    destruct (anonymized e) eqn:E; simpl; rewrite ?E; congruence.
  - reflexivity.
Qed.

(** C6 at one unmarked entity. *)
Lemma anonymize_text_unmarked_witness :
  filter anonymized [alice_unmarked] = []
  /\ anonymize_text alice_met_bob [alice_unmarked] = alice_met_bob.
Proof.
  split; [reflexivity|].
  apply (proj1 (anonymize_text_unmarked alice_met_bob [alice_unmarked])).
  reflexivity.
Defined.



(** C8.  When, after the lazy initialisation, the service holds no
    pipeline, or its pipeline raises on the text, [extract_entities]
    returns the entities of the regex fallback on the same text; and
    [extract_entities] never raises. *)
Theorem extract_entities_degrades :
  forall finditer stanza st txt,
    (recognizer_fails (initialized stanza st) txt ->
     extract_entities finditer stanza st txt
     = Returns (initialized stanza st, _extract_entities_regex finditer txt))
    /\ (exists st' entities,
          extract_entities finditer stanza st txt = Returns (st', entities)).
Proof.
  intros finditer stanza st txt. rewrite extract_entities_initialized.
  unfold recognizer_fails. split.
  - destruct (nlp_pipeline (initialized stanza st)) as [p|]; [|reflexivity].
    intros [exc ->]. reflexivity.
  - destruct (nlp_pipeline (initialized stanza st)) as [p|]; [|eauto].
    destruct (p txt); simpl; eauto.
Qed.

(** C8 where no model can be loaded, and where the pipeline raises. *)
Lemma extract_entities_degrades_witness :
  recognizer_fails (initialized stanza_missing (init None false)) bob_paid
  /\ recognizer_fails (initialized stanza_broken (init None false)) bob_paid
  /\ extract_entities recorded_finditer stanza_missing (init None false) bob_paid
     = Returns (initialized stanza_missing (init None false),
                [Entity.new (lit "Bob paid") (lit "PERSON") 0 8;
                 Entity.new (lit "$5") (lit "MONEY") 9 11])
  /\ extract_entities recorded_finditer stanza_broken (init None false) bob_paid
     = Returns (initialized stanza_broken (init None false),
                _extract_entities_regex recorded_finditer bob_paid).
Proof.
  assert (H1 : recognizer_fails (initialized stanza_missing (init None false)) bob_paid)
    by exact I.
  assert (H2 : recognizer_fails (initialized stanza_broken (init None false)) bob_paid)
    by (exists (lit "RuntimeError"); reflexivity).
  split; [exact H1|]. split; [exact H2|]. split.
  - apply (proj1 (extract_entities_degrades recorded_finditer stanza_missing
                    (init None false) bob_paid) H1).
  - apply (proj1 (extract_entities_degrades recorded_finditer stanza_broken
                    (init None false) bob_paid) H2).
Defined.

(** C9, the code at the failing input.  In the paragraph that begins with
    a capital I with dot above and has the name Ali at offset 12, the
    search for [ali] returns one result, at offset 13 of the lower-cased
    copy.  The paragraph owns no entity, so the insert is not rejected;
    the entity it appends is [li] at [13,15), not [Ali] at offset 12,
    the first offset at which the text occurs in the paragraph. *)
Theorem single_insert_shifted_occurrence :
  occurrences_in_text (lit "ali") istanbul = [12]
  /\ slice istanbul 12 15 = lit "Ali"
  /\ search_text ui_istanbul (lit "ali") = [ali_match]
  /\ match_start_pos ali_match = 13
  /\ AppState.entities (app_state ui_istanbul) = []
  /\ exists ui',
       _create_entity_from_match ui_istanbul (lit "ali") (lit "PERSON") []
                                 ali_match
       = Returns ui'
       /\ AppState.entities (app_state ui')
          = [Entity.mk (lit "li") (lit "PERSON") 13 15 false (lit "[PERSON]")
                       (Some 0) (Some false)].
Proof.
  do 5 (split; [by_computation|]).
  eexists. split; by_computation.
Qed.

(** C10.  An entity without a paragraph is in the replacement set of no
    paragraph, also when it is marked: the paragraph texts after
    [_apply_anonymization] are the same with and without it, and with it
    alone they are the texts before.  The entity created for a text found
    in no paragraph is such an entity. *)
Theorem ownerless_entity_changes_no_paragraph :
  (forall ui es1 es2 g,
     paragraph_id g = None ->
     (forall p : Paragraph.t,
         ~ In g (filter (in_paragraph (Paragraph.id p))
                        (filter anonymized (es1 ++ g :: es2))))
     /\ paragraph_texts
          (_apply_anonymization (set_entities ui (es1 ++ g :: es2)))
        = paragraph_texts
            (_apply_anonymization (set_entities ui (es1 ++ es2)))
     /\ paragraph_texts (_apply_anonymization (set_entities ui [g]))
        = paragraph_texts ui)
  /\ (forall T K R, paragraph_id (general_entity T K R) = None).
Proof.
  split; [|reflexivity].
  intros ui es1 es2 g Hg. split; [|split].
  - intros p Hin. apply filter_In in Hin as [_ Hin].
    now rewrite (ownerless_in_no_paragraph g _ Hg) in Hin.
  - rewrite !apply_anonymization_texts. simpl.
    f_equal. f_equal. apply anonymize_paragraphs_ext.
    intros i. now apply paragraph_entities_without.
  - rewrite apply_anonymization_texts. simpl.
    rewrite anonymize_paragraphs_idle; [reflexivity|].
    intros i. destruct (anonymized g); simpl; [|reflexivity].
    now rewrite (ownerless_in_no_paragraph g i Hg).
Qed.

(** C10 at the marked entity of Alice in paragraph 0 and a marked entity
    of no paragraph. *)
Lemma ownerless_entity_changes_no_paragraph_witness :
  paragraph_id zed_general = None
  /\ paragraph_texts
       (_apply_anonymization (set_entities ui_alice ([alice0] ++ zed_general :: [])))
     = paragraph_texts
         (_apply_anonymization (set_entities ui_alice ([alice0] ++ []))).
Proof.
  split; [reflexivity|].
  apply (proj1 (proj2 (proj1 ownerless_entity_changes_no_paragraph
                         ui_alice [alice0] [] zed_general eq_refl))).
Defined.

(* ================================================================== *)
(** * Further properties of the sources *)
(* ================================================================== *)

Import PyList AppStateOps SizeSpec.

(* ================================================================== *)
(** ** Sorting a list with distinct keys *)
(* ================================================================== *)

Module SortFacts.
Section Unique.
Context {A : Type} (key : A -> Z).

Lemma strictly_desc_of_NoDup l :
  ForallOrdPairs (key_desc key) l -> NoDup (map key l) ->
  ForallOrdPairs (strictly_desc key) l.
Proof.
  induction 1 as [|x l Hx Hl IH]; intros Hnd; [constructor|].
  cbn in Hnd. inversion Hnd as [|? ? Hnotin Hnd']; subst.
  constructor; [|auto].
  rewrite Forall_forall in *. intros y Hy.
  specialize (Hx y Hy). unfold key_desc in Hx. unfold strictly_desc.
  assert (key y <> key x).
  { intros E. apply Hnotin. rewrite <- E. now apply in_map. }
  lia.
Qed.

(** A strictly descending list is determined by its elements. *)
Lemma strictly_desc_unique l1 : forall l2,
  Permutation l1 l2 ->
  ForallOrdPairs (strictly_desc key) l1 ->
  ForallOrdPairs (strictly_desc key) l2 ->
  l1 = l2.
Proof.
  induction l1 as [|x l1 IH]; intros l2 Hp H1 H2.
  - apply Permutation_nil in Hp. now subst.
  - destruct l2 as [|y l2].
    { apply Permutation_sym, Permutation_nil in Hp. discriminate. }
    inversion H1 as [|? ? Hx H1']; subst.
    inversion H2 as [|? ? Hy H2']; subst.
    assert (x = y) as ->.
    { assert (In x (y :: l2)) as Hin
        by (eapply Permutation_in; [exact Hp | now left]).
      destruct Hin as [E | Hin]; [now symmetry|].
      assert (In y (x :: l1)) as Hin'
        by (eapply Permutation_in; [apply Permutation_sym; exact Hp | now left]).
      destruct Hin' as [E | Hin']; [exact E|].
      rewrite Forall_forall in Hx, Hy.
      specialize (Hx y Hin'). specialize (Hy x Hin).
      unfold strictly_desc in *. lia. }
    f_equal. apply IH; auto. eapply Permutation_cons_inv; eauto.
Qed.

Lemma Permutation_map_NoDup (l l' : list A) :
  Permutation l l' -> NoDup (map key l) -> NoDup (map key l').
Proof.
  intros Hp. apply Permutation_NoDup. now apply Permutation_map.
Qed.

(** With pairwise distinct keys the sorted list does not depend on the
    order of the input. *)
Lemma sorted_desc_permutation l l' :
  Permutation l l' -> NoDup (map key l) ->
  sorted_desc key l = sorted_desc key l'.
Proof.
  intros Hp Hnd.
  apply strictly_desc_unique.
  - rewrite (sorted_desc_perm key l), Hp. symmetry. apply sorted_desc_perm.
  - apply strictly_desc_of_NoDup; [apply sorted_desc_ordered|].
    eapply Permutation_map_NoDup; [|exact Hnd].
    symmetry. apply sorted_desc_perm.
  - apply strictly_desc_of_NoDup; [apply sorted_desc_ordered|].
    eapply Permutation_map_NoDup; [|exact Hnd].
    rewrite Hp. symmetry. apply sorted_desc_perm.
Qed.
End Unique.

Lemma Permutation_filter_both {A} (f : A -> bool) l l' :
  Permutation l l' -> Permutation (filter f l) (filter f l').
Proof.
  induction 1; cbn.
  - constructor.
  - destruct (f x); auto.
  - destruct (f x), (f y); auto. constructor.
  - etransitivity; eauto.
Qed.

Lemma sum_Z_cons x l : sum_Z (x :: l) = x + sum_Z l.
Proof. reflexivity. Qed.

Lemma sum_Z_perm l l' : Permutation l l' -> sum_Z l = sum_Z l'.
Proof. unfold sum_Z. induction 1; cbn; lia. Qed.
End SortFacts.
Import SortFacts.

(* ================================================================== *)
(** ** The length of the anonymized text *)
(* ================================================================== *)

Module LengthFacts.

Lemma len_slice (t : str) i j :
  0 <= i <= j -> j <= len t -> len (slice t i j) = j - i.
Proof.
  intros Hi Hj. rewrite slice_valid by lia.
  unfold len in *. rewrite length_firstn, length_skipn. lia.
Qed.

Lemma len_rebuild_upto txt asc : forall cursor stop,
  0 <= cursor -> stop <= len txt ->
  Forall (fun e => cursor <= start_pos e <= end_pos e /\ end_pos e <= stop) asc ->
  ForallOrdPairs left_to_right asc ->
  cursor <= stop ->
  len (rebuild_upto txt cursor asc stop)
  = stop - cursor + sum_Z (map growth asc).
Proof.
  induction asc as [|e asc IH]; intros cursor stop Hc Hs Hall Hord Hcs;
    cbn [rebuild_upto map].
  - rewrite len_slice by lia. cbn. lia.
  - inversion Hall as [|? ? [He1 He2] Hall']; subst.
    inversion Hord as [|? ? Hfirst Hord']; subst.
    rewrite !len_app, len_slice by lia.
    rewrite sum_Z_cons, IH; try lia; auto.
    + unfold growth. lia.
    + rewrite Forall_forall in *. intros e' He'.
      specialize (Hall' e' He'). specialize (Hfirst e' He').
      unfold left_to_right in Hfirst. lia.
Qed.
End LengthFacts.
Import LengthFacts.

(* ================================================================== *)
(** ** The recognizer: types, initialisation, fresh entities *)
(* ================================================================== *)

Import RecognizerSpec2.

Module RecognizerFacts2.

Lemma map_stanza_entity_type_table kv :
  In kv stanza_type_mapping ->
  _map_stanza_entity_type (snd kv) = snd kv /\ In (snd kv) standard_types.
Proof.
  intros Hin. unfold stanza_type_mapping in Hin.
  repeat (destruct Hin as [<- | Hin];
          [split; [reflexivity | vm_compute; tauto]|]).
  destruct Hin.
Qed.

(** Once a call has gone through the initialisation, nothing is left to
    initialise. *)
Lemma initialized_stable stanza stanza' st :
  initialized stanza' (initialized stanza st) = initialized stanza st.
Proof.
  destruct st as [sp si np sti]. unfold initialized, _initialize_stanza.
  destruct sti, si, sp as [p|]; cbn; try reflexivity;
    destruct (Pipeline_offline stanza) as [p1|?]; cbn; try reflexivity;
    destruct (download stanza) as [[]|?]; cbn; try reflexivity;
    destruct (Pipeline_downloaded stanza) as [p2|?]; cbn; reflexivity.
Qed.

Lemma extract_entities_state finditer stanza st txt st' entities :
  extract_entities finditer stanza st txt = Returns (st', entities) ->
  st' = initialized stanza st.
Proof.
  rewrite extract_entities_initialized.
  destruct (nlp_pipeline (initialized stanza st)) as [pipeline|].
  - destruct (pipeline txt); cbn; intros [= <- _]; reflexivity.
  - intros [= <- _]; reflexivity.
Qed.

Lemma entities_of_match_fresh txt ty m e :
  In e (entities_of_match txt ty m) -> fresh e.
Proof.
  unfold entities_of_match.
  destruct (_ && _); [intros []|].
  intros [<- | []]. repeat split.
Qed.

Lemma regex_entities_fresh finditer txt :
  Forall fresh (_extract_entities_regex finditer txt).
Proof.
  apply Forall_forall. intros e He. unfold _extract_entities_regex in He.
  apply in_flat_map in He as [kv [_ He]].
  apply in_flat_map in He as [m [_ He]].
  eapply entities_of_match_fresh; eauto.
Qed.

Lemma document_entities_fresh doc : Forall fresh (entities_of_document doc).
Proof.
  apply Forall_forall. intros e He. unfold entities_of_document in He.
  apply in_flat_map in He as [sentence [_ He]].
  apply in_map_iff in He as [entity [<- _]]. repeat split.
Qed.

(** Whatever path [extract_entities] takes, the entities are fresh. *)
Lemma extract_entities_fresh finditer stanza st txt st' entities :
  extract_entities finditer stanza st txt = Returns (st', entities) ->
  Forall fresh entities.
Proof.
  rewrite extract_entities_initialized.
  destruct (nlp_pipeline (initialized stanza st)) as [pipeline|].
  - destruct (pipeline txt); cbn; intros [= _ <-].
    + apply document_entities_fresh.
    + apply regex_entities_fresh.
  - intros [= _ <-]. apply regex_entities_fresh.
Qed.

Lemma extract_entities_returns finditer stanza st txt :
  exists entities,
    extract_entities finditer stanza st txt
    = Returns (initialized stanza st, entities).
Proof.
  rewrite extract_entities_initialized.
  destruct (nlp_pipeline (initialized stanza st)) as [pipeline|].
  - destruct (pipeline txt); cbn; eauto.
  - eauto.
Qed.

Lemma existsb_str_eqb_In x l : existsb (str_eqb x) l = true <-> In x l.
Proof.
  rewrite existsb_exists. split.
  - intros [y [Hy E]]. apply str_eqb_eq in E. now subst.
  - intros H. exists x. split; [exact H | now apply str_eqb_eq].
Qed.

Lemma entities_of_match_person txt m e :
  In e (entities_of_match txt (lit "PERSON") m) ->
  ~ In (lower (text e)) person_stop_words.
Proof.
  unfold entities_of_match.
  destruct (existsb (str_eqb (lower (group txt m))) person_stop_words) eqn:E.
  - rewrite andb_true_r.
    replace (str_eqb (lit "PERSON") (lit "PERSON")) with true by reflexivity.
    intros [].
  - rewrite andb_false_r. intros [<- | []]. cbn [Entity.text Entity.new].
    intros Hin. apply existsb_str_eqb_In in Hin. congruence.
Qed.

Lemma entities_of_match_type txt ty m e :
  In e (entities_of_match txt ty m) -> entity_type e = ty.
Proof.
  unfold entities_of_match.
  destruct (_ && _); [intros []|]. now intros [<- | []].
Qed.
End RecognizerFacts2.
Import RecognizerFacts2.

(* ================================================================== *)
(** ** Lists and dictionaries *)
(* ================================================================== *)

Import AnnotationSpec.

Module ListFacts.

Lemma str_in_In x l : str_in x l = true <-> In x l.
Proof. apply existsb_str_eqb_In. Qed.

Lemma str_in_false x l : str_in x l = false <-> ~ In x l.
Proof.
  rewrite <- str_in_In. destruct (str_in x l); split; congruence.
Qed.

Lemma str_eqb_refl x : str_eqb x x = true.
Proof. now apply str_eqb_eq. Qed.

Lemma str_eqb_neq x y : str_eqb x y = false <-> x <> y.
Proof.
  rewrite <- str_eqb_eq. destruct (str_eqb x y); split; congruence.
Qed.

Lemma str_eqb_sym x y : str_eqb x y = str_eqb y x.
Proof.
  destruct (str_eqb x y) eqn:E, (str_eqb y x) eqn:F; auto.
  - apply str_eqb_eq in E. subst. rewrite str_eqb_refl in F. discriminate.
  - apply str_eqb_eq in F. subst. rewrite str_eqb_refl in E. discriminate.
Qed.

Section UpdateNth.
Context {A : Type}.

Lemma length_update_nth (f : A -> A) l : forall k,
  length (update_nth f l k) = length l.
Proof. induction l; destruct k; cbn; auto. Qed.

Lemma nth_error_update_nth (f : A -> A) l : forall k i,
  nth_error (update_nth f l k) i
  = if Nat.eqb i k then option_map f (nth_error l i) else nth_error l i.
Proof.
  induction l as [|x l IH]; intros k i.
  - cbn. destruct i, (Nat.eqb _ _); reflexivity.
  - destruct k, i; cbn; auto.
Qed.

Lemma update_nth_twice (f g : A -> A) l : forall k,
  update_nth g (update_nth f l k) k = update_nth (fun x => g (f x)) l k.
Proof. induction l; destruct k; cbn; auto. now rewrite IHl. Qed.

Lemma update_nth_fixed (f : A -> A) l : forall k x,
  nth_error l k = Some x -> f x = x -> update_nth f l k = l.
Proof.
  induction l; destruct k; cbn; intros x H E; try discriminate.
  - injection H as ->. now rewrite E.
  - f_equal. eapply IHl; eauto.
Qed.

Lemma update_nth_ext (f g : A -> A) l : forall k x,
  nth_error l k = Some x -> f x = g x -> update_nth f l k = update_nth g l k.
Proof.
  induction l; destruct k; cbn; intros x H E; try discriminate.
  - injection H as ->. now rewrite E.
  - f_equal. eapply IHl; eauto.
Qed.

Lemma Forall_update_nth (P : A -> Prop) (f : A -> A) l : forall k,
  (forall x, P x -> P (f x)) -> Forall P l -> Forall P (update_nth f l k).
Proof.
  induction l; destruct k; cbn; intros H Hall; auto;
    inversion Hall; subst; constructor; auto.
Qed.
End UpdateNth.

(** [remove] under the guard [x in l]. *)
Lemma remove_present x l :
  In x l ->
  exists r, remove x l = Returns r
            /\ (forall y, In y r -> In y l)
            /\ (NoDup l -> NoDup r /\ ~ In x r)
            /\ (forall y, y <> x -> In y l -> In y r).
Proof.
  induction l as [|y l IH]; [intros []|]. intros Hin. cbn [remove].
  destruct (str_eqb y x) eqn:E.
  - apply str_eqb_eq in E. subst y. exists l.
    split; [reflexivity|]. split; [|split].
    + intros z Hz. now right.
    + intros Hnd. inversion Hnd; subst. auto.
    + intros z Hne [Hz | Hz]; congruence.
  - apply str_eqb_neq in E.
    destruct Hin as [-> | Hin]; [congruence|].
    destruct (IH Hin) as [r [Hr [Hsub [Hnd Hkeep]]]].
    exists (y :: r). rewrite Hr.
    split; [reflexivity|]. split; [|split].
    + intros z [<- | Hz]; [now left | right; auto].
    + intros Hnd'. inversion Hnd' as [|? ? Hnotin Hnd'']; subst.
      destruct (Hnd Hnd'') as [Hr1 Hr2]. split.
      * constructor; auto.
      * intros [E' | Hx]; congruence.
    + intros z Hne [<- | Hz]; [now left | right; auto].
Qed.

Lemma remove_appended x l :
  ~ In x l -> remove x (l ++ [x]) = Returns l.
Proof.
  induction l as [|y l IH]; intros Hnotin; cbn.
  - now rewrite str_eqb_refl.
  - destruct (str_eqb y x) eqn:E.
    + apply str_eqb_eq in E. subst. exfalso. apply Hnotin. now left.
    + rewrite IH; [reflexivity|]. intros H. apply Hnotin. now right.
Qed.
End ListFacts.
Import ListFacts.

Module DictFacts.
Section Dict.
Context {V : Type}.
Implicit Types d : @PyDict.t V.

Lemma get_set_same d k v : PyDict.get (PyDict.set d k v) k = Some v.
Proof.
  induction d as [|[k' v'] d IH]; cbn.
  - now rewrite str_eqb_refl.
  - destruct (str_eqb k' k) eqn:E; cbn; rewrite E; auto.
Qed.

Lemma get_set_other d k v k' :
  k' <> k -> PyDict.get (PyDict.set d k v) k' = PyDict.get d k'.
Proof.
  intros Hne. induction d as [|[k0 v0] d IH]; cbn.
  - apply not_eq_sym in Hne. apply str_eqb_neq in Hne. now rewrite Hne.
  - destruct (str_eqb k0 k) eqn:E; cbn.
    + apply str_eqb_eq in E. subst k0.
      apply not_eq_sym in Hne. apply str_eqb_neq in Hne. now rewrite Hne.
    + now rewrite IH.
Qed.

Lemma keys_set_present d k v v0 :
  PyDict.get d k = Some v0 -> PyDict.keys (PyDict.set d k v) = PyDict.keys d.
Proof.
  induction d as [|[k' v'] d IH]; cbn; [discriminate|].
  destruct (str_eqb k' k) eqn:E; cbn; auto.
  intros H. unfold PyDict.keys in IH. now rewrite IH.
Qed.

Lemma keys_set_absent d k v :
  PyDict.get d k = None -> PyDict.keys (PyDict.set d k v) = PyDict.keys d ++ [k].
Proof.
  induction d as [|[k' v'] d IH]; cbn; auto.
  destruct (str_eqb k' k) eqn:E; cbn; [discriminate|].
  intros H. unfold PyDict.keys in IH. now rewrite IH.
Qed.

Lemma get_None_keys d k : PyDict.get d k = None <-> ~ In k (PyDict.keys d).
Proof.
  induction d as [|[k' v'] d IH]; cbn.
  - tauto.
  - destruct (str_eqb k' k) eqn:E.
    + apply str_eqb_eq in E. subst. split; [discriminate | intros H; tauto].
    + apply str_eqb_neq in E. rewrite IH. tauto.
Qed.
End Dict.

Lemma sum_values_set d k n :
  PyDict.get d k = Some n ->
  sum_Z (PyDict.values (PyDict.set d k (n + 1))) = sum_Z (PyDict.values d) + 1.
Proof.
  unfold PyDict.values, sum_Z.
  induction d as [|[k' v'] d IH]; cbn; [discriminate|].
  destruct (str_eqb k' k) eqn:E; cbn.
  - intros [= ->]. lia.
  - intros H. rewrite IH by assumption. lia.
Qed.
End DictFacts.
Import DictFacts.

(* ================================================================== *)
(** ** The distributions *)
(* ================================================================== *)

Module DistributionFacts.

Lemma count_sentiment_get d p label :
  PyDict.get (count_sentiment d p) label
  = option_map
      (fun n => if str_eqb (Paragraph.sentiment p) label then n + 1 else n)
      (PyDict.get d label).
Proof.
  unfold count_sentiment.
  destruct (PyDict.get d (Paragraph.sentiment p)) as [n|] eqn:G.
  - destruct (str_eqb (Paragraph.sentiment p) label) eqn:E.
    + apply str_eqb_eq in E. subst label.
      rewrite get_set_same, G. reflexivity.
    + apply str_eqb_neq in E. rewrite get_set_other by congruence.
      destruct (PyDict.get d label); reflexivity.
  - destruct (str_eqb (Paragraph.sentiment p) label) eqn:E.
    + apply str_eqb_eq in E. subst label. rewrite G. reflexivity.
    + destruct (PyDict.get d label); reflexivity.
Qed.

Lemma count_sentiment_keys d p :
  PyDict.keys (count_sentiment d p) = PyDict.keys d.
Proof.
  unfold count_sentiment.
  destruct (PyDict.get d (Paragraph.sentiment p)) as [n|] eqn:G; auto.
  eapply keys_set_present; eauto.
Qed.

Lemma mem_keys {V} (d d' : @PyDict.t V) k :
  PyDict.keys d' = PyDict.keys d -> PyDict.mem d' k = PyDict.mem d k.
Proof.
  intros Hk. unfold PyDict.mem.
  destruct (PyDict.get d' k) eqn:G', (PyDict.get d k) eqn:G; auto.
  - apply get_None_keys in G. rewrite <- Hk in G.
    apply get_None_keys in G. congruence.
  - apply get_None_keys in G'. rewrite Hk in G'.
    apply get_None_keys in G'. congruence.
Qed.

Lemma count_sentiment_sum d p :
  sum_Z (PyDict.values (count_sentiment d p))
  = sum_Z (PyDict.values d)
    + (if PyDict.mem d (Paragraph.sentiment p) then 1 else 0).
Proof.
  unfold count_sentiment, PyDict.mem.
  destruct (PyDict.get d (Paragraph.sentiment p)) as [n|] eqn:G.
  - now apply sum_values_set.
  - lia.
Qed.

Lemma fold_count_sentiment ps : forall d,
  PyDict.keys (fold_left count_sentiment ps d) = PyDict.keys d
  /\ (forall label,
        PyDict.get (fold_left count_sentiment ps d) label
        = option_map
            (fun n => n + Z.of_nat
                       (length (filter (fun p => str_eqb (Paragraph.sentiment p)
                                                         label) ps)))
            (PyDict.get d label))
  /\ sum_Z (PyDict.values (fold_left count_sentiment ps d))
     = sum_Z (PyDict.values d)
       + Z.of_nat (length (filter (fun p => PyDict.mem d (Paragraph.sentiment p))
                                  ps)).
Proof.
  induction ps as [|p ps IH]; intros d.
  - cbn [fold_left filter length]. split; [reflexivity|]. split; [|lia].
    intros label. destruct (PyDict.get d label); cbn; f_equal; lia.
  - cbn [fold_left].
    destruct (IH (count_sentiment d p)) as [Hk [Hg Hs]].
    split; [|split].
    + rewrite Hk. apply count_sentiment_keys.
    + intros label. rewrite Hg, count_sentiment_get.
      cbn [filter].
      destruct (PyDict.get d label) as [n|]; [|reflexivity].
      cbn [option_map]. f_equal.
      destruct (str_eqb (Paragraph.sentiment p) label); cbn [length]; lia.
    + rewrite Hs, count_sentiment_sum. cbn [filter].
      rewrite (filter_ext _ (fun p0 => PyDict.mem d (Paragraph.sentiment p0)))
        by (intros a; apply mem_keys, count_sentiment_keys).
      destruct (PyDict.mem d (Paragraph.sentiment p)); cbn [length]; lia.
Qed.

Lemma count_code_get_default d code c :
  PyDict.get_default (count_code d code) c 0
  = PyDict.get_default d c 0 + (if str_eqb code c then 1 else 0).
Proof.
  unfold count_code, PyDict.get_default.
  destruct (str_eqb code c) eqn:E.
  - apply str_eqb_eq in E. subst c. rewrite get_set_same. reflexivity.
  - apply str_eqb_neq in E. rewrite get_set_other by congruence. lia.
Qed.

Lemma count_code_keys d code c :
  In c (PyDict.keys (count_code d code)) <-> c = code \/ In c (PyDict.keys d).
Proof.
  unfold count_code.
  destruct (PyDict.get d code) as [n|] eqn:G.
  - rewrite (keys_set_present _ _ _ _ G).
    assert (In code (PyDict.keys d)).
    { destruct (in_dec (list_eq_dec N.eq_dec) code (PyDict.keys d)) as [H|H];
        auto.
      apply get_None_keys in H. congruence. }
    split; [tauto|]. intros [-> | H']; auto.
  - rewrite (keys_set_absent _ _ _ G), in_app_iff. cbn. intuition.
Qed.

Lemma count_code_NoDup d code :
  NoDup (PyDict.keys d) -> NoDup (PyDict.keys (count_code d code)).
Proof.
  unfold count_code. intros Hnd.
  destruct (PyDict.get d code) as [n|] eqn:G.
  - now rewrite (keys_set_present _ _ _ _ G).
  - rewrite (keys_set_absent _ _ _ G).
    apply NoDup_app; auto.
    + repeat constructor. intros [].
    + intros x Hx [<- | []]. apply get_None_keys in G. contradiction.
Qed.

Lemma fold_count_code cs : forall d c,
  PyDict.get_default (fold_left count_code cs d) c 0
  = PyDict.get_default d c 0
    + Z.of_nat (length (filter (fun x => str_eqb x c) cs))
  /\ (In c (PyDict.keys (fold_left count_code cs d))
      <-> In c cs \/ In c (PyDict.keys d))
  /\ (NoDup (PyDict.keys d) -> NoDup (PyDict.keys (fold_left count_code cs d))).
Proof.
  induction cs as [|code cs IH]; intros d c.
  - cbn. split; [lia|]. split; [tauto|auto].
  - cbn [fold_left]. destruct (IH (count_code d code) c) as [Hg [Hk Hnd]].
    split; [|split].
    + rewrite Hg, count_code_get_default. cbn [filter].
      destruct (str_eqb code c); cbn [length]; lia.
    + rewrite Hk, count_code_keys. cbn [In]. intuition.
    + intros H. apply Hnd. now apply count_code_NoDup.
Qed.

Lemma fold_paragraph_codes ps : forall d c,
  let dist :=
    fold_left (fun distribution paragraph =>
                 fold_left count_code (Paragraph.codes paragraph) distribution)
              ps d in
  PyDict.get_default dist c 0 = PyDict.get_default d c 0 + assignments c ps
  /\ (In c (PyDict.keys dist)
      <-> (exists p, In p ps /\ In c (Paragraph.codes p))
          \/ In c (PyDict.keys d))
  /\ (NoDup (PyDict.keys d) -> NoDup (PyDict.keys dist)).
Proof.
  induction ps as [|p ps IH]; intros d c dist; subst dist.
  - cbn. split; [unfold assignments; cbn; lia|]. split; [|auto].
    split; [tauto|]. intros [[p [[] _]] | H]; auto.
  - cbn [fold_left].
    destruct (IH (fold_left count_code (Paragraph.codes p) d) c)
      as [Hg [Hk Hnd]].
    destruct (fold_count_code (Paragraph.codes p) d c) as [Hg' [Hk' Hnd']].
    split; [|split].
    + rewrite Hg, Hg'. unfold assignments. cbn [map]. rewrite sum_Z_cons. lia.
    + rewrite Hk, Hk'. split.
      * intros [[q [Hq Hc]] | [Hc | Hc]]; eauto.
        -- left. exists q. split; [now right | auto].
        -- left. exists p. split; [now left | auto].
      * intros [[q [[<- | Hq] Hc]] | Hc]; eauto.
    + auto.
Qed.
End DistributionFacts.
Import DistributionFacts.

(* ================================================================== *)
(** ** The keyword classifiers *)
(* ================================================================== *)

Import NLPHeuristics.

Module HeuristicFacts.

Lemma count_in_nonneg words t : 0 <= count_in words t.
Proof. unfold count_in. lia. Qed.

Lemma count_in_zero words t :
  count_in words t = 0 <-> forall w, In w words -> contains t w = false.
Proof.
  unfold count_in. split.
  - intros H w Hw. destruct (contains t w) eqn:E; auto.
    assert (In w (filter (fun word => contains t word) words))
      by (apply filter_In; auto).
    destruct (filter _ words); [contradiction | cbn in H; lia].
  - intros H. rewrite filter_none; auto.
Qed.

Lemma count_in_pos words t :
  0 < count_in words t <-> exists w, In w words /\ contains t w = true.
Proof.
  unfold count_in. split.
  - destruct (filter (fun word => contains t word) words) as [|w l] eqn:F;
      [cbn; lia|].
    intros _. exists w.
    assert (H : In w (filter (fun word => contains t word) words))
      by (rewrite F; now left).
    now apply filter_In in H.
  - intros [w Hw]. apply filter_In in Hw.
    destruct (filter _ words); [contradiction | cbn; lia].
Qed.
End HeuristicFacts.
Import HeuristicFacts.

(* ================================================================== *)
(** ** Annotations of the paragraphs *)
(* ================================================================== *)

Module AnnotationFacts.

Lemma set_paragraphs_same st :
  AppState.set_paragraphs st (AppState.paragraphs st) = st.
Proof. now destruct st. Qed.

Lemma in_range_nth st paragraph_id :
  in_range st paragraph_id = true
  <-> 0 <= paragraph_id
      /\ exists p, nth_error (AppState.paragraphs st) (Z.to_nat paragraph_id)
                   = Some p.
Proof.
  unfold in_range. rewrite andb_true_iff, Z.leb_le, Z.ltb_lt. split.
  - intros [H0 H1]. split; [exact H0|].
    destruct (nth_error (AppState.paragraphs st) (Z.to_nat paragraph_id)) eqn:E;
      eauto.
    apply nth_error_None in E. lia.
  - intros [H0 [p Hp]]. split; [exact H0|].
    assert (Z.to_nat paragraph_id < length (AppState.paragraphs st))%nat
      by (apply nth_error_Some; congruence).
    lia.
Qed.

Lemma in_range_update st i f j :
  in_range (update_paragraph st i f) j = in_range st j.
Proof.
  unfold in_range, update_paragraph. destruct st; cbn.
  now rewrite length_update_nth.
Qed.

Lemma update_paragraph_twice st i f g :
  update_paragraph (update_paragraph st i f) i g
  = update_paragraph st i (fun p => g (f p)).
Proof.
  unfold update_paragraph. destruct st; cbn. now rewrite update_nth_twice.
Qed.

Lemma update_paragraph_fixed st i f p :
  nth_error (AppState.paragraphs st) (Z.to_nat i) = Some p -> f p = p ->
  update_paragraph st i f = st.
Proof.
  intros Hp E. unfold update_paragraph.
  rewrite (update_nth_fixed f _ _ p Hp E). apply set_paragraphs_same.
Qed.

Lemma update_paragraph_ext st i f g p :
  nth_error (AppState.paragraphs st) (Z.to_nat i) = Some p -> f p = g p ->
  update_paragraph st i f = update_paragraph st i g.
Proof.
  intros Hp E. unfold update_paragraph.
  now rewrite (update_nth_ext f g _ _ p Hp E).
Qed.

Lemma paragraphs_update st i f :
  AppState.paragraphs (update_paragraph st i f)
  = update_nth f (AppState.paragraphs st) (Z.to_nat i).
Proof. now destruct st. Qed.

Lemma append_code_distinct code p :
  NoDup (Paragraph.codes p) -> NoDup (Paragraph.codes (append_code code p)).
Proof.
  intros Hnd. unfold append_code.
  destruct (str_in code (Paragraph.codes p)) eqn:E; cbn; auto.
  apply str_in_false in E.
  apply NoDup_app; auto.
  - repeat constructor. intros [].
  - intros x Hx [<- | []]. contradiction.
Qed.

Lemma remove_code_spec code p :
  (~ In code (Paragraph.codes p) /\ remove_code code p = p)
  \/ (In code (Paragraph.codes p)
      /\ exists r, remove code (Paragraph.codes p) = Returns r
                   /\ remove_code code p = set_codes p r).
Proof.
  unfold remove_code.
  destruct (str_in code (Paragraph.codes p)) eqn:E.
  - right. apply str_in_In in E. split; [exact E|].
    destruct (remove_present code _ E) as [r [Hr _]].
    exists r. now rewrite Hr.
  - left. apply str_in_false in E. auto.
Qed.

Lemma remove_code_distinct code p :
  NoDup (Paragraph.codes p) ->
  NoDup (Paragraph.codes (remove_code code p))
  /\ ~ In code (Paragraph.codes (remove_code code p)).
Proof.
  intros Hnd.
  destruct (remove_code_spec code p) as [[Hno ->] | [Hin [r [Hr ->]]]]; auto.
  destruct (remove_present code _ Hin) as [r' [Hr' [_ [Hd _]]]].
  rewrite Hr in Hr'. injection Hr' as <-. cbn. auto.
Qed.

Lemma remove_append_code code p :
  ~ In code (Paragraph.codes p) -> remove_code code (append_code code p) = p.
Proof.
  intros Hno. unfold append_code.
  pose proof Hno as E. apply str_in_false in E. rewrite E. cbn [negb].
  unfold remove_code. cbn [Paragraph.codes set_codes].
  assert (str_in code (Paragraph.codes p ++ [code]) = true) as ->.
  { apply str_in_In, in_app_iff. right. now left. }
  rewrite remove_appended by assumption. now destruct p.
Qed.

Lemma append_code_twice code p :
  append_code code (append_code code p) = append_code code p.
Proof.
  unfold append_code.
  destruct (str_in code (Paragraph.codes p)) eqn:E; cbn [negb].
  - now rewrite E.
  - cbn [Paragraph.codes set_codes].
    assert (str_in code (Paragraph.codes p ++ [code]) = true) as ->.
    { apply str_in_In, in_app_iff. right. now left. }
    reflexivity.
Qed.

Lemma append_code_In code p : In code (Paragraph.codes (append_code code p)).
Proof.
  unfold append_code.
  destruct (str_in code (Paragraph.codes p)) eqn:E; cbn [negb].
  - now apply str_in_In.
  - cbn. apply in_app_iff. right. now left.
Qed.

Lemma filter_code_NoDup code cs :
  NoDup cs ->
  length (filter (fun c => str_eqb c code) cs)
  = if str_in code cs then 1%nat else 0%nat.
Proof.
  induction cs as [|c cs IH]; intros Hnd; [reflexivity|].
  inversion Hnd as [|? ? Hnotin Hnd']; subst.
  unfold str_in in *. cbn [filter existsb].
  rewrite (str_eqb_sym code c).
  destruct (str_eqb c code) eqn:E; cbn [orb length].
  - apply str_eqb_eq in E. subst c.
    rewrite filter_none; [reflexivity|].
    intros x Hx. apply str_eqb_neq. intros ->. contradiction.
  - now apply IH.
Qed.

Lemma assignments_distinct code ps :
  Forall (fun p => NoDup (Paragraph.codes p)) ps ->
  assignments code ps
  = Z.of_nat (length (filter (fun p => str_in code (Paragraph.codes p)) ps)).
Proof.
  unfold assignments.
  induction 1 as [|p ps Hp Hps IH]; [reflexivity|].
  cbn [map filter]. rewrite sum_Z_cons, IH, filter_code_NoDup by exact Hp.
  destruct (str_in code (Paragraph.codes p)); cbn [length]; lia.
Qed.
End AnnotationFacts.
Import AnnotationFacts.

(* ================================================================== *)
(** ** The segmenter: trimmed units, identifiers, empty results *)
(* ================================================================== *)

Import SegmenterSpec2.

Module SegmenterFacts2.

Lemma lstrip_nonspace c t : isspace c = false -> lstrip (c :: t) = c :: t.
Proof. intros H. cbn. now rewrite H. Qed.

Lemma lstrip_idem t : lstrip (lstrip t) = lstrip t.
Proof.
  induction t as [|c t IH]; [reflexivity|]. cbn.
  destruct (isspace c) eqn:E; [exact IH|]. cbn. now rewrite E.
Qed.

Lemma lstrip_app_nonspace l c r :
  isspace c = false -> lstrip (l ++ c :: r) = lstrip l ++ c :: r.
Proof.
  intros Hc. induction l as [|x l IH]; cbn.
  - now rewrite Hc.
  - destruct (isspace x); [exact IH | reflexivity].
Qed.

Lemma rstrip_nonspace c t : isspace c = false -> rstrip (c :: t) = c :: rstrip t.
Proof.
  intros Hc. unfold rstrip. cbn [rev].
  rewrite lstrip_app_nonspace by exact Hc.
  now rewrite rev_app_distr.
Qed.

Lemma rstrip_idem t : rstrip (rstrip t) = rstrip t.
Proof. unfold rstrip. now rewrite rev_involutive, lstrip_idem. Qed.

(** A stripped text begins with the first code point that is not white
    space. *)
Lemma strip_cons t :
  strip t = [] \/ exists c r, isspace c = false /\ strip t = c :: r.
Proof.
  unfold strip. destruct (lstrip t) as [|c v] eqn:E.
  - left. reflexivity.
  - right. pose proof (lstrip_head _ _ _ E) as Hc.
    rewrite rstrip_nonspace by exact Hc. eauto.
Qed.

Lemma strip_idem t : strip (strip t) = strip t.
Proof.
  destruct (strip_cons t) as [E | [c [r [Hc E]]]].
  - rewrite E. reflexivity.
  - unfold strip at 1. rewrite E, lstrip_nonspace by exact Hc.
    rewrite <- E. unfold strip. apply rstrip_idem.
Qed.

Lemma strip_trimmed t : strip t <> [] -> trimmed (strip t).
Proof. intros H. split; [exact H | apply strip_idem]. Qed.

Lemma truthy_nonempty (t : str) : truthy t = true <-> t <> [].
Proof. destruct t; cbn; split; congruence. Qed.

Lemma stripped_units_trimmed units :
  Forall trimmed (AppState.stripped_units units).
Proof.
  unfold AppState.stripped_units. apply Forall_forall. intros u Hu.
  apply in_map_iff in Hu as [p [<- Hp]].
  apply filter_In in Hp as [_ Hp]. apply truthy_nonempty in Hp.
  now apply strip_trimmed.
Qed.

(** A trimmed text followed by a full stop is trimmed. *)
Lemma trimmed_full_stop t : trimmed t -> trimmed (t ++ lit ".").
Proof.
  intros [Hne Hs]. split; [destruct t; discriminate|].
  destruct (strip_cons t) as [E | [c [r [Hc E]]]]; [congruence|].
  rewrite Hs in E. subst t. unfold strip.
  change ((c :: r) ++ lit ".") with (c :: (r ++ lit ".")).
  rewrite lstrip_nonspace by exact Hc.
  unfold rstrip.
  change (c :: r ++ lit ".") with ((c :: r) ++ [46%N]).
  rewrite rev_app_distr. cbn [rev app].
  rewrite lstrip_nonspace by reflexivity.
  cbn [rev]. rewrite rev_app_distr, rev_involutive. reflexivity.
Qed.

Lemma refine_long_unit_trimmed units :
  Forall trimmed units -> Forall trimmed (AppState.refine_long_unit units).
Proof.
  intros H. unfold AppState.refine_long_unit.
  destruct units as [|only [|]]; auto.
  destruct (500 <? len only); auto.
  destruct (1 <? _); auto.
  apply Forall_forall. intros u Hu.
  apply in_map_iff in Hu as [s [<- Hs]].
  apply filter_In in Hs as [_ Hs]. apply truthy_nonempty in Hs.
  destruct (negb (endswith s (lit "."))).
  - apply trimmed_full_stop. now apply strip_trimmed.
  - now apply strip_trimmed.
Qed.

Lemma primary_units_trimmed content :
  Forall trimmed (AppState.primary_units content).
Proof.
  unfold AppState.primary_units, AppState.by_blank_lines,
    AppState.by_line_breaks, AppState.by_sentences.
  destruct (contains content _); [apply stripped_units_trimmed|].
  destruct (contains content _); apply stripped_units_trimmed.
Qed.

(** *** Identifiers *)

Lemma enumerate_from_fst {A} (l : list A) : forall k,
  map fst (enumerate_from (Z.of_nat k) l) = map Z.of_nat (seq k (length l)).
Proof.
  induction l as [|x l IH]; intros k; [reflexivity|].
  cbn [enumerate_from map seq length fst]. f_equal.
  replace (Z.of_nat k + 1) with (Z.of_nat (S k)) by lia. apply IH.
Qed.

Lemma enumerate_from_snd {A} (l : list A) : forall k,
  map snd (enumerate_from k l) = l.
Proof.
  induction l as [|x l IH]; intros k; [reflexivity|].
  cbn. now rewrite IH.
Qed.

Lemma length_enumerate_from {A} (l : list A) : forall k,
  length (enumerate_from k l) = length l.
Proof. induction l; intros k; cbn; auto. Qed.

Lemma split_into_paragraphs_texts st content :
  map Paragraph.text
      (AppState.paragraphs (AppState._split_into_paragraphs st content))
  = AppState.paragraphs_text_of content.
Proof.
  unfold AppState._split_into_paragraphs, enumerate. destruct st; cbn.
  rewrite map_map. cbn [Paragraph.text Paragraph.new].
  apply enumerate_from_snd.
Qed.

(** *** Empty results *)

Section Runs.
Variable p : char -> bool.
Variable P : char -> Prop.

(** The pieces of [re.split] are made of the code points outside the
    runs. *)
Lemma re_split_runs_pieces : forall txt cur in_run,
  Forall (fun c => p c = true \/ P c) txt -> Forall P cur ->
  Forall (Forall P) (re_split_runs p txt cur in_run).
Proof.
  induction txt as [|c txt IH]; intros cur in_run Ht Hc; cbn.
  - constructor; [|constructor]. now apply Forall_rev.
  - inversion Ht as [|? ? Hc0 Ht']; subst.
    destruct (p c) eqn:E.
    + destruct in_run.
      * now apply IH.
      * constructor; [now apply Forall_rev | apply IH; auto].
    + apply IH; auto. constructor; auto.
      destruct Hc0; [congruence | assumption].
Qed.

Lemma re_split_runs_covers : forall txt cur in_run,
  Forall (Forall P) (re_split_runs p txt cur in_run) ->
  Forall (fun c => p c = true \/ P c) txt /\ Forall P cur.
Proof.
  induction txt as [|c txt IH]; intros cur in_run H; cbn in H.
  - inversion H as [|? ? Hcur _]; subst. split; [constructor|].
    apply Forall_rev in Hcur. now rewrite rev_involutive in Hcur.
  - destruct (p c) eqn:E.
    + destruct in_run.
      * destruct (IH _ _ H) as [Ht Hc]. split; [constructor; auto | exact Hc].
      * inversion H as [|? ? Hcur H']; subst.
        destruct (IH _ _ H') as [Ht _]. split; [constructor; auto|].
        apply Forall_rev in Hcur. now rewrite rev_involutive in Hcur.
    + destruct (IH _ _ H) as [Ht Hc].
      inversion Hc; subst. split; [constructor; auto | assumption].
Qed.
End Runs.

(** Every code point other than a full stop is in some piece of the
    split at full stops. *)
Lemma re_split_period_keeps x : forall txt cur,
  x <> 46%N -> In x txt \/ In x cur ->
  exists s, In s (re_split_period txt cur) /\ In x s.
Proof.
  induction txt as [|c txt IH]; intros cur Hx Hin; cbn.
  - destruct Hin as [[] | Hin]. exists (rev cur). split; [now left|].
    now apply in_rev in Hin.
  - destruct ((c =? 46)%N && ws_then_capital txt false) eqn:E.
    + apply andb_prop in E as [E _]. apply N.eqb_eq in E. subst c.
      destruct Hin as [[E | Hin] | Hin].
      * congruence.
      * destruct (IH [] Hx (or_introl Hin)) as [s [Hs Hxs]].
        exists s. split; [now right | exact Hxs].
      * exists (rev cur). split; [now left | now apply in_rev in Hin].
    + apply IH; [exact Hx|].
      destruct Hin as [[<- | Hin] | Hin]; [right; now left | now left |
                                            right; now right].
Qed.

Lemma ws_then_capital_In : forall txt seen,
  ws_then_capital txt seen = true -> exists c, In c txt /\ is_AZ c = true.
Proof.
  induction txt as [|c txt IH]; intros seen H; cbn in H; [discriminate|].
  destruct (isspace c).
  - destruct (IH _ H) as [x [Hx Hc]]. exists x. split; [now right | exact Hc].
  - apply andb_prop in H as [_ H]. exists c. split; [now left | exact H].
Qed.

Lemma is_AZ_not_space c : is_AZ c = true -> isspace c = false /\ c <> 46%N.
Proof.
  unfold is_AZ, isspace. intros H.
  apply andb_prop in H as [H1 H2]. apply N.leb_le in H1, H2.
  split; [|lia].
  repeat match goal with
         | |- context [(?a <=? ?b)%N] =>
             destruct (N.leb_spec a b); try lia
         | |- context [(?a =? ?b)%N] =>
             destruct (N.eqb_spec a b); try lia
         end; reflexivity.
Qed.

(** When the split at full stops cuts the text, some piece is not
    blank. *)
Lemma re_split_period_not_blank : forall txt cur,
  (1 < length (re_split_period txt cur))%nat ->
  exists s, In s (re_split_period txt cur) /\ strip s <> [].
Proof.
  induction txt as [|c txt IH]; intros cur H; cbn in H |- *; [lia|].
  destruct ((c =? 46)%N && ws_then_capital txt false) eqn:E.
  - apply andb_prop in E as [_ E].
    destruct (ws_then_capital_In _ _ E) as [x [Hx Hcap]].
    destruct (is_AZ_not_space x Hcap) as [Hns Hne].
    destruct (re_split_period_keeps x txt [] Hne (or_introl Hx))
      as [s [Hs Hxs]].
    exists s. split; [now right|].
    intros Hblank. apply strip_blank in Hblank.
    unfold blank in Hblank. rewrite Forall_forall in Hblank.
    specialize (Hblank x Hxs). congruence.
  - now apply IH.
Qed.

Lemma refine_long_unit_nil units :
  AppState.refine_long_unit units = [] <-> units = [].
Proof.
  split; [|intros ->; reflexivity].
  unfold AppState.refine_long_unit.
  destruct units as [|only [|]]; auto.
  destruct (500 <? len only); auto.
  destruct (1 <? Z.of_nat (length (re_split_period only []))) eqn:E; auto.
  apply Z.ltb_lt in E.
  destruct (re_split_period_not_blank only []) as [s [Hs Hne]]; [lia|].
  intros Hnil. apply map_eq_nil in Hnil.
  assert (In s (filter (fun s => truthy (strip s)) (re_split_period only []))).
  { apply filter_In. split; [exact Hs | now apply truthy_nonempty]. }
  rewrite Hnil in H. contradiction.
Qed.

Lemma by_sentences_nil content :
  AppState.by_sentences content = []
  <-> Forall space_or_sentence_end content.
Proof.
  unfold AppState.by_sentences. rewrite stripped_units_nil. split.
  - intros H.
    destruct (re_split_runs_covers is_sentence_end (fun c => isspace c = true)
                _ _ _ H) as [Ht _].
    revert Ht. apply Forall_impl. unfold space_or_sentence_end. tauto.
  - intros H. apply re_split_runs_pieces; [|constructor].
    revert H. apply Forall_impl. unfold space_or_sentence_end. tauto.
Qed.

Lemma by_blank_lines_blank content :
  AppState.by_blank_lines content = [] <-> blank content.
Proof.
  split; [apply by_blank_lines_nil|].
  intros H. unfold AppState.by_blank_lines.
  apply stripped_units_nil. now apply blank_split.
Qed.

Lemma by_line_breaks_blank content :
  AppState.by_line_breaks content = [] <-> blank content.
Proof.
  split; [apply by_line_breaks_nil | apply blank_by_line_breaks].
Qed.
End SegmenterFacts2.
Import SegmenterFacts2.

(* ================================================================== *)
(** ** Applying the anonymization *)
(* ================================================================== *)

Module ApplyFacts2.

Lemma set_text_same p : Paragraph.set_text p (Paragraph.text p) = p.
Proof. now destruct p. Qed.

Lemma anonymize_text_nil txt : anonymize_text txt [] = txt.
Proof. reflexivity. Qed.

(** The paragraphs the loop returns: each text is rewritten with the
    marked entities the paragraph owns. *)
Lemma anonymize_paragraphs_fst A ps : forall n,
  fst (anonymize_paragraphs A ps n)
  = map (fun p =>
           Paragraph.set_text p
             (anonymize_text (Paragraph.text p)
                             (filter (in_paragraph (Paragraph.id p)) A)))
        ps.
Proof.
  induction ps as [|p ps IH]; intros n; [reflexivity|].
  cbn [anonymize_paragraphs map].
  destruct (filter (in_paragraph (Paragraph.id p)) A) as [|e es] eqn:F.
  - specialize (IH n).
    destruct (anonymize_paragraphs A ps n) as [ps' log]. cbn [fst] in *.
    rewrite IH, anonymize_text_nil, set_text_same. reflexivity.
  - specialize (IH (n + 1)).
    destruct (anonymize_paragraphs A ps (n + 1)) as [ps' log]. cbn [fst] in *.
    now rewrite IH.
Qed.

(** What a successful application leaves. *)
Lemma apply_anonymization_runs ui :
  filter anonymized (AppState.entities (app_state ui)) <> [] ->
  app_state (_apply_anonymization ui)
  = let ps' :=
      fst (anonymize_paragraphs
             (filter anonymized (AppState.entities (app_state ui)))
             (AppState.paragraphs (app_state ui)) 0) in
    AppState.mk (AppState.original_transcript (app_state ui))
                (str_join [AppState.LF; AppState.LF] (map Paragraph.text ps'))
                ps' [].
Proof.
  intros Hmarked. unfold _apply_anonymization.
  destruct (AppState.entities (app_state ui)) as [|e es] eqn:E;
    [contradiction|].
  destruct (filter anonymized (e :: es)) as [|m ms] eqn:F; [contradiction|].
  destruct (anonymize_paragraphs (m :: ms) _ 0) as [ps' progress].
  reflexivity.
Qed.

(** An application that finds nothing to apply only notifies. *)
Lemma apply_anonymization_idle ui :
  filter anonymized (AppState.entities (app_state ui)) = [] ->
  app_state (_apply_anonymization ui) = app_state ui.
Proof.
  intros Hnone. unfold _apply_anonymization.
  destruct (AppState.entities (app_state ui)) as [|e es] eqn:E;
    [reflexivity|].
  now rewrite Hnone.
Qed.
End ApplyFacts2.
Import ApplyFacts2.

(* ================================================================== *)
(** ** The entity table *)
(* ================================================================== *)

Import EntityTable.

Module TableFacts.

Section SortedMap.
Context {A : Type} (key : A -> Z) (f : A -> A).
Hypothesis key_f : forall x, key (f x) = key x.

Lemma insert_desc_map x l :
  insert_desc key (f x) (map f l) = map f (insert_desc key x l).
Proof.
  induction l as [|y l IH]; [reflexivity|]. cbn.
  rewrite !key_f. destruct (key x <? key y); cbn; [now rewrite IH | reflexivity].
Qed.

Lemma sorted_desc_map l :
  sorted_desc key (map f l) = map f (sorted_desc key l).
Proof.
  induction l as [|x l IH]; [reflexivity|]. cbn.
  fold (sorted_desc key (map f l)). fold (sorted_desc key l).
  now rewrite IH, insert_desc_map.
Qed.
End SortedMap.

Lemma fold_anonymize_step_map (f g : Entity.t -> Entity.t) l : forall w,
  (forall e w, anonymize_step w (f e) = anonymize_step w (g e)) ->
  fold_left anonymize_step (map f l) w = fold_left anonymize_step (map g l) w.
Proof.
  induction l as [|e l IH]; intros w H; [reflexivity|]. cbn [map fold_left].
  rewrite H. now apply IH.
Qed.

Lemma replacement_of_mark e : replacement_of (mark e) = replacement_of e.
Proof.
  unfold mark, replacement_of, str_or. destruct e as [tx ty s en a r pid ad].
  cbn. destruct r; reflexivity.
Qed.

Lemma mark_marked e : anonymized (mark e) = true /\ replacement (mark e) <> [].
Proof.
  unfold mark. destruct e as [tx ty s en a r pid ad]. cbn.
  destruct r; cbn; split; auto; discriminate.
Qed.

Lemma mark_twice e : mark (mark e) = mark e.
Proof.
  unfold mark. destruct e as [tx ty s en a r pid ad]. cbn.
  destruct r; reflexivity.
Qed.

Lemma mark_span e :
  start_pos (mark e) = start_pos e /\ end_pos (mark e) = end_pos e.
Proof.
  unfold mark. destruct e as [tx ty s en a r pid ad]. cbn.
  destruct r; split; reflexivity.
Qed.

Lemma anonymize_step_mark w e :
  anonymize_step w (mark e) = anonymize_step w (set_anonymized e true).
Proof.
  unfold anonymize_step.
  rewrite (proj1 (mark_marked e)). cbn [set_anonymized Entity.anonymized].
  unfold splice. rewrite replacement_of_mark.
  destruct (mark_span e) as [-> ->]. reflexivity.
Qed.

Lemma anonymize_text_mark txt es :
  anonymize_text txt (map mark es)
  = anonymize_text txt (map (fun e => set_anonymized e true) es).
Proof.
  unfold anonymize_text.
  rewrite (sorted_desc_map start_pos mark)
    by (intros e; apply (proj1 (mark_span e))).
  rewrite (sorted_desc_map start_pos (fun e => set_anonymized e true))
    by reflexivity.
  apply fold_anonymize_step_map. intros e w. apply anonymize_step_mark.
Qed.

Lemma filter_unmarked es :
  filter anonymized (map (fun e => set_anonymized e false) es) = [].
Proof. induction es; cbn; auto. Qed.

(** *** Indexing *)

Lemma position_index {A} (l : list A) i :
  match position l i with
  | Some k => (k < length l)%nat /\ index l i = nth_error l k
  | None => index l i = None
  end.
Proof.
  unfold position, index.
  destruct ((0 <=? i) && (i <? Z.of_nat (length l))) eqn:E1.
  - apply andb_prop in E1 as [H0 H1].
    apply Z.leb_le in H0. apply Z.ltb_lt in H1. split; [lia | reflexivity].
  - destruct ((- Z.of_nat (length l) <=? i) && (i <? 0)) eqn:E2.
    + apply andb_prop in E2 as [H0 H1].
      apply Z.leb_le in H0. apply Z.ltb_lt in H1. split; [lia | reflexivity].
    + reflexivity.
Qed.

Lemma position_length {A B} (l : list A) (l' : list B) i :
  length l = length l' -> position l i = position l' i.
Proof. unfold position. now intros ->. Qed.

Lemma index_position {A} (l : list A) i k :
  position l i = Some k -> exists x, nth_error l k = Some x /\ index l i = Some x.
Proof.
  intros Hk. pose proof (position_index l i) as H. rewrite Hk in H.
  destruct H as [Hlt Hi].
  destruct (nth_error l k) as [x|] eqn:E.
  - exists x. split; [reflexivity | exact Hi].
  - apply nth_error_None in E. lia.
Qed.

Lemma set_anonymized_negb_twice e :
  set_anonymized (set_anonymized e (negb (anonymized e)))
                 (negb (anonymized (set_anonymized e (negb (anonymized e)))))
  = e.
Proof. destruct e as [tx ty s en a r pid ad]. cbn. now rewrite negb_involutive. Qed.

End TableFacts.
Import TableFacts.

(* ================================================================== *)
(** ** The detection run *)
(* ================================================================== *)

Import DetectionSpec.

Module DetectionFacts.

Lemma recognized_initialized finditer stanza nlp txt :
  recognized finditer stanza (initialized stanza nlp) txt
  = recognized finditer stanza nlp txt.
Proof.
  unfold recognized.
  rewrite !extract_entities_initialized, initialized_stable.
  reflexivity.
Qed.

Lemma extract_entities_recognized finditer stanza nlp txt :
  extract_entities finditer stanza nlp txt
  = Returns (initialized stanza nlp, recognized finditer stanza nlp txt).
Proof.
  unfold recognized.
  destruct (extract_entities_returns finditer stanza nlp txt) as [es E].
  now rewrite E.
Qed.

Lemma detected_initialized finditer stanza nlp ps :
  detected finditer stanza (initialized stanza nlp) ps
  = detected finditer stanza nlp ps.
Proof.
  unfold detected. apply flat_map_ext. intros p.
  now rewrite recognized_initialized.
Qed.

(** The loop never meets an exception and collects the entities of the
    paragraphs in order. *)
Lemma detect_loop_spec finditer stanza ps : forall nlp collected,
  detect_loop finditer stanza nlp collected ps
  = (match ps with [] => nlp | _ :: _ => initialized stanza nlp end,
     collected ++ detected finditer stanza nlp ps, None).
Proof.
  induction ps as [|p ps IH]; intros nlp collected.
  - cbn. now rewrite app_nil_r.
  - cbn [detect_loop]. rewrite extract_entities_recognized, IH.
    unfold detected at 2. cbn [flat_map]. fold (detected finditer stanza nlp ps).
    rewrite detected_initialized, <- app_assoc.
    destruct ps; [reflexivity|]. now rewrite initialized_stable.
Qed.

Lemma recognized_fresh finditer stanza nlp txt :
  Forall fresh (recognized finditer stanza nlp txt).
Proof.
  eapply extract_entities_fresh. apply extract_entities_recognized.
Qed.

Lemma detected_In finditer stanza nlp ps e :
  In e (detected finditer stanza nlp ps)
  <-> exists p e0, In p ps
                   /\ In e0 (recognized finditer stanza nlp (Paragraph.text p))
                   /\ e = set_paragraph_id e0 (Paragraph.id p).
Proof.
  unfold detected. rewrite in_flat_map. split.
  - intros [p [Hp He]]. apply in_map_iff in He as [e0 [<- He0]]. eauto.
  - intros [p [e0 [Hp [He0 ->]]]]. exists p. split; [exact Hp|].
    apply (in_map (fun e => set_paragraph_id e (Paragraph.id p))). exact He0.
Qed.

Lemma recognized_fallback finditer stanza nlp txt :
  nlp_pipeline (initialized stanza nlp) = None ->
  recognized finditer stanza nlp txt = _extract_entities_regex finditer txt.
Proof.
  intros Hnone. unfold recognized.
  rewrite extract_entities_initialized, Hnone. reflexivity.
Qed.

(** A run on a transcript with paragraphs. *)
Lemma detect_entities_runs finditer stanza nlp st :
  AppState.paragraphs st <> [] ->
  _detect_entities finditer stanza nlp st
  = (initialized stanza nlp,
     AppState.set_entities st
       (detected finditer stanza nlp (AppState.paragraphs st)),
     (DetectionComplete
        (Z.of_nat (length (detected finditer stanza nlp
                                    (AppState.paragraphs st)))),
      positive)).
Proof.
  intros Hps. unfold _detect_entities. rewrite detect_loop_spec.
  destruct (AppState.paragraphs st) as [|p ps] eqn:E; [contradiction|].
  reflexivity.
Qed.

Lemma detected_unmarked finditer stanza nlp ps :
  Forall (unmarked_of ps) (detected finditer stanza nlp ps).
Proof.
  apply Forall_forall. intros e He.
  apply detected_In in He as [q [e0 [Hq [He0 ->]]]].
  pose proof (recognized_fresh finditer stanza nlp (Paragraph.text q)) as Hf.
  rewrite Forall_forall in Hf. destruct (Hf e0 He0) as [Ha [Hr _]].
  split; [exact Ha|]. split; [exact Hr|]. exists q. split; [exact Hq|].
  reflexivity.
Qed.
End DetectionFacts.
Import DetectionFacts.

(* ================================================================== *)
(** ** The search box *)
(* ================================================================== *)

Module SearchFacts.

Lemma len_slice_le (t : str) i j :
  0 <= i -> 0 <= j -> len (slice t i j) <= Z.max 0 (j - i).
Proof.
  intros Hi Hj. unfold slice, clip.
  pose proof (len_nonneg t) as Hn.
  replace (i <? 0) with false by (symmetry; apply Z.ltb_ge; lia).
  replace (j <? 0) with false by (symmetry; apply Z.ltb_ge; lia).
  unfold len in *. rewrite length_firstn, length_skipn. lia.
Qed.

Section Ordered.
Context {A B : Type} (g : Z * A -> list B) (idx : B -> Z).
Hypothesis g_idx : forall i a b, In b (g (i, a)) -> idx b = i.
Hypothesis g_one : forall ia, (length (g ia) <= 1)%nat.

Lemma flat_map_enumerate_ge l : forall k b,
  In b (flat_map g (enumerate_from k l)) -> k <= idx b.
Proof.
  induction l as [|a l IH]; intros k b; cbn [enumerate_from flat_map];
    [intros []|].
  rewrite in_app_iff. intros [H | H].
  - apply g_idx in H. lia.
  - apply IH in H. lia.
Qed.

Lemma flat_map_enumerate_ordered l : forall k,
  ForallOrdPairs (fun a b => idx a < idx b) (flat_map g (enumerate_from k l)).
Proof.
  induction l as [|a l IH]; intros k; cbn [enumerate_from flat_map];
    [constructor|].
  apply ForallOrdPairs_app.
  - pose proof (g_one (k, a)). destruct (g (k, a)) as [|b [|]];
      cbn in *; try lia; repeat constructor.
  - apply IH.
  - intros x y Hx Hy. apply g_idx in Hx.
    apply flat_map_enumerate_ge in Hy. lia.
Qed.
End Ordered.

(** One paragraph of the search. *)
Lemma search_text_unfold ui input :
  strip input <> [] ->
  search_text ui input
  = flat_map
      (fun ip : Z * Paragraph.t =>
         if contains (lower (Paragraph.text (snd ip))) (lower (strip input))
         then [mkSearchMatch (fst ip)
                 (slice (Paragraph.text (snd ip))
                    (Z.max 0 (str_find (lower (Paragraph.text (snd ip)))
                                       (lower (strip input)) 0 - 30))
                    (Z.min (len (Paragraph.text (snd ip)))
                       (str_find (lower (Paragraph.text (snd ip)))
                                 (lower (strip input)) 0
                        + len (strip input) + 30)))
                 (str_find (lower (Paragraph.text (snd ip)))
                           (lower (strip input)) 0)]
         else [])
      (enumerate (AppState.paragraphs (app_state ui))).
Proof.
  intros Hne. unfold search_text.
  apply truthy_nonempty in Hne. rewrite Hne. cbn [negb].
  apply flat_map_ext. intros [i para]. reflexivity.
Qed.

Lemma search_text_blank ui input : strip input = [] -> search_text ui input = [].
Proof. intros H. unfold search_text. now rewrite H. Qed.

Lemma contains_found t sub :
  contains t sub = true -> 0 <= str_find t sub 0 <= len t.
Proof.
  unfold contains. intros H. apply negb_true_iff, Z.eqb_neq in H.
  now destruct (str_find_first t sub _ eq_refl H).
Qed.
End SearchFacts.
Import SearchFacts.

(* ================================================================== *)
(** ** The manual insertion paths: cases, positions, lower-casing *)
(* ================================================================== *)

Import InsertionSpec2.

Module InsertionFacts2.

(** The four ways a bulk insert ends. *)
Lemma add_entity_without_search_cases ui entity_text K R :
  let T := strip entity_text in
  let es0 := AppState.entities (app_state ui) in
  let targets := bulk_targets es0 T (AppState.paragraphs (app_state ui)) in
  let result := _add_entity_without_search ui entity_text K R in
  (T = [] /\ result = notify ui EntityTextEmpty warning)
  \/ (T <> [] /\ (exists e, In e es0 /\ lower (text e) = lower T)
      /\ result = notify ui (EntityAlreadyExists T) warning)
  \/ (T <> [] /\ (forall e, In e es0 -> lower (text e) <> lower T)
      /\ targets = []
      /\ result = notify (set_entities ui (es0 ++ [general_entity T K R]))
                         (AddedGeneralEntity K T) info)
  \/ (T <> [] /\ (forall e, In e es0 -> lower (text e) <> lower T)
      /\ targets <> []
      /\ result = notify (set_entities ui
                            (es0 ++ map (target_entity T K R) targets))
                         (AddedEntities (Z.of_nat (length targets)) K T)
                         positive).
Proof.
  intros T es0 targets result. subst T es0 targets result.
  destruct (strip entity_text) as [|c r] eqn:ET.
  { left. split; [reflexivity|]. unfold _add_entity_without_search.
    rewrite ET. cbn [truthy negb]. now rewrite orb_true_r. }
  assert (Hne : strip entity_text <> []) by (rewrite ET; discriminate).
  rewrite <- ET in *. clear ET c r. right.
  destruct (find (fun e => str_eqb (lower (text e)) (lower (strip entity_text)))
                 (AppState.entities (app_state ui))) as [e|] eqn:F.
  - left. split; [exact Hne|].
    pose proof (find_some _ _ F) as [Hin He]. apply str_eqb_eq in He.
    split; [eauto|].
    unfold _add_entity_without_search.
    rewrite (proj2 (blank_guard entity_text) Hne), F. reflexivity.
  - right.
    assert (Hnodup : forall e, In e (AppState.entities (app_state ui)) ->
                               lower (text e) <> lower (strip entity_text)).
    { intros e He. apply str_eqb_neq. exact (find_none _ _ F e He). }
    pose proof (add_entity_without_search_runs ui entity_text K R Hne Hnodup)
      as Hruns. cbv zeta in Hruns.
    destruct (bulk_targets _ _ _) as [|tg tgs] eqn:ETg.
    + left. auto.
    + right. split; [exact Hne|]. split; [exact Hnodup|].
      split; [discriminate | exact Hruns].
Qed.

(** The ways a single insert ends. *)
Lemma create_entity_from_match_cases ui T K R m :
  let pid := match_paragraph_id m in
  let es0 := AppState.entities (app_state ui) in
  let result := _create_entity_from_match ui T K R m in
  (index (AppState.paragraphs (app_state ui)) pid = None
   /\ result = Raises (lit "IndexError"))
  \/ (exists msg, result = Returns (notify ui msg warning))
  \/ (exists para,
        index (AppState.paragraphs (app_state ui)) pid = Some para
        /\ find (in_paragraph pid) es0 = None
        /\ result
           = Returns
               (notify
                  (set_entities ui
                     (es0 ++ [match_entity T K R pid (Paragraph.text para)
                                (str_find (lower (Paragraph.text para))
                                          (lower T) 0)]))
                  (AddedEntityInParagraph K
                     (slice (Paragraph.text para)
                        (str_find (lower (Paragraph.text para)) (lower T) 0)
                        (str_find (lower (Paragraph.text para)) (lower T) 0
                         + len T))
                     (pid + 1))
                  positive)).
Proof.
  intros pid es0 result. subst pid es0 result.
  unfold _create_entity_from_match.
  destruct (index _ (match_paragraph_id m)) as [para|]; [|left; auto].
  right.
  destruct (str_find _ _ 0 =? -1); [left; eauto|].
  destruct (find _ _) eqn:F; [left; eauto|].
  right. exists para. auto.
Qed.

(** *** Positions *)

Lemma positions_app es es' : positions (es ++ es') = positions es ++ positions es'.
Proof. unfold positions. apply flat_map_app. Qed.

Lemma positions_In es i p : In (i, p) (positions es) <-> taken es i p.
Proof.
  unfold positions, taken. rewrite in_flat_map. split.
  - intros [e [He Hip]]. exists e. split; [exact He|].
    destruct (paragraph_id e) as [j|]; [|destruct Hip].
    destruct Hip as [[= -> ->] | []]. auto.
  - intros [e [He [Hi Hp]]]. exists e. split; [exact He|].
    rewrite Hi, Hp. now left.
Qed.

Lemma positions_targets T K R targets :
  positions (map (target_entity T K R) targets)
  = map (fun tg => (fst (fst tg), snd tg)) targets.
Proof.
  induction targets as [|tg tgs IH]; [reflexivity|].
  cbn [map]. change (positions (?e :: ?l)) with (positions [e] ++ positions l).
  rewrite IH. reflexivity.
Qed.

Lemma ForallOrdPairs_NoDup_map {A B} (R : A -> A -> Prop) (f : A -> B) l :
  (forall a b, R a b -> f a <> f b) ->
  ForallOrdPairs R l -> NoDup (map f l).
Proof.
  intros HR. induction 1 as [|x l Hx Hl IH]; cbn; constructor; auto.
  intros Hin. apply in_map_iff in Hin as [y [Hy Hyl]].
  rewrite Forall_forall in Hx. exact (HR _ _ (Hx y Hyl) (eq_sym Hy)).
Qed.

Lemma bulk_targets_positions es T ps :
  NoDup (map (fun tg : Z * Paragraph.t * Z => (fst (fst tg), snd tg))
             (bulk_targets es T ps)).
Proof.
  apply (ForallOrdPairs_NoDup_map target_before);
    [|apply bulk_targets_ordered].
  intros a b Hab E. injection E as E1 E2.
  unfold target_before in Hab. lia.
Qed.

(** *** Lower-casing without U+0130 and U+03A3 *)

Lemma lower_char_single c :
  c <> 304%N -> lower_char c = [lower_in lower_table c].
Proof.
  intros Hc. unfold lower_char.
  now destruct (N.eqb_spec c 304).
Qed.

Lemma lower_from_length t :
  dotless t -> forall before, length (lower_from before t) = length t.
Proof.
  induction 1 as [|c t Hc Hd IH]; intros before; [reflexivity|].
  cbn [lower_from]. rewrite length_app, IH.
  destruct (c =? 931)%N; [reflexivity|].
  now rewrite (lower_char_single c Hc).
Qed.

Lemma lower_length t : dotless t -> length (lower t) = length t.
Proof. intros H. now apply lower_from_length. Qed.

Lemma len_lower t : dotless t -> len (lower t) = len t.
Proof. intros H. unfold len. now rewrite lower_length. Qed.

Lemma lower_from_pointwise t :
  dotless t -> sigmaless t ->
  forall before, lower_from before t = map (lower_in lower_table) t.
Proof.
  induction 1 as [|c t Hc Hd IH]; intros Hs before; [reflexivity|].
  inversion Hs as [|? ? Hc' Hs']; subst.
  cbn [lower_from map]. rewrite (IH Hs').
  destruct (N.eqb_spec c 931); [contradiction|].
  now rewrite (lower_char_single c Hc).
Qed.

Lemma lower_pointwise t :
  dotless t -> sigmaless t -> lower t = map (lower_in lower_table) t.
Proof. intros Hd Hs. now apply lower_from_pointwise. Qed.

Lemma Forall_firstn_of {A} (P : A -> Prop) n (l : list A) :
  Forall P l -> Forall P (firstn n l).
Proof.
  rewrite !Forall_forall. intros H c Hc.
  apply H. rewrite <- (firstn_skipn n l). apply in_or_app. now left.
Qed.

Lemma Forall_skipn_of {A} (P : A -> Prop) n (l : list A) :
  Forall P l -> Forall P (skipn n l).
Proof.
  rewrite !Forall_forall. intros H c Hc.
  apply H. rewrite <- (firstn_skipn n l). apply in_or_app. now right.
Qed.

Lemma lower_firstn t n :
  dotless t -> sigmaless t -> lower (firstn n t) = firstn n (lower t).
Proof.
  intros Hd Hs.
  rewrite (lower_pointwise t Hd Hs), firstn_map.
  apply lower_pointwise; now apply Forall_firstn_of.
Qed.

Lemma lower_skipn t n :
  dotless t -> sigmaless t -> lower (skipn n t) = skipn n (lower t).
Proof.
  intros Hd Hs.
  rewrite (lower_pointwise t Hd Hs), skipn_map.
  apply lower_pointwise; now apply Forall_skipn_of.
Qed.

Lemma lower_slice t i j :
  dotless t -> sigmaless t -> lower (slice t i j) = slice (lower t) i j.
Proof.
  intros Hd Hs. unfold slice. rewrite (len_lower t Hd).
  rewrite lower_firstn by (now apply Forall_skipn_of).
  now rewrite lower_skipn.
Qed.


(** On paragraphs without U+0130 and U+03A3 a bulk-insert entity carries
    the search text up to case. *)
Lemma target_entity_text es T K R ps tg :
  In tg (bulk_targets es T ps) ->
  dotless (Paragraph.text (snd (fst tg))) ->
  sigmaless (Paragraph.text (snd (fst tg))) ->
  dotless T ->
  lower (text (target_entity T K R tg)) = lower T.
Proof.
  intros Hin Hd Hs HT. destruct tg as [[i para] p]. cbn [fst snd] in *.
  apply bulk_targets_iff in Hin as [_ [_ [[Hp0 [Hp1 Hocc]] _]]].
  unfold target_entity, occurrence_entity. cbn [fst snd Entity.text].
  rewrite lower_slice by assumption.
  rewrite (len_lower T HT) in Hocc. exact Hocc.
Qed.

(** The offsets listed by [occurrences_in_text]. *)
Lemma occurrences_in_text_In T txt p :
  In p (occurrences_in_text T txt)
  <-> 0 <= p /\ p + len T <= len txt
      /\ lower (slice txt p (p + len T)) = lower T.
Proof.
  unfold occurrences_in_text.
  rewrite filter_In, offsets_In, andb_true_iff, Z.leb_le, str_eqb_eq.
  assert (H0 : 0 <= len T) by (unfold len; lia).
  split.
  - intros [[Hp _] [Hle E]]. auto.
  - intros [Hp [Hle E]]. split; [lia | auto].
Qed.

(** Where the paragraph has neither U+0130 nor U+03A3 and the search text
    no U+0130, the lower-cased search text is found at an offset of the
    lower-cased copy exactly when the text occurs at that offset of the
    paragraph itself: there the manual insertion paths create their
    entities at the occurrences of the text. *)
Lemma occurs_ci_in_text T txt p :
  dotless txt -> sigmaless txt -> dotless T ->
  occurs_ci T txt p <-> In p (occurrences_in_text T txt).
Proof.
  intros Hd Hs HT. rewrite occurrences_in_text_In. unfold occurs_ci.
  rewrite (len_lower T HT), (len_lower txt Hd).
  now rewrite lower_slice by assumption.
Qed.

(** [lower] on capital sigma, on the Kelvin sign and on a capital of the
    Latin Extended-A block. *)
Lemma lower_examples :
  lower [913; 931]%N = [945; 962]%N
  /\ lower [913; 931; 914]%N = [945; 963; 946]%N
  /\ lower [931]%N = [963]%N
  /\ lower [913; 39; 931; 46]%N = [945; 39; 962; 46]%N
  /\ lower [8490]%N = [107]%N
  /\ lower [352; 338]%N = [353; 339]%N
  /\ lower [304]%N = [105; 775]%N.
Proof. split_all; by_computation. Qed.

End InsertionFacts2.
Import InsertionFacts2.

(* ================================================================== *)
(** ** Speakers, sentiments and coding schemes *)
(* ================================================================== *)

Import LabelSpec.

Module LabelFacts.

Lemma ids_renumbered (kept : list Paragraph.t) :
  ids_are_positions
    (map (fun ip => set_id (snd ip) (fst ip)) (enumerate kept)).
Proof.
  unfold ids_are_positions, enumerate.
  rewrite map_map, length_map, length_enumerate_from.
  cbn [Paragraph.id set_id].
  change 0 with (Z.of_nat 0). now rewrite <- enumerate_from_fst.
Qed.

Lemma renumbered_same (kept : list Paragraph.t) : forall k,
  Forall2 same_but_id
          (map (fun ip => set_id (snd ip) (fst ip)) (enumerate_from k kept))
          kept.
Proof.
  induction kept as [|p kept IH]; intros k; cbn; constructor; auto.
  reflexivity.
Qed.

Lemma renumbered_texts (kept : list Paragraph.t) : forall k,
  map Paragraph.text
      (map (fun ip => set_id (snd ip) (fst ip)) (enumerate_from k kept))
  = map Paragraph.text kept.
Proof.
  induction kept as [|p kept IH]; intros k; cbn; [reflexivity|].
  now rewrite IH.
Qed.

(** A text without a backslash is one piece of the keyword split. *)
Lemma split_go_no_backslash txt : forall cur,
  Forall (fun c => c <> 92%N) txt ->
  split_go EncodingSection.keyword_separator txt cur O = [rev cur ++ txt].
Proof.
  induction txt as [|c txt IH]; intros cur H.
  - cbn. now rewrite app_nil_r.
  - inversion H as [|? ? Hc H']; subst.
    cbn [split_go]. unfold EncodingSection.keyword_separator at 1.
    cbn [startswith]. unfold char_eqb.
    destruct (N.eqb_spec 92 c) as [E|E]; [congruence|]. cbn [andb].
    rewrite IH by exact H'. cbn [rev]. now rewrite <- app_assoc.
Qed.
End LabelFacts.
Import LabelFacts.

Module DropFacts.
Import SpeakersSection.

Lemma filter_negb_all {A} (f : A -> bool) l :
  filter f l = [] -> filter (fun x => negb (f x)) l = l.
Proof.
  induction l as [|x l IH]; cbn; [reflexivity|].
  destruct (f x); [discriminate|]. cbn. intros H. now rewrite IH.
Qed.

Lemma filter_negb_some {A} (f : A -> bool) l :
  filter f l <> [] -> filter (fun x => negb (f x)) l <> l.
Proof.
  intros Hne E. apply Hne. clear Hne.
  induction l as [|x l IH]; [reflexivity|]. cbn in *.
  destruct (f x) eqn:Fx; cbn in E.
  - exfalso.
    pose proof (filter_length_le (fun x => negb (f x)) l) as Hle.
    rewrite E in Hle. cbn in Hle. lia.
  - injection E as E. auto.
Qed.

Lemma Forall2_same_refl l : Forall2 same_but_id l l.
Proof. induction l; constructor; auto. reflexivity. Qed.

(** What the removal leaves when there is a therapist paragraph. *)
Lemma drop_therapist_runs st :
  filter is_therapist (AppState.paragraphs st) <> [] ->
  _drop_therapist_paragraphs st
  = let kept := filter (fun p => negb (is_therapist p))
                       (AppState.paragraphs st) in
    let paragraphs := map (fun ip => set_id (snd ip) (fst ip))
                          (enumerate kept) in
    (AppState.mk (AppState.original_transcript st)
                 (str_join [AppState.LF; AppState.LF]
                           (map Paragraph.text paragraphs))
                 paragraphs (AppState.entities st),
     (RemovedTherapistParagraphs
        (Z.of_nat (length (filter is_therapist (AppState.paragraphs st))))
        (Z.of_nat (length paragraphs)),
      positive)).
Proof.
  intros Hne. unfold _drop_therapist_paragraphs.
  destruct (AppState.paragraphs st) as [|p ps] eqn:E; [now cbn in Hne|].
  destruct (filter is_therapist (p :: ps)) as [|q qs] eqn:F; [contradiction|].
  replace (Z.of_nat (length (q :: qs)) =? 0) with false; [reflexivity|].
  symmetry. apply Z.eqb_neq. cbn [length]. lia.
Qed.

Lemma drop_therapist_idle st :
  filter is_therapist (AppState.paragraphs st) = [] ->
  fst (_drop_therapist_paragraphs st) = st.
Proof.
  intros Hnone. unfold _drop_therapist_paragraphs.
  destruct (AppState.paragraphs st) as [|p ps] eqn:E; [reflexivity|].
  now rewrite Hnone.
Qed.
End DropFacts.
Import DropFacts.

(* ================================================================== *)
(** ** Saving and loading the state *)
(* ================================================================== *)

Import Persistence.

Module PersistenceFacts.

Lemma read_all_as_str l : read_all as_str (map PyValue.Str l) = Read l.
Proof. induction l as [|x l IH]; cbn; [reflexivity|]. now rewrite IH. Qed.

Lemma load_entity_dict e : load_entity (entity_dict e) = Read (plain e).
Proof. reflexivity. Qed.

Lemma read_all_entities es :
  read_all load_entity (map entity_dict es) = Read (map plain es).
Proof.
  induction es as [|e es IH]; [reflexivity|].
  cbn [map read_all]. rewrite load_entity_dict, IH. reflexivity.
Qed.

Lemma load_paragraph_dict p :
  load_paragraph (paragraph_dict p) = Read (plain_paragraph p).
Proof.
  unfold load_paragraph, paragraph_dict.
  cbn. rewrite read_all_entities. cbn.
  rewrite read_all_as_str. reflexivity.
Qed.

Lemma read_all_paragraphs ps :
  read_all load_paragraph (map paragraph_dict ps)
  = Read (map plain_paragraph ps).
Proof.
  induction ps as [|p ps IH]; [reflexivity|].
  cbn [map read_all]. rewrite load_paragraph_dict, IH. reflexivity.
Qed.

Lemma load_scheme_dict s : load_scheme (scheme_dict s) = Read s.
Proof.
  destruct s as [i title keywords]. unfold load_scheme, scheme_dict. cbn.
  rewrite read_all_as_str. reflexivity.
Qed.

Lemma read_all_schemes schemes :
  read_all load_scheme (map scheme_dict schemes) = Read schemes.
Proof.
  induction schemes as [|s schemes IH]; [reflexivity|].
  cbn [map read_all]. rewrite load_scheme_dict, IH. reflexivity.
Qed.

Lemma plain_fixed e :
  paragraph_id e = None -> auto_detected e = None -> plain e = e.
Proof. destruct e; cbn; intros -> ->; reflexivity. Qed.

Lemma map_fixed {A} (f : A -> A) l : Forall (fun x => f x = x) l -> map f l = l.
Proof. induction 1; cbn; congruence. Qed.
End PersistenceFacts.
Import PersistenceFacts.

(* ================================================================== *)
(** * Further properties *)
(* ================================================================== *)

(** X1.  The output of [anonymize_text] does not depend on the order in
    which the entities are listed, as long as the marked entities have
    pairwise distinct start positions: any permutation of the list gives
    the same text. *)
Theorem anonymize_text_order_independent :
  forall txt entities entities',
    Permutation entities entities' ->
    NoDup (map start_pos (filter anonymized entities)) ->
    anonymize_text txt entities = anonymize_text txt entities'.
Proof.
  intros txt entities entities' Hp Hnd. rewrite !anonymize_text_marked.
  f_equal. apply sorted_desc_permutation; [|exact Hnd].
  now apply Permutation_filter_both.
Qed.

(** X1 at the entities of Alice and Bob, listed in both orders. *)
Lemma anonymize_text_order_independent_witness :
  Permutation [alice_x; bob_z] [bob_z; alice_x]
  /\ NoDup (map start_pos (filter anonymized [alice_x; bob_z]))
  /\ anonymize_text alice_met_bob [alice_x; bob_z]
     = anonymize_text alice_met_bob [bob_z; alice_x].
Proof.
  assert (Hp : Permutation [alice_x; bob_z] [bob_z; alice_x])
    by apply perm_swap.
  assert (Hnd : NoDup (map start_pos (filter anonymized [alice_x; bob_z]))).
  { cbn. constructor; [cbn; intros [E | []]; discriminate|].
    constructor; [intros []|constructor]. }
  split_all; [exact Hp | exact Hnd |].
  exact (anonymize_text_order_independent alice_met_bob _ _ Hp Hnd).
Defined.

(** X2.  When the marked entities have valid offsets and are separated,
    the length of the output of [anonymize_text] is the length of the text
    plus, for each marked entity, the length of its replacement minus the
    length of its span. *)
Theorem anonymize_text_length :
  forall txt entities,
    Forall (valid_span txt) (filter anonymized entities) ->
    ForallOrdPairs separated (filter anonymized entities) ->
    len (anonymize_text txt entities)
    = len txt + sum_Z (map growth (filter anonymized entities)).
Proof.
  intros txt entities Hvalid Hsep.
  rewrite anonymize_text_rebuild by assumption.
  set (marked := filter anonymized entities) in *.
  assert (Hperm : Permutation (rev (sorted_desc start_pos marked)) marked).
  { rewrite <- Permutation_rev. apply sorted_desc_perm. }
  unfold rebuild. rewrite len_rebuild_upto.
  - rewrite (sum_Z_perm _ _ (Permutation_map growth Hperm)). lia.
  - lia.
  - lia.
  - rewrite Forall_forall in *. intros e He.
    apply (Permutation_in _ Hperm) in He.
    specialize (Hvalid e He). unfold valid_span in Hvalid. lia.
  - pose proof (processing_order txt marked Hvalid Hsep) as Hord.
    apply ForallOrdPairs_rev in Hord. exact Hord.
  - apply len_nonneg.
Qed.

(** X2 at the entities of Alice and Bob with replacements of lengths 1
    and 8. *)
Lemma anonymize_text_length_witness :
  Forall (valid_span alice_met_bob) (filter anonymized [alice_x; bob_z])
  /\ ForallOrdPairs separated (filter anonymized [alice_x; bob_z])
  /\ len (anonymize_text alice_met_bob [alice_x; bob_z]) = 13 + (-4 + (5 + 0)).
Proof.
  assert (Hv : Forall (valid_span alice_met_bob)
                      (filter anonymized [alice_x; bob_z])).
  { cbn. repeat constructor; cbn; lia. }
  assert (Hs : ForallOrdPairs separated (filter anonymized [alice_x; bob_z])).
  { cbn. repeat constructor; cbn; lia. }
  split_all; [exact Hv | exact Hs |].
  exact (anonymize_text_length alice_met_bob [alice_x; bob_z] Hv Hs).
Defined.

(** X3.  [_map_stanza_entity_type] is idempotent: mapping a mapped type
    changes nothing.  A type that is no key of the table is returned as
    it is, and every result is one of the ten types of the application or
    the argument itself. *)
Theorem map_stanza_entity_type_idempotent :
  forall stanza_type,
    _map_stanza_entity_type (_map_stanza_entity_type stanza_type)
    = _map_stanza_entity_type stanza_type
    /\ ((forall kv, In kv stanza_type_mapping -> fst kv <> stanza_type) ->
        _map_stanza_entity_type stanza_type = stanza_type)
    /\ (In (_map_stanza_entity_type stanza_type) standard_types
        \/ _map_stanza_entity_type stanza_type = stanza_type).
Proof.
  intros stanza_type.
  assert (Hcases :
    (exists kv, In kv stanza_type_mapping /\ fst kv = stanza_type
                /\ _map_stanza_entity_type stanza_type = snd kv)
    \/ ((forall kv, In kv stanza_type_mapping ->
                    str_eqb (fst kv) stanza_type = false)
        /\ _map_stanza_entity_type stanza_type = stanza_type)).
  { unfold _map_stanza_entity_type.
    destruct (find _ stanza_type_mapping) as [kv|] eqn:F.
    - left. apply find_some in F as [Hin E]. apply str_eqb_eq in E. eauto.
    - right. split; [|reflexivity].
      intros kv Hin. exact (find_none _ _ F kv Hin). }
  destruct Hcases as [[kv [Hin [Hk Hv]]] | [Hnone Hid]].
  - destruct (map_stanza_entity_type_table kv Hin) as [Hfix Hstd].
    split_all.
    + rewrite Hv. exact Hfix.
    + intros Hno. exfalso. exact (Hno kv Hin Hk).
    + left. rewrite Hv. exact Hstd.
  - split_all.
    + now rewrite Hid.
    + intros _. exact Hid.
    + now right.
Qed.

(** X3 at a type the table does not list. *)
Lemma map_stanza_entity_type_idempotent_witness :
  (forall kv, In kv stanza_type_mapping -> fst kv <> lit "NORP")
  /\ _map_stanza_entity_type (lit "NORP") = lit "NORP".
Proof.
  assert (H : forall kv, In kv stanza_type_mapping -> fst kv <> lit "NORP").
  { intros kv Hin. unfold stanza_type_mapping in Hin.
    repeat (destruct Hin as [<- | Hin]; [discriminate|]). destruct Hin. }
  split; [exact H|].
  exact (proj1 (proj2 (map_stanza_entity_type_idempotent (lit "NORP"))) H).
Defined.

(** X4.  The model is loaded at most once.  The service returned by a
    call of [extract_entities] is left unchanged by every later call, and
    the result of a later call does not depend on what [stanza] would
    answer: the initialisation is not attempted again, whether or not the
    first attempt gave a pipeline. *)
Theorem extract_entities_initializes_once :
  forall finditer stanza st txt st' entities,
    extract_entities finditer stanza st txt = Returns (st', entities) ->
    forall stanza' txt',
      extract_entities finditer stanza' st' txt'
      = extract_entities finditer stanza st' txt'
      /\ exists entities',
           extract_entities finditer stanza' st' txt' = Returns (st', entities').
Proof.
  intros finditer stanza st txt st' entities H stanza' txt'.
  apply extract_entities_state in H. subst st'.
  split.
  - rewrite !extract_entities_initialized, !initialized_stable. reflexivity.
  - destruct (extract_entities_returns finditer stanza'
                (initialized stanza st) txt') as [entities' E].
    rewrite initialized_stable in E. eauto.
Qed.

(** X4 at a service that could load no model: a later call, made when
    the model could be loaded, still uses the regex fallback. *)
Lemma extract_entities_initializes_once_witness :
  extract_entities recorded_finditer stanza_missing (init None false) bob_paid
  = Returns (initialized stanza_missing (init None false),
             [Entity.new (lit "Bob paid") (lit "PERSON") 0 8;
              Entity.new (lit "$5") (lit "MONEY") 9 11])
  /\ extract_entities recorded_finditer stanza_broken
       (initialized stanza_missing (init None false)) bob_paid
     = extract_entities recorded_finditer stanza_missing
         (initialized stanza_missing (init None false)) bob_paid.
Proof.
  assert (H : extract_entities recorded_finditer stanza_missing
                (init None false) bob_paid
              = Returns (initialized stanza_missing (init None false),
                         [Entity.new (lit "Bob paid") (lit "PERSON") 0 8;
                          Entity.new (lit "$5") (lit "MONEY") 9 11]))
    by (vm_compute; reflexivity).
  split; [exact H|].
  exact (proj1 (extract_entities_initializes_once _ _ _ _ _ _ H
                  stanza_broken bob_paid)).
Defined.

(** X5.  Entities of the regex fallback.  Whenever the regex engine
    returns spans that lie in the searched text, every entity of
    [_extract_entities_regex] satisfies the offset validity of the data
    model for that text.  For any engine, the entities are not marked and
    carry no replacement, their type is one of the seven pattern names,
    and no PERSON entity is one of the ten stop words up to case. *)
Theorem regex_entities_valid :
  forall finditer txt,
    (spans_inside finditer txt ->
     Forall (offset_valid txt) (_extract_entities_regex finditer txt))
    /\ Forall fresh (_extract_entities_regex finditer txt)
    /\ (forall e, In e (_extract_entities_regex finditer txt) ->
          In (entity_type e) (map fst patterns)
          /\ (entity_type e = lit "PERSON" ->
              ~ In (lower (text e)) person_stop_words)).
Proof.
  intros finditer txt. split_all.
  - intros Hspans. apply Forall_forall. intros e He.
    eapply regex_entity_valid; eauto.
  - apply regex_entities_fresh.
  - intros e He. unfold _extract_entities_regex in He.
    apply in_flat_map in He as [kv [Hkv He]].
    apply in_flat_map in He as [m [_ He]].
    pose proof (entities_of_match_type _ _ _ _ He) as Hty.
    split.
    + rewrite Hty. now apply in_map.
    + intros Hperson. rewrite Hperson in Hty. rewrite <- Hty in He.
      eapply entities_of_match_person; eauto.
Qed.

(** X5 at the recorded matches of the text about Bob. *)
Lemma regex_entities_valid_witness :
  spans_inside recorded_finditer bob_paid
  /\ Forall (offset_valid bob_paid)
            (_extract_entities_regex recorded_finditer bob_paid).
Proof.
  assert (H : spans_inside recorded_finditer bob_paid).
  { intros pattern m. unfold recorded_finditer.
    replace (str_eqb bob_paid bob_paid) with true by reflexivity.
    destruct (str_eqb pattern _).
    - intros [<- | []]. vm_compute. intuition discriminate.
    - destruct (str_eqb pattern _).
      + intros [<- | []]. vm_compute. intuition discriminate.
      + intros []. }
  split; [exact H|].
  exact (proj1 (regex_entities_valid recorded_finditer bob_paid) H).
Defined.

(** X6.  The keyword classifiers return labels of the data model:
    [analyze_sentiment] one of positive, negative, neutral, mixed, and
    [identify_speaker] one of client, therapist, unknown.  The sentiment is
    neutral exactly when the lower-cased text contains none of the sixteen
    listed words, and it is mixed only when the text contains a positive
    and a negative word. *)
Theorem classifier_labels :
  forall txt,
    In (analyze_sentiment txt) SentimentSection.sentiments
    /\ In (identify_speaker txt) SpeakersSection.speakers
    /\ (analyze_sentiment txt = lit "neutral"
        <-> forall word, In word (positive_words ++ negative_words) ->
                         contains (lower txt) word = false)
    /\ (analyze_sentiment txt = lit "mixed" ->
        (exists w, In w positive_words /\ contains (lower txt) w = true)
        /\ (exists w, In w negative_words /\ contains (lower txt) w = true)).
Proof.
  intros txt. unfold analyze_sentiment, identify_speaker.
  pose proof (count_in_nonneg positive_words (lower txt)) as HP.
  pose proof (count_in_nonneg negative_words (lower txt)) as HN.
  pose proof (count_in_zero positive_words (lower txt)) as HP0.
  pose proof (count_in_zero negative_words (lower txt)) as HN0.
  pose proof (count_in_pos positive_words (lower txt)) as HP1.
  pose proof (count_in_pos negative_words (lower txt)) as HN1.
  set (P := count_in positive_words (lower txt)) in *.
  set (N := count_in negative_words (lower txt)) in *.
  split_all.
  - destruct (N <? P); [vm_compute; tauto|].
    destruct (P <? N); [vm_compute; tauto|].
    destruct ((0 <? P) && (0 <? N)); vm_compute; tauto.
  - destruct (_ <? _); [vm_compute; tauto|].
    destruct (_ <? _); vm_compute; tauto.
  - assert (Hall : (forall word, In word (positive_words ++ negative_words) ->
                                 contains (lower txt) word = false)
                   <-> P = 0 /\ N = 0).
    { rewrite HP0, HN0. split.
      - intros H. split; intros w Hw; apply H, in_app_iff; auto.
      - intros [H1 H2] w Hw. apply in_app_iff in Hw as [Hw | Hw]; auto. }
    rewrite Hall.
    destruct (N <? P) eqn:E1.
    { apply Z.ltb_lt in E1. split; [intros H; vm_compute in H; discriminate|lia]. }
    destruct (P <? N) eqn:E2.
    { apply Z.ltb_lt in E2. split; [intros H; vm_compute in H; discriminate|lia]. }
    apply Z.ltb_ge in E1, E2.
    destruct ((0 <? P) && (0 <? N)) eqn:E3.
    + apply andb_prop in E3 as [E3 E4]. apply Z.ltb_lt in E3, E4.
      split; [intros H; vm_compute in H; discriminate|lia].
    + split; [intros _|reflexivity].
      apply andb_false_iff in E3 as [E3 | E3]; apply Z.ltb_ge in E3; lia.
  - destruct (N <? P) eqn:E1; [intros H; vm_compute in H; discriminate|].
    destruct (P <? N) eqn:E2; [intros H; vm_compute in H; discriminate|].
    destruct ((0 <? P) && (0 <? N)) eqn:E3;
      [|intros H; vm_compute in H; discriminate].
    apply andb_prop in E3 as [E3 E4]. apply Z.ltb_lt in E3, E4.
    intros _. split; [now apply HP1 | now apply HN1].
Qed.

(** X6 at a text with one positive and one negative word. *)
Lemma classifier_labels_witness :
  analyze_sentiment (lit "I am HAPPY, not sad") = lit "mixed"
  /\ (exists w, In w positive_words
                /\ contains (lower (lit "I am HAPPY, not sad")) w = true).
Proof.
  assert (H : analyze_sentiment (lit "I am HAPPY, not sad") = lit "mixed")
    by (vm_compute; reflexivity).
  split; [exact H|].
  exact (proj1 (proj2 (proj2 (proj2 (classifier_labels _))) H)).
Defined.

(** X7.  [get_sentiment_distribution] returns a dictionary with exactly
    the four keys positive, negative, neutral, mixed, in this order; the
    value of each key is the number of paragraphs with that sentiment; a
    paragraph with any other sentiment is counted nowhere, so the values
    add up to at most the number of paragraphs, and to exactly that number
    when every paragraph has one of the four sentiments. *)
Theorem sentiment_distribution_counts :
  forall st,
    let distribution := get_sentiment_distribution st in
    PyDict.keys distribution = SentimentSection.sentiments
    /\ (forall label, In label SentimentSection.sentiments ->
          PyDict.get distribution label
          = Some (paragraphs_with_sentiment st label))
    /\ (forall label, ~ In label SentimentSection.sentiments ->
          PyDict.get distribution label = None)
    /\ sum_Z (PyDict.values distribution)
       <= Z.of_nat (length (AppState.paragraphs st))
    /\ (Forall (fun p => In (Paragraph.sentiment p) SentimentSection.sentiments)
               (AppState.paragraphs st) ->
        sum_Z (PyDict.values distribution)
        = Z.of_nat (length (AppState.paragraphs st))).
Proof.
  intros st distribution. subst distribution.
  unfold get_sentiment_distribution.
  set (initial := [(lit "positive", 0); (lit "negative", 0);
                   (lit "neutral", 0); (lit "mixed", 0)]).
  destruct (fold_count_sentiment (AppState.paragraphs st) initial)
    as [Hk [Hg Hs]].
  assert (Hmem : forall label, In label SentimentSection.sentiments ->
                               PyDict.get initial label = Some 0).
  { intros label Hin. unfold SentimentSection.sentiments in Hin. cbn in Hin.
    repeat (destruct Hin as [<- | Hin]; [reflexivity|]). destruct Hin. }
  split_all.
  - rewrite Hk. reflexivity.
  - intros label Hin. rewrite Hg, (Hmem label Hin). reflexivity.
  - intros label Hno. rewrite Hg.
    assert (PyDict.get initial label = None) as ->; [|reflexivity].
    apply get_None_keys. exact Hno.
  - rewrite Hs. cbn [initial PyDict.values map snd sum_Z fold_right].
    pose proof (filter_length_le
                  (fun p => PyDict.mem initial (Paragraph.sentiment p))
                  (AppState.paragraphs st)).
    lia.
  - intros Hall. rewrite Hs.
    rewrite forallb_filter_id.
    + cbn [initial PyDict.values map snd sum_Z fold_right]. lia.
    + apply forallb_forall. intros p Hp.
      rewrite Forall_forall in Hall. unfold PyDict.mem.
      now rewrite (Hmem _ (Hall p Hp)).
Qed.

(** X7 at two paragraphs with the default sentiment. *)
Lemma sentiment_distribution_counts_witness :
  Forall (fun p => In (Paragraph.sentiment p) SentimentSection.sentiments)
         (AppState.paragraphs (app_state ui_bob))
  /\ sum_Z (PyDict.values (get_sentiment_distribution (app_state ui_bob))) = 2.
Proof.
  assert (H : Forall (fun p => In (Paragraph.sentiment p)
                                  SentimentSection.sentiments)
                     (AppState.paragraphs (app_state ui_bob))).
  { repeat constructor; vm_compute; tauto. }
  split; [exact H|].
  exact (proj2 (proj2 (proj2 (proj2
           (sentiment_distribution_counts (app_state ui_bob))))) H).
Defined.

(** X8.  [get_coding_distribution] counts assignments: the value of a
    code is the number of times it is listed over all paragraphs, a code
    is a key exactly when some paragraph lists it, and no key is repeated.
    When no paragraph lists a code twice, the value of a code is the
    number of paragraphs that carry it. *)
Theorem coding_distribution_counts :
  forall st code,
    let distribution := get_coding_distribution st in
    PyDict.get_default distribution code 0
    = assignments code (AppState.paragraphs st)
    /\ (In code (PyDict.keys distribution)
        <-> exists p, In p (AppState.paragraphs st)
                      /\ In code (Paragraph.codes p))
    /\ NoDup (PyDict.keys distribution)
    /\ (codes_distinct st ->
        PyDict.get_default distribution code 0
        = Z.of_nat (length (filter (fun p => str_in code (Paragraph.codes p))
                                   (AppState.paragraphs st)))).
Proof.
  intros st code distribution. subst distribution.
  unfold get_coding_distribution.
  destruct (fold_paragraph_codes (AppState.paragraphs st) [] code)
    as [Hg [Hk Hnd]].
  assert (Hval : PyDict.get_default
                   (fold_left
                      (fun distribution paragraph =>
                         fold_left count_code (Paragraph.codes paragraph)
                                   distribution)
                      (AppState.paragraphs st) []) code 0
                 = assignments code (AppState.paragraphs st)).
  { rewrite Hg. unfold PyDict.get_default. cbn. lia. }
  split_all.
  - exact Hval.
  - rewrite Hk. cbn. split; [intros [H | []]; exact H | auto].
  - apply Hnd. constructor.
  - intros Hdistinct. rewrite Hval. now apply assignments_distinct.
Qed.

(** X8 at two paragraphs that both carry the code A1. *)
Lemma coding_distribution_counts_witness :
  codes_distinct MoreExamples.coded
  /\ PyDict.get_default (get_coding_distribution MoreExamples.coded)
                        (lit "A1") 0
     = 2.
Proof.
  assert (H : codes_distinct MoreExamples.coded).
  { unfold codes_distinct. cbn.
    repeat constructor; intros []. }
  split; [exact H|].
  exact (proj2 (proj2 (proj2
           (coding_distribution_counts MoreExamples.coded (lit "A1")))) H).
Defined.

(** X9.  [update_paragraph_speaker] and [update_paragraph_sentiment]
    change one paragraph at most.  An identifier that is negative or not
    below the number of paragraphs leaves the state as it is; otherwise
    the paragraph at that position gets the new label, every other
    paragraph is untouched, and nothing but the paragraph list changes. *)
Theorem update_paragraph_label_frame :
  forall st paragraph_id label,
    let st1 := update_paragraph_speaker st paragraph_id label in
    let st2 := update_paragraph_sentiment st paragraph_id label in
    (in_range st paragraph_id = false -> st1 = st /\ st2 = st)
    /\ (forall i p,
          nth_error (AppState.paragraphs st) i = Some p ->
          nth_error (AppState.paragraphs st1) i
          = Some (if in_range st paragraph_id && (Z.of_nat i =? paragraph_id)
                  then set_speaker p label else p)
          /\ nth_error (AppState.paragraphs st2) i
             = Some (if in_range st paragraph_id && (Z.of_nat i =? paragraph_id)
                     then set_sentiment p label else p))
    /\ length (AppState.paragraphs st1) = length (AppState.paragraphs st)
    /\ length (AppState.paragraphs st2) = length (AppState.paragraphs st)
    /\ AppState.set_paragraphs st1 (AppState.paragraphs st) = st
    /\ AppState.set_paragraphs st2 (AppState.paragraphs st) = st.
Proof.
  intros st paragraph_id label st1 st2. subst st1 st2.
  unfold update_paragraph_speaker, update_paragraph_sentiment.
  destruct (in_range st paragraph_id) eqn:R.
  - pose proof R as R'. unfold in_range in R'.
    apply andb_prop in R' as [R0 R1]. apply Z.leb_le in R0.
    split_all.
    + discriminate.
    + intros i p Hp. rewrite !paragraphs_update, !nth_error_update_nth, Hp.
      cbn [andb option_map].
      destruct (Nat.eqb i (Z.to_nat paragraph_id)) eqn:E.
      * apply Nat.eqb_eq in E.
        replace (Z.of_nat i =? paragraph_id) with true
          by (symmetry; apply Z.eqb_eq; lia).
        auto.
      * apply Nat.eqb_neq in E.
        replace (Z.of_nat i =? paragraph_id) with false
          by (symmetry; apply Z.eqb_neq; lia).
        auto.
    + rewrite paragraphs_update. apply length_update_nth.
    + rewrite paragraphs_update. apply length_update_nth.
    + now destruct st.
    + now destruct st.
  - split_all.
    + intros _. split; reflexivity.
    + intros i p Hp. cbn [andb]. split; exact Hp.
    + reflexivity.
    + reflexivity.
    + apply set_paragraphs_same.
    + apply set_paragraphs_same.
Qed.

(** X9 at a negative identifier, which Python's list indexing alone
    would accept. *)
Lemma update_paragraph_label_frame_witness :
  in_range (app_state ui_bob) (-1) = false
  /\ update_paragraph_speaker (app_state ui_bob) (-1) (lit "client")
     = app_state ui_bob.
Proof.
  assert (H : in_range (app_state ui_bob) (-1) = false) by reflexivity.
  split; [exact H|].
  exact (proj1 (proj1 (update_paragraph_label_frame
                         (app_state ui_bob) (-1) (lit "client")) H)).
Defined.

(** X10.  No paragraph ever carries a code twice: if the codes of every
    paragraph are pairwise distinct, they still are after
    [add_paragraph_code], after [remove_paragraph_code], and after the
    check-box handler [_toggle_paragraph_code] of the coding section. *)
Theorem paragraph_codes_stay_distinct :
  forall st paragraph_id code,
    codes_distinct st ->
    codes_distinct (add_paragraph_code st paragraph_id code)
    /\ codes_distinct (remove_paragraph_code st paragraph_id code)
    /\ (forall paragraph is_checked,
          codes_distinct
            (EncodingSection._toggle_paragraph_code st paragraph code
                                                    is_checked)).
Proof.
  assert (Hadd : forall st paragraph_id code,
             codes_distinct st ->
             codes_distinct (add_paragraph_code st paragraph_id code)).
  { intros st paragraph_id code H. unfold add_paragraph_code.
    destruct (in_range st paragraph_id); [|exact H].
    unfold codes_distinct. rewrite paragraphs_update.
    apply Forall_update_nth; [|exact H].
    intros p. apply append_code_distinct. }
  assert (Hremove : forall st paragraph_id code,
             codes_distinct st ->
             codes_distinct (remove_paragraph_code st paragraph_id code)).
  { intros st paragraph_id code H. unfold remove_paragraph_code.
    destruct (in_range st paragraph_id); [|exact H].
    unfold codes_distinct. rewrite paragraphs_update.
    apply Forall_update_nth; [|exact H].
    intros p Hp. now apply remove_code_distinct. }
  intros st paragraph_id code H. split_all; auto.
  intros paragraph [|]; cbn; auto.
Qed.

(** X10 at the two paragraphs that carry the code A1. *)
Lemma paragraph_codes_stay_distinct_witness :
  codes_distinct MoreExamples.coded
  /\ codes_distinct (add_paragraph_code MoreExamples.coded 0 (lit "A1")).
Proof.
  assert (H : codes_distinct MoreExamples.coded).
  { unfold codes_distinct. cbn. repeat constructor; intros []. }
  split; [exact H|].
  exact (proj1 (paragraph_codes_stay_distinct MoreExamples.coded 0 (lit "A1") H)).
Defined.

(** X11.  Adding and removing a code of a paragraph.  For a paragraph
    identifier in range: after [add_paragraph_code] the paragraph carries
    the code, and adding it again changes nothing; if the paragraph did
    not carry the code, [remove_paragraph_code] changes nothing and undoes
    [add_paragraph_code] exactly; if the codes of the paragraph are
    pairwise distinct, the paragraph does not carry the code after
    [remove_paragraph_code]. *)
Theorem paragraph_code_add_remove :
  forall st paragraph_id code p,
    0 <= paragraph_id ->
    nth_error (AppState.paragraphs st) (Z.to_nat paragraph_id) = Some p ->
    (exists p',
        nth_error (AppState.paragraphs (add_paragraph_code st paragraph_id code))
                  (Z.to_nat paragraph_id) = Some p'
        /\ In code (Paragraph.codes p'))
    /\ add_paragraph_code (add_paragraph_code st paragraph_id code)
                          paragraph_id code
       = add_paragraph_code st paragraph_id code
    /\ (~ In code (Paragraph.codes p) ->
        remove_paragraph_code st paragraph_id code = st
        /\ remove_paragraph_code (add_paragraph_code st paragraph_id code)
                                 paragraph_id code
           = st)
    /\ (NoDup (Paragraph.codes p) ->
        exists p',
          nth_error
            (AppState.paragraphs (remove_paragraph_code st paragraph_id code))
            (Z.to_nat paragraph_id) = Some p'
          /\ ~ In code (Paragraph.codes p')).
Proof.
  intros st paragraph_id code p H0 Hp.
  assert (R : in_range st paragraph_id = true)
    by (apply in_range_nth; eauto).
  unfold add_paragraph_code, remove_paragraph_code.
  rewrite !R, in_range_update, R.
  split_all.
  - exists (append_code code p). split; [|apply append_code_In].
    rewrite paragraphs_update, nth_error_update_nth, Nat.eqb_refl, Hp.
    reflexivity.
  - rewrite update_paragraph_twice.
    apply (update_paragraph_ext _ _ _ _ p Hp). apply append_code_twice.
  - intros Hno. split.
    + apply (update_paragraph_fixed _ _ _ p Hp).
      destruct (remove_code_spec code p) as [[_ E] | [Hin _]];
        [exact E | contradiction].
    + rewrite update_paragraph_twice.
      apply (update_paragraph_fixed _ _ _ p Hp).
      now apply remove_append_code.
  - intros Hnd. exists (remove_code code p).
    split; [|now apply remove_code_distinct].
    rewrite paragraphs_update, nth_error_update_nth, Nat.eqb_refl, Hp.
    reflexivity.
Qed.

(** X11 at the first paragraph and a code it does not carry. *)
Lemma paragraph_code_add_remove_witness :
  0 <= 0
  /\ nth_error (AppState.paragraphs (app_state ui_bob)) (Z.to_nat 0)
     = Some (Paragraph.new 0 (lit "Bob is here"))
  /\ ~ In (lit "A1") (Paragraph.codes (Paragraph.new 0 (lit "Bob is here")))
  /\ remove_paragraph_code
       (add_paragraph_code (app_state ui_bob) 0 (lit "A1")) 0 (lit "A1")
     = app_state ui_bob.
Proof.
  assert (H0 : 0 <= 0) by lia.
  assert (Hp : nth_error (AppState.paragraphs (app_state ui_bob)) (Z.to_nat 0)
               = Some (Paragraph.new 0 (lit "Bob is here"))) by reflexivity.
  assert (Hno : ~ In (lit "A1")
                     (Paragraph.codes (Paragraph.new 0 (lit "Bob is here"))))
    by (intros []).
  split_all; [exact H0 | exact Hp | exact Hno |].
  exact (proj2 (proj1 (proj2 (proj2
           (paragraph_code_add_remove (app_state ui_bob) 0 (lit "A1") _ H0 Hp)))
           Hno)).
Defined.

(** X12.  [_split_into_paragraphs] numbers the paragraphs by position:
    the identifiers are 0, 1, 2, ... in list order.  The paragraphs carry
    the units of the segmentation as texts and the default annotations,
    whatever the paragraphs were before.  Only the paragraph list is
    replaced: the transcripts and the entity collection are left as they
    were. *)
Theorem split_into_paragraphs_renumbers :
  forall st content,
    let st' := AppState._split_into_paragraphs st content in
    ids_are_positions (AppState.paragraphs st')
    /\ map Paragraph.text (AppState.paragraphs st')
       = AppState.paragraphs_text_of content
    /\ Forall unannotated (AppState.paragraphs st')
    /\ AppState.entities st' = AppState.entities st
    /\ AppState.original_transcript st' = AppState.original_transcript st
    /\ AppState.current_transcript st' = AppState.current_transcript st.
Proof.
  intros st content st'. subst st'.
  unfold AppState._split_into_paragraphs, enumerate. destruct st; cbn.
  split_all; try reflexivity.
  - unfold ids_are_positions.
    rewrite map_map, length_map, length_enumerate_from. cbn [Paragraph.id Paragraph.new].
    change 0 with (Z.of_nat 0).
    rewrite <- (enumerate_from_fst (AppState.paragraphs_text_of content) 0).
    reflexivity.
  - rewrite map_map. cbn [Paragraph.text Paragraph.new].
    apply enumerate_from_snd.
  - apply Forall_forall. intros p Hp.
    apply in_map_iff in Hp as [it [<- _]]. repeat split.
Qed.

(** X13.  Every unit of the segmentation, and so the text of every
    paragraph [_split_into_paragraphs] creates, is non-empty and has no
    white space at its start or end, also after the second stage has cut
    a long unit and put back the full stops. *)
Theorem paragraph_texts_trimmed :
  forall st content,
    Forall trimmed (AppState.paragraphs_text_of content)
    /\ Forall (fun p => trimmed (Paragraph.text p))
              (AppState.paragraphs (AppState._split_into_paragraphs st content)).
Proof.
  intros st content.
  assert (H : Forall trimmed (AppState.paragraphs_text_of content)).
  { unfold AppState.paragraphs_text_of.
    apply refine_long_unit_trimmed, primary_units_trimmed. }
  split; [exact H|].
  pose proof (split_into_paragraphs_texts st content) as E.
  rewrite <- E, Forall_map in H. exact H.
Qed.

(** X14.  When the segmentation yields no paragraph.  A content with a
    line break yields no paragraph exactly when it is white space only; a
    content without a line break yields no paragraph exactly when it
    consists of white space and the sentence ends [.], [!], [?] only.  The
    second stage never empties a result. *)
Theorem no_paragraphs_iff :
  forall content,
    (AppState.paragraphs_text_of content = []
     <-> if contains content [AppState.LF; AppState.LF]
            || contains content [AppState.LF]
         then blank content
         else Forall space_or_sentence_end content)
    /\ (forall units, AppState.refine_long_unit units = [] <-> units = []).
Proof.
  intros content. split; [|apply refine_long_unit_nil].
  unfold AppState.paragraphs_text_of. rewrite refine_long_unit_nil.
  unfold AppState.primary_units.
  destruct (contains content [AppState.LF; AppState.LF]); cbn [orb].
  - apply by_blank_lines_blank.
  - destruct (contains content [AppState.LF]).
    + apply by_line_breaks_blank.
    + apply by_sentences_nil.
Qed.

(** X14 at a content of dots and spaces. *)
Lemma no_paragraphs_iff_witness :
  Forall space_or_sentence_end (lit "... ?! .")
  /\ AppState.paragraphs_text_of (lit "... ?! .") = [].
Proof.
  assert (H : Forall space_or_sentence_end (lit "... ?! .")).
  { repeat constructor; vm_compute; tauto. }
  split; [exact H|].
  exact (proj2 (proj1 (no_paragraphs_iff (lit "... ?! ."))) H).
Defined.

(** X15.  [reload_transcript] undoes [save_transcript_changes]: after a
    transcript is loaded and then saved with any new content, reloading
    gives back the state as it was after loading, with the paragraphs of
    the original content.  Saving never changes the original transcript,
    and none of the three methods touches the entity collection. *)
Theorem reload_restores_loaded :
  forall st content file_path new_content,
    let loaded := FullState.load_transcript st content file_path in
    let saved := FullState.save_transcript_changes loaded new_content in
    FullState.reload_transcript saved = loaded
    /\ FullState.reload_transcript loaded = loaded
    /\ AppState.original_transcript (FullState.base saved) = content
    /\ AppState.current_transcript (FullState.base saved) = new_content
    /\ AppState.entities (FullState.base loaded)
       = AppState.entities (FullState.base st)
    /\ AppState.entities (FullState.base saved)
       = AppState.entities (FullState.base st).
Proof.
  intros st content file_path new_content loaded saved. subst loaded saved.
  destruct st as [step path [orig cur ps es] schemes results].
  split_all; reflexivity.
Qed.

(** X16.  What a successful [_apply_anonymization] commits.  When some
    entity is marked: the text of every paragraph becomes the output of
    [anonymize_text] on its text and the marked entities it owns, and the
    paragraphs are otherwise as before (same number, order, identifiers,
    speakers, sentiments, codes); the current transcript becomes the
    paragraph texts joined by blank lines; the original transcript is
    kept; and the entity collection is emptied, the unmarked entities
    included. *)
Theorem apply_anonymization_commit :
  forall ui,
    let st := app_state ui in
    let st' := app_state (_apply_anonymization ui) in
    let marked := filter anonymized (AppState.entities st) in
    marked <> [] ->
    map Paragraph.text (AppState.paragraphs st')
    = map (fun p => anonymize_text (Paragraph.text p)
                      (filter (in_paragraph (Paragraph.id p)) marked))
          (AppState.paragraphs st)
    /\ map (fun p => Paragraph.set_text p []) (AppState.paragraphs st')
       = map (fun p => Paragraph.set_text p []) (AppState.paragraphs st)
    /\ AppState.current_transcript st'
       = str_join [AppState.LF; AppState.LF]
                  (map Paragraph.text (AppState.paragraphs st'))
    /\ AppState.original_transcript st' = AppState.original_transcript st
    /\ AppState.entities st' = [].
Proof.
  intros ui st st' marked Hmarked. subst st st' marked.
  rewrite (apply_anonymization_runs ui Hmarked).
  cbn [AppState.paragraphs AppState.current_transcript
       AppState.original_transcript AppState.entities].
  rewrite anonymize_paragraphs_fst.
  split_all; try reflexivity.
  - rewrite map_map. reflexivity.
  - rewrite map_map. reflexivity.
Qed.

(** X16 at the paragraph of Alice and Bob with the marked entity of
    Alice. *)
Lemma apply_anonymization_commit_witness :
  filter anonymized
         (AppState.entities
            (app_state (set_entities ui_alice [alice0; zed_general])))
  <> []
  /\ AppState.entities
       (app_state (_apply_anonymization
                     (set_entities ui_alice [alice0; zed_general])))
     = [].
Proof.
  assert (H : filter anonymized
                (AppState.entities
                   (app_state (set_entities ui_alice [alice0; zed_general])))
              <> []) by discriminate.
  split; [exact H|].
  exact (proj2 (proj2 (proj2 (proj2
           (apply_anonymization_commit
              (set_entities ui_alice [alice0; zed_general]) H))))).
Defined.

(** X17.  Applying the anonymization twice is applying it once: the
    second [_apply_anonymization] leaves the application state as the
    first left it.  After a successful application the second one finds
    the collection empty and only signals that no entity is detected. *)
Theorem apply_anonymization_idempotent :
  forall ui,
    app_state (_apply_anonymization (_apply_anonymization ui))
    = app_state (_apply_anonymization ui)
    /\ (filter anonymized (AppState.entities (app_state ui)) <> [] ->
        _apply_anonymization (_apply_anonymization ui)
        = notify (_apply_anonymization ui) NoEntitiesDetected warning).
Proof.
  intros ui.
  assert (Hsecond :
            filter anonymized (AppState.entities (app_state ui)) <> [] ->
            _apply_anonymization (_apply_anonymization ui)
            = notify (_apply_anonymization ui) NoEntitiesDetected warning).
  { intros Hmarked.
    pose proof (apply_anonymization_runs ui Hmarked) as E.
    unfold _apply_anonymization at 1. rewrite E. reflexivity. }
  split; [|exact Hsecond].
  destruct (filter anonymized (AppState.entities (app_state ui)))
    as [|m ms] eqn:F.
  - apply apply_anonymization_idle.
    now rewrite (apply_anonymization_idle ui F).
  - rewrite Hsecond by discriminate. reflexivity.
Qed.

(** X17 at the paragraph of Alice and Bob with the marked entity of
    Alice. *)
Lemma apply_anonymization_idempotent_witness :
  filter anonymized
         (AppState.entities (app_state (set_entities ui_alice [alice0])))
  <> []
  /\ _apply_anonymization
       (_apply_anonymization (set_entities ui_alice [alice0]))
     = notify (_apply_anonymization (set_entities ui_alice [alice0]))
              NoEntitiesDetected warning.
Proof.
  assert (H : filter anonymized
                (AppState.entities (app_state (set_entities ui_alice [alice0])))
              <> []) by discriminate.
  split; [exact H|].
  exact (proj2 (apply_anonymization_idempotent
                  (set_entities ui_alice [alice0])) H).
Defined.

(** X18.  The two buttons that mark and unmark every entity.  After
    [_anonymize_all_entities] every entity is marked and has a non-empty
    replacement, which is the replacement [anonymize_text] would have
    used anyway: texts, types, spans, owners and effective replacements
    are unchanged, and [anonymize_text] gives the same output as on the
    entities with the mark alone set; doing it again changes nothing.
    After [_clear_all_entities] no entity is marked, only the marks have
    changed, and [_apply_anonymization] then leaves the state as it is.
    Neither handler touches the paragraphs or the transcripts. *)
Theorem mark_and_clear_all_entities :
  forall st,
    let marked := fst (_anonymize_all_entities st) in
    let cleared := fst (_clear_all_entities st) in
    Forall (fun e => anonymized e = true /\ replacement e <> [])
           (AppState.entities marked)
    /\ map (fun e => (text e, entity_type e, start_pos e, end_pos e,
                      paragraph_id e, replacement_of e))
           (AppState.entities marked)
       = map (fun e => (text e, entity_type e, start_pos e, end_pos e,
                        paragraph_id e, replacement_of e))
             (AppState.entities st)
    /\ (forall txt,
          anonymize_text txt (AppState.entities marked)
          = anonymize_text txt (map (fun e => set_anonymized e true)
                                    (AppState.entities st)))
    /\ fst (_anonymize_all_entities marked) = marked
    /\ Forall (fun e => anonymized e = false) (AppState.entities cleared)
    /\ map (fun e => set_anonymized e true) (AppState.entities cleared)
       = map (fun e => set_anonymized e true) (AppState.entities st)
    /\ (forall log,
          app_state (_apply_anonymization (EntitiesSection.mk cleared log))
          = cleared)
    /\ AppState.set_entities marked (AppState.entities st) = st
    /\ AppState.set_entities cleared (AppState.entities st) = st.
Proof.
  intros st marked cleared. subst marked cleared.
  unfold _anonymize_all_entities, _clear_all_entities. cbn [fst].
  destruct st as [orig cur ps es].
  cbn [AppState.set_entities AppState.entities AppState.original_transcript
       AppState.current_transcript AppState.paragraphs].
  split_all.
  - apply Forall_forall. intros e He.
    apply in_map_iff in He as [e0 [<- _]]. apply mark_marked.
  - rewrite map_map. apply map_ext. intros e.
    rewrite replacement_of_mark. destruct (mark_span e) as [-> ->].
    unfold mark. destruct e as [tx ty s en a r pid ad]. cbn.
    destruct r; reflexivity.
  - intros txt. apply anonymize_text_mark.
  - unfold AppState.set_entities.
    cbn [AppState.entities AppState.original_transcript
         AppState.current_transcript AppState.paragraphs].
    f_equal. rewrite map_map. apply map_ext. intros e. apply mark_twice.
  - apply Forall_forall. intros e He.
    apply in_map_iff in He as [e0 [<- _]]. reflexivity.
  - rewrite map_map. reflexivity.
  - intros log. apply apply_anonymization_idle. cbn. apply filter_unmarked.
  - reflexivity.
  - reflexivity.
Qed.

(** X19.  [_toggle_entity_anonymization] is an involution: when the
    row index is in range, toggling the same row again restores the
    state.  A toggle changes the mark of that one entity and nothing
    else.  An index out of range raises [IndexError]; an index that is in
    range, negative ones counting from the end, never does. *)
Theorem toggle_entity_anonymization_involution :
  forall st entity_index,
    (position (AppState.entities st) entity_index = None ->
     _toggle_entity_anonymization st entity_index = Raises (lit "IndexError"))
    /\ (forall k,
          position (AppState.entities st) entity_index = Some k ->
          exists st1 e,
            nth_error (AppState.entities st) k = Some e
            /\ _toggle_entity_anonymization st entity_index
               = Returns (st1, (AnonymizationToggled (negb (anonymized e))
                                                     (text e), info))
            /\ _toggle_entity_anonymization st1 entity_index
               = Returns (st, (AnonymizationToggled (anonymized e) (text e),
                               info))
            /\ nth_error (AppState.entities st1) k
               = Some (set_anonymized e (negb (anonymized e)))
            /\ (forall j, j <> k ->
                  nth_error (AppState.entities st1) j
                  = nth_error (AppState.entities st) j)
            /\ AppState.set_entities st1 (AppState.entities st) = st).
Proof.
  intros st entity_index. unfold _toggle_entity_anonymization. split.
  - intros Hnone. now rewrite Hnone.
  - intros k Hk.
    destruct (index_position _ _ _ Hk) as [e [He Hi]].
    set (flip := fun e : Entity.t => set_anonymized e (negb (anonymized e))).
    set (es1 := update_nth flip (AppState.entities st) k).
    exists (AppState.set_entities st es1), e.
    assert (Hk1 : position es1 entity_index = Some k).
    { rewrite <- Hk. apply position_length. apply length_update_nth. }
    assert (He1 : nth_error es1 k = Some (flip e)).
    { unfold es1. rewrite nth_error_update_nth, Nat.eqb_refl, He. reflexivity. }
    destruct (index_position _ _ _ Hk1) as [e1 [He1' Hi1]].
    rewrite He1 in He1'. injection He1' as <-.
    split_all.
    + exact He.
    + rewrite Hk, Hi. reflexivity.
    + destruct st as [orig cur ps es].
      cbn [AppState.set_entities AppState.entities] in *.
      assert (Hback : update_nth flip es1 k = es).
      { unfold es1. rewrite update_nth_twice.
        apply (update_nth_fixed _ _ _ e He). unfold flip.
        apply set_anonymized_negb_twice. }
      rewrite Hk1, Hi1. fold flip. rewrite Hback.
      unfold flip. cbn [set_anonymized Entity.anonymized Entity.text].
      now rewrite negb_involutive.
    + destruct st; exact He1.
    + intros j Hj. destruct st as [orig cur ps es].
      cbn [AppState.set_entities AppState.entities] in *.
      unfold es1. rewrite nth_error_update_nth.
      destruct (Nat.eqb j k) eqn:E; [apply Nat.eqb_eq in E; congruence|].
      reflexivity.
    + now destruct st.
Qed.

(** X19 at the last row, addressed from the end. *)
Lemma toggle_entity_anonymization_involution_witness :
  position (AppState.entities (app_state ui_bob)) (-1) = Some 0%nat
  /\ exists st1 e,
       nth_error (AppState.entities (app_state ui_bob)) 0 = Some e
       /\ _toggle_entity_anonymization (app_state ui_bob) (-1)
          = Returns (st1, (AnonymizationToggled (negb (anonymized e)) (text e),
                           info))
       /\ _toggle_entity_anonymization st1 (-1)
          = Returns (app_state ui_bob,
                     (AnonymizationToggled (anonymized e) (text e), info)).
Proof.
  assert (H : position (AppState.entities (app_state ui_bob)) (-1)
              = Some 0%nat) by reflexivity.
  split; [exact H|].
  destruct (proj2 (toggle_entity_anonymization_involution
                     (app_state ui_bob) (-1)) 0%nat H)
    as [st1 [e [He [H1 [H2 _]]]]].
  exists st1, e. split_all; assumption.
Defined.

(** X20.  A detection run on a transcript with paragraphs.  The previous
    entity collection is discarded; the new one holds, paragraph by
    paragraph and in order, the entities [extract_entities] returns for
    the text of the paragraph, each with the identifier of its paragraph
    attached.  Every entity is unmarked and without a replacement, so
    [_apply_anonymization] right after a detection changes nothing.  The
    run never reports an error (the recognizer never raises), reports the
    number of entities found, leaves the paragraphs and transcripts
    untouched, and the service has gone through its initialisation. *)
Theorem detect_entities_owned :
  forall finditer stanza nlp st,
    AppState.paragraphs st <> [] ->
    let result := _detect_entities finditer stanza nlp st in
    let st' := snd (fst result) in
    AppState.entities st'
    = detected finditer stanza nlp (AppState.paragraphs st)
    /\ Forall (unmarked_of (AppState.paragraphs st)) (AppState.entities st')
    /\ snd result
       = (DetectionComplete (Z.of_nat (length (AppState.entities st'))),
          positive)
    /\ AppState.set_entities st' (AppState.entities st) = st
    /\ fst (fst result) = initialized stanza nlp
    /\ (forall log,
          app_state (_apply_anonymization (EntitiesSection.mk st' log)) = st').
Proof.
  intros finditer stanza nlp st Hps result st'. subst result st'.
  rewrite (detect_entities_runs finditer stanza nlp st Hps). cbn [fst snd].
  pose proof (detected_unmarked finditer stanza nlp (AppState.paragraphs st))
    as Hall.
  destruct st as [orig cur ps0 es0].
  cbn [AppState.set_entities AppState.entities AppState.paragraphs] in *.
  split_all; try reflexivity.
  - exact Hall.
  - intros log. apply apply_anonymization_idle. cbn.
    apply filter_none. intros e He.
    rewrite Forall_forall in Hall. now destruct (Hall e He).
Qed.

(** X20 at the two paragraphs about Bob, when no model can be loaded. *)
Lemma detect_entities_owned_witness :
  AppState.paragraphs (app_state ui_bob) <> []
  /\ Forall (unmarked_of (AppState.paragraphs (app_state ui_bob)))
            (AppState.entities
               (snd (fst (_detect_entities recorded_finditer stanza_missing
                                           (init None false)
                                           (app_state ui_bob))))).
Proof.
  assert (H : AppState.paragraphs (app_state ui_bob) <> []) by discriminate.
  split; [exact H|].
  exact (proj1 (proj2 (detect_entities_owned recorded_finditer stanza_missing
                         (init None false) (app_state ui_bob) H))).
Defined.

(** X21.  A detection run that falls back on the regex patterns.  When
    the service has no pipeline after its initialisation and the regex
    engine returns spans that lie in the searched text, every entity of
    the new collection belongs to a paragraph of the transcript and
    satisfies the offset validity of the data model in the text of that
    paragraph. *)
Theorem detect_entities_regex_valid :
  forall finditer stanza nlp st,
    AppState.paragraphs st <> [] ->
    nlp_pipeline (initialized stanza nlp) = None ->
    (forall txt, spans_inside finditer txt) ->
    Forall (valid_in (AppState.paragraphs st))
           (AppState.entities
              (snd (fst (_detect_entities finditer stanza nlp st)))).
Proof.
  intros finditer stanza nlp st Hps Hnone Hspans.
  rewrite (detect_entities_runs finditer stanza nlp st Hps). cbn [fst snd].
  destruct st as [orig cur ps0 es0].
  cbn [AppState.set_entities AppState.entities AppState.paragraphs] in *.
  apply Forall_forall. intros e He.
  apply detected_In in He as [p [e0 [Hp [He0 ->]]]].
  rewrite (recognized_fallback _ _ _ _ Hnone) in He0.
  exists p. split; [exact Hp|]. split; [reflexivity|].
  pose proof (regex_entity_valid finditer (Paragraph.text p) e0
                (Hspans (Paragraph.text p)) He0) as Hv.
  exact Hv.
Qed.

(** X21 at the paragraph about Bob, when no model can be loaded. *)
Lemma detect_entities_regex_valid_witness :
  AppState.paragraphs (app_state (ui_of [bob_paid] [])) <> []
  /\ nlp_pipeline (initialized stanza_missing (init None false)) = None
  /\ (forall txt, spans_inside recorded_finditer txt)
  /\ Forall (valid_in (AppState.paragraphs (app_state (ui_of [bob_paid] []))))
            (AppState.entities
               (snd (fst (_detect_entities recorded_finditer stanza_missing
                            (init None false)
                            (app_state (ui_of [bob_paid] [])))))).
Proof.
  assert (H1 : AppState.paragraphs (app_state (ui_of [bob_paid] [])) <> [])
    by discriminate.
  assert (H2 : nlp_pipeline (initialized stanza_missing (init None false))
               = None) by reflexivity.
  assert (H3 : forall txt, spans_inside recorded_finditer txt).
  { intros txt pattern m. unfold recorded_finditer.
    destruct (str_eqb txt bob_paid) eqn:E; [|intros []].
    apply str_eqb_eq in E. subst txt.
    destruct (str_eqb pattern _).
    - intros [<- | []]. vm_compute. intuition discriminate.
    - destruct (str_eqb pattern _).
      + intros [<- | []]. vm_compute. intuition discriminate.
      + intros []. }
  split_all; [exact H1 | exact H2 | exact H3 |].
  exact (detect_entities_regex_valid recorded_finditer stanza_missing
           (init None false) (app_state (ui_of [bob_paid] [])) H1 H2 H3).
Defined.

(** X22.  The results of the search box.  A blank search text gives no
    result.  Otherwise the results come in paragraph order with at most
    one result per paragraph; a paragraph has a result exactly when its
    lower-cased text contains the lower-cased search text; and the
    context shown for a result is at most 30 code points longer than the
    search text on either side. *)
Theorem search_results_by_paragraph :
  forall ui input,
    let T := strip input in
    let results := search_text ui input in
    (T = [] -> results = [])
    /\ ForallOrdPairs
         (fun a b => match_paragraph_id a < match_paragraph_id b) results
    /\ (T <> [] ->
        forall i para,
          0 <= i ->
          nth_error (AppState.paragraphs (app_state ui)) (Z.to_nat i)
          = Some para ->
          ((exists m, In m results /\ match_paragraph_id m = i)
           <-> contains (lower (Paragraph.text para)) (lower T) = true))
    /\ Forall (fun m => len (match_context m) <= len T + 60) results.
Proof.
  intros ui input T results. subst T results.
  destruct (strip input) as [|c r] eqn:ET.
  { rewrite (search_text_blank ui input ET). split_all.
    - reflexivity.
    - constructor.
    - intros H. exfalso. now apply H.
    - constructor. }
  assert (Hne : strip input <> []) by (rewrite ET; discriminate).
  rewrite <- ET in *. clear ET c r.
  rewrite (search_text_unfold ui input Hne).
  set (g := fun ip : Z * Paragraph.t => _).
  assert (Hidx : forall i a b, In b (g (i, a)) -> match_paragraph_id b = i).
  { intros i a b. unfold g. cbn [fst snd].
    destruct (contains _ _); [|intros []]. now intros [<- | []]. }
  split_all.
  - intros H. contradiction.
  - apply flat_map_enumerate_ordered; [exact Hidx|].
    intros ia. unfold g. destruct (contains _ _); cbn; lia.
  - intros _ i para Hi Hpara. split.
    + intros [m [Hm Hid]]. apply in_flat_map in Hm as [[j q] [Hjq Hm]].
      pose proof (Hidx _ _ _ Hm) as Hj. rewrite Hid in Hj. subst j.
      apply enumerate_from_In in Hjq as [_ Hq].
      replace (i - 0) with i in Hq by lia.
      rewrite Hpara in Hq. injection Hq as <-.
      unfold g in Hm. cbn [fst snd] in Hm.
      destruct (contains _ _); [reflexivity | destruct Hm].
    + intros Hc.
      assert (Hin : In (i, para)
                       (enumerate (AppState.paragraphs (app_state ui)))).
      { apply enumerate_from_In. split; [exact Hi|].
        now replace (i - 0) with i by lia. }
      assert (Hg : exists m, In m (g (i, para)) /\ match_paragraph_id m = i).
      { unfold g. cbn [fst snd]. rewrite Hc. eexists. split; [now left|].
        reflexivity. }
      destruct Hg as [m [Hm Hid]]. exists m. split; [|exact Hid].
      apply in_flat_map. exists (i, para). split; assumption.
  - apply Forall_forall. intros m Hm.
    apply in_flat_map in Hm as [[j q] [_ Hm]].
    unfold g in Hm. cbn [fst snd] in Hm.
    destruct (contains _ _) eqn:Hc; [|destruct Hm].
    destruct Hm as [<- | []]. cbn [match_context].
    pose proof (contains_found _ _ Hc) as Hp.
    pose proof (len_nonneg (Paragraph.text q)) as Hq.
    pose proof (len_nonneg (strip input)) as Ht.
    etransitivity; [apply len_slice_le; lia|]. lia.
Qed.

(** X22 at the search for [bob] in the two paragraphs about Bob. *)
Lemma search_results_by_paragraph_witness :
  strip (lit "bob") <> []
  /\ 0 <= 1
  /\ nth_error (AppState.paragraphs (app_state ui_bob)) (Z.to_nat 1)
     = Some (Paragraph.new 1 (lit "I saw bob"))
  /\ contains (lower (lit "I saw bob")) (lower (strip (lit "bob"))) = true
  /\ exists m, In m (search_text ui_bob (lit "bob")) /\ match_paragraph_id m = 1.
Proof.
  assert (H1 : strip (lit "bob") <> []) by discriminate.
  assert (H2 : 0 <= 1) by lia.
  assert (H3 : nth_error (AppState.paragraphs (app_state ui_bob)) (Z.to_nat 1)
               = Some (Paragraph.new 1 (lit "I saw bob"))) by reflexivity.
  assert (H4 : contains (lower (lit "I saw bob")) (lower (strip (lit "bob")))
               = true) by reflexivity.
  split_all; [exact H1 | exact H2 | exact H3 | exact H4 |].
  exact (proj2 (proj1 (proj2 (proj2
           (search_results_by_paragraph ui_bob (lit "bob"))))
           H1 1 (Paragraph.new 1 (lit "I saw bob")) H2 H3) H4).
Defined.

(** X23.  The manual insertion paths only append.  Whatever
    [_add_entity_without_search] does, the entity collection afterwards
    is the collection before followed by the entities it created; every
    created entity is unmarked, flagged as not auto-detected, and carries
    the chosen type and the replacement derived from the replacement
    field; the paragraphs and transcripts are untouched; and exactly one
    notification is sent.  The same holds for a
    [_create_entity_from_match] that returns. *)
Theorem manual_insert_appends_only :
  (forall ui entity_text K R,
     let ui' := _add_entity_without_search ui entity_text K R in
     exists added,
       AppState.entities (app_state ui')
       = AppState.entities (app_state ui) ++ added
       /\ Forall (manually_added K R) added
       /\ AppState.set_entities (app_state ui')
                                (AppState.entities (app_state ui))
          = app_state ui
       /\ length (notifications ui') = S (length (notifications ui)))
  /\ (forall ui T K R m ui',
        _create_entity_from_match ui T K R m = Returns ui' ->
        exists added,
          AppState.entities (app_state ui')
          = AppState.entities (app_state ui) ++ added
          /\ Forall (manually_added K R) added
          /\ AppState.set_entities (app_state ui')
                                   (AppState.entities (app_state ui))
             = app_state ui
          /\ length (notifications ui') = S (length (notifications ui))).
Proof.
  assert (Hframe : forall ui K R added msg ty,
            Forall (manually_added K R) added ->
            let ui' := notify (set_entities ui
                                 (AppState.entities (app_state ui) ++ added))
                              msg ty in
            AppState.entities (app_state ui')
            = AppState.entities (app_state ui) ++ added
            /\ Forall (manually_added K R) added
            /\ AppState.set_entities (app_state ui')
                                     (AppState.entities (app_state ui))
               = app_state ui
            /\ length (notifications ui') = S (length (notifications ui))).
  { intros [[orig cur ps es] log] K R added msg ty Hadded. cbn.
    split_all; auto. rewrite length_app. cbn. lia. }
  assert (Hidle : forall ui K R msg ty,
            let ui' := notify ui msg ty in
            AppState.entities (app_state ui')
            = AppState.entities (app_state ui) ++ []
            /\ Forall (manually_added K R) []
            /\ AppState.set_entities (app_state ui')
                                     (AppState.entities (app_state ui))
               = app_state ui
            /\ length (notifications ui') = S (length (notifications ui))).
  { intros [[orig cur ps es] log] K R msg ty. cbn.
    split_all; auto. - now rewrite app_nil_r. - rewrite length_app. cbn. lia. }
  split.
  - intros ui entity_text K R ui'. subst ui'.
    destruct (add_entity_without_search_cases ui entity_text K R)
      as [[_ ->] | [[_ [_ ->]] | [[_ [_ [_ ->]]] | [_ [_ [_ ->]]]]]].
    + exists []. apply Hidle.
    + exists []. apply Hidle.
    + eexists. apply Hframe. repeat constructor.
    + eexists. apply Hframe. apply Forall_forall. intros e He.
      apply in_map_iff in He as [tg [<- _]]. repeat constructor.
  - intros ui T K R m ui' Hret.
    destruct (create_entity_from_match_cases ui T K R m)
      as [[_ E] | [[msg E] | [para [_ [_ E]]]]];
      rewrite E in Hret; [discriminate | |]; injection Hret as <-.
    + exists []. apply Hidle.
    + eexists. apply Hframe. repeat constructor.
Qed.

(** X23 at the single insert of [the] from its search result. *)
Lemma manual_insert_appends_only_witness :
  exists ui',
    _create_entity_from_match ui_the (lit "the") (lit "PERSON") [] the_match
    = Returns ui'
    /\ exists added,
         AppState.entities (app_state ui')
         = AppState.entities (app_state ui_the) ++ added
         /\ Forall (manually_added (lit "PERSON") []) added.
Proof.
  eexists. split; [reflexivity|].
  destruct (proj2 manual_insert_appends_only ui_the (lit "the") (lit "PERSON")
              [] the_match _ eq_refl) as [added [H1 [H2 _]]].
  exists added. split; assumption.
Defined.

(** X24.  No two entities at the same place.  If no two entities of the
    collection have the same paragraph and the same start position, this
    is still so after [_add_entity_without_search] and after a
    [_create_entity_from_match] that returns: the bulk insert skips the
    places that are taken and creates one entity per place, the single
    insert adds to a paragraph that owns no entity. *)
Theorem manual_insert_keeps_positions_distinct :
  (forall ui entity_text K R,
     NoDup (positions (AppState.entities (app_state ui))) ->
     NoDup (positions
              (AppState.entities
                 (app_state (_add_entity_without_search ui entity_text K R)))))
  /\ (forall ui T K R m ui',
        NoDup (positions (AppState.entities (app_state ui))) ->
        _create_entity_from_match ui T K R m = Returns ui' ->
        NoDup (positions (AppState.entities (app_state ui')))).
Proof.
  split.
  - intros ui entity_text K R Hnd.
    destruct (add_entity_without_search_cases ui entity_text K R)
      as [[_ ->] | [[_ [_ ->]] | [[_ [_ [_ ->]]] | [_ [_ [_ ->]]]]]].
    + exact Hnd.
    + exact Hnd.
    + destruct ui as [[orig cur ps es] log]. cbn in *.
      rewrite positions_app. cbn. now rewrite app_nil_r.
    + destruct ui as [[orig cur ps es] log]. cbn in *.
      rewrite positions_app, positions_targets.
      apply NoDup_app; [exact Hnd | apply bulk_targets_positions |].
      intros [i p] Hin Hin'. apply positions_In in Hin.
      apply in_map_iff in Hin' as [[[j para] q] [[= -> ->] Htg]].
      apply bulk_targets_iff in Htg as [_ [_ [_ Hfree]]]. contradiction.
  - intros ui T K R m ui' Hnd Hret.
    destruct (create_entity_from_match_cases ui T K R m)
      as [[_ E] | [[msg E] | [para [_ [Hfree E]]]]];
      rewrite E in Hret; [discriminate | |]; injection Hret as <-.
    + exact Hnd.
    + destruct ui as [[orig cur ps es] log]. cbn in *.
      rewrite positions_app. cbn.
      apply NoDup_app; [exact Hnd | repeat constructor; intros [] |].
      intros [i p] Hin [[= <- <-] | []].
      apply positions_In in Hin as [e [He [Hi _]]].
      pose proof (find_none _ _ Hfree e He) as Hno.
      unfold in_paragraph in Hno. rewrite Hi, Z.eqb_refl in Hno. discriminate.
Qed.

(** X24 at the bulk insert of [is] into the two paragraphs about Bob,
    whose collection holds the entity of Bob. *)
Lemma manual_insert_keeps_positions_distinct_witness :
  NoDup (positions (AppState.entities (app_state ui_bob)))
  /\ NoDup (positions
              (AppState.entities
                 (app_state (_add_entity_without_search ui_bob (lit "is")
                                                        (lit "MISC") [])))).
Proof.
  assert (H : NoDup (positions (AppState.entities (app_state ui_bob)))).
  { cbn. repeat constructor. intros []. }
  split; [exact H|].
  exact (proj1 manual_insert_keeps_positions_distinct ui_bob (lit "is")
           (lit "MISC") [] H).
Defined.



(** X26.  Bulk-insert entities are valid where lower-casing keeps the
    length.  When no paragraph contains U+0130, every entity that
    [_add_entity_without_search] adds to a paragraph satisfies the offset
    validity of the data model in the text of that paragraph; if that
    paragraph has no U+03A3 and the search text no U+0130 either, the
    text of the entity is the search text up to case. *)
Theorem bulk_insert_entities_valid :
  forall ui entity_text K R,
    Forall (fun p => dotless (Paragraph.text p))
           (AppState.paragraphs (app_state ui)) ->
    exists added,
      AppState.entities
        (app_state (_add_entity_without_search ui entity_text K R))
      = AppState.entities (app_state ui) ++ added
      /\ forall e i,
           In e added -> paragraph_id e = Some i ->
           exists para,
             0 <= i
             /\ nth_error (AppState.paragraphs (app_state ui)) (Z.to_nat i)
                = Some para
             /\ offset_valid (Paragraph.text para) e
             /\ (sigmaless (Paragraph.text para) ->
                 dotless (strip entity_text) ->
                 lower (text e) = lower (strip entity_text)).
Proof.
  intros ui entity_text K R Hps.
  destruct (add_entity_without_search_cases ui entity_text K R)
    as [[_ ->] | [[_ [_ ->]] | [[_ [_ [_ ->]]] | [_ [_ [_ ->]]]]]].
  - exists []. split; [now rewrite app_nil_r | intros e i []].
  - exists []. split; [now rewrite app_nil_r | intros e i []].
  - eexists. split; [destruct ui as [[? ? ? ?] ?]; reflexivity|].
    intros e i [<- | []] Hi. discriminate.
  - eexists. split; [destruct ui as [[? ? ? ?] ?]; reflexivity|].
    intros e i He Hi. apply in_map_iff in He as [tg [<- Htg]].
    destruct tg as [[j para] p].
    pose proof Htg as Hiff.
    apply bulk_targets_iff in Hiff as [Hj [Hnth _]].
    cbn in Hi. injection Hi as <-.
    assert (Hd : dotless (Paragraph.text para)).
    { rewrite Forall_forall in Hps. apply Hps. eapply nth_error_In; eauto. }
    exists para. split_all; auto.
    + apply (target_entity_valid _ _ K R _ _ Htg). cbn [fst snd].
      now apply len_lower.
    + intros Hs HT. now apply (target_entity_text _ _ K R _ _ Htg Hd Hs).
Qed.

(** X26 at the search for [the]. *)
Lemma bulk_insert_entities_valid_witness :
  Forall (fun p => dotless (Paragraph.text p))
         (AppState.paragraphs (app_state ui_the))
  /\ exists added,
       AppState.entities
         (app_state (_add_entity_without_search ui_the (lit "the")
                                                (lit "PERSON") []))
       = AppState.entities (app_state ui_the) ++ added
       /\ forall e i,
            In e added -> paragraph_id e = Some i ->
            exists para,
              0 <= i
              /\ nth_error (AppState.paragraphs (app_state ui_the))
                           (Z.to_nat i)
                 = Some para
              /\ offset_valid (Paragraph.text para) e
              /\ (sigmaless (Paragraph.text para) ->
                  dotless (strip (lit "the")) ->
                  lower (text e) = lower (strip (lit "the"))).
Proof.
  assert (H : Forall (fun p => dotless (Paragraph.text p))
                     (AppState.paragraphs (app_state ui_the)))
    by (repeat constructor; discriminate).
  split; [exact H|].
  exact (bulk_insert_entities_valid ui_the (lit "the") (lit "PERSON") [] H).
Defined.

(** X27.  Dropping the therapist paragraphs.  After
    [_drop_therapist_paragraphs] no paragraph has the speaker therapist;
    the paragraphs left are the other paragraphs, in their order and
    unchanged but for their identifiers.  If something was dropped, the
    identifiers are renumbered 0, 1, 2, ... by position and the current
    transcript is the remaining texts joined by blank lines; otherwise
    the state is unchanged.  The original transcript and the entity
    collection are never touched: the paragraph identifiers carried by
    the entities are not renumbered. *)
Theorem drop_therapist_renumbers :
  forall st,
    let st' := fst (SpeakersSection._drop_therapist_paragraphs st) in
    let kept := filter (fun p => negb (SpeakersSection.is_therapist p))
                       (AppState.paragraphs st) in
    Forall (fun p => SpeakersSection.is_therapist p = false)
           (AppState.paragraphs st')
    /\ Forall2 same_but_id (AppState.paragraphs st') kept
    /\ AppState.entities st' = AppState.entities st
    /\ AppState.original_transcript st' = AppState.original_transcript st
    /\ (kept = AppState.paragraphs st -> st' = st)
    /\ (kept <> AppState.paragraphs st ->
        ids_are_positions (AppState.paragraphs st')
        /\ AppState.current_transcript st'
           = str_join [AppState.LF; AppState.LF] (map Paragraph.text kept)).
Proof.
  intros st st' kept. subst st' kept.
  destruct (filter SpeakersSection.is_therapist (AppState.paragraphs st))
    as [|q qs] eqn:F.
  - rewrite (drop_therapist_idle st F).
    pose proof (filter_negb_all _ _ F) as Hall. rewrite Hall.
    split_all; auto.
    + apply Forall_forall. intros p Hp.
      destruct (SpeakersSection.is_therapist p) eqn:E; [|reflexivity].
      assert (In p (filter SpeakersSection.is_therapist (AppState.paragraphs st)))
        by (apply filter_In; auto).
      rewrite F in H. contradiction.
    + apply Forall2_same_refl.
    + intros H. contradiction.
  - assert (Hne : filter SpeakersSection.is_therapist (AppState.paragraphs st)
                  <> []) by (rewrite F; discriminate).
    rewrite (drop_therapist_runs st Hne). cbn [fst].
    cbn [AppState.paragraphs AppState.entities AppState.original_transcript
         AppState.current_transcript].
    split_all; auto.
    + apply Forall_forall. intros p Hp.
      apply in_map_iff in Hp as [[i p0] [<- Hip]].
      assert (Hp0 : In p0 (filter (fun p => negb (SpeakersSection.is_therapist p))
                                  (AppState.paragraphs st))).
      { rewrite <- (enumerate_from_snd _ 0). fold (enumerate
          (filter (fun p => negb (SpeakersSection.is_therapist p))
                  (AppState.paragraphs st))).
        now apply (in_map snd) in Hip. }
      apply filter_In in Hp0 as [_ Hp0]. apply negb_true_iff in Hp0.
      exact Hp0.
    + apply renumbered_same.
    + intros H. exfalso. exact (filter_negb_some _ _ Hne H).
    + intros _. split; [apply ids_renumbered|].
      unfold enumerate. now rewrite renumbered_texts.
Qed.

(** X28.  The click handlers that change the speaker or the sentiment of
    a paragraph.  Whatever the redraw and the notification do,
    [_toggle_speaker] leaves the paragraph with one of the three speakers
    and nothing else changed; from a listed speaker three clicks come back
    to the same paragraph; any other speaker is treated as unknown and
    becomes client.  Computing the label never raises: the call ends as
    the redraw followed by the guarded notification of the paragraph
    number and the new label ends.  Likewise [_toggle_sentiment] with the
    four sentiments and its two redraws: four clicks come back, and any
    other sentiment is treated as neutral and becomes mixed.  The guard
    around the notification drops an exception exactly when it is a
    [RuntimeError] whose text contains both [parent element] and
    [deleted]; every other exception of the notification leaves the
    handler, as does every exception of a redraw. *)
Theorem toggle_label_cycles :
  forall display summary notify paragraph,
    let toggle_speaker := SpeakersSection._toggle_speaker display notify in
    let toggle_sentiment :=
      SentimentSection._toggle_sentiment display summary notify in
    (exists label,
        In label SpeakersSection.speakers
        /\ fst (toggle_speaker paragraph) = set_speaker paragraph label
        /\ snd (toggle_speaker paragraph)
           = SpeakersSection.and_then (display (set_speaker paragraph label))
               (SpeakersSection.safe_notification
                  (notify (SpeakersSection.Changed
                             (Paragraph.id paragraph + 1) label)
                          info)))
    /\ (In (Paragraph.speaker paragraph) SpeakersSection.speakers ->
        fst (toggle_speaker (fst (toggle_speaker
                                    (fst (toggle_speaker paragraph)))))
        = paragraph)
    /\ (~ In (Paragraph.speaker paragraph) SpeakersSection.speakers ->
        fst (toggle_speaker paragraph)
        = set_speaker paragraph (lit "client"))
    /\ (exists label,
          In label SentimentSection.sentiments
          /\ fst (toggle_sentiment paragraph) = set_sentiment paragraph label
          /\ snd (toggle_sentiment paragraph)
             = SpeakersSection.and_then (display (set_sentiment paragraph label))
                 (SpeakersSection.and_then
                    (summary (set_sentiment paragraph label))
                    (SpeakersSection.safe_notification
                       (notify (SpeakersSection.Changed
                                  (Paragraph.id paragraph + 1) label)
                               info))))
    /\ (In (Paragraph.sentiment paragraph) SentimentSection.sentiments ->
        fst (toggle_sentiment
               (fst (toggle_sentiment
                       (fst (toggle_sentiment
                               (fst (toggle_sentiment paragraph)))))))
        = paragraph)
    /\ (~ In (Paragraph.sentiment paragraph) SentimentSection.sentiments ->
        fst (toggle_sentiment paragraph)
        = set_sentiment paragraph (lit "mixed"))
    /\ (forall notification,
          SpeakersSection.safe_notification notification = SpeakersSection.Done
          <-> notification = SpeakersSection.Done
              \/ exists e,
                   notification = SpeakersSection.Raised e
                   /\ SpeakersSection.runtime_error e = true
                   /\ contains (SpeakersSection.error_text e)
                               (lit "parent element") = true
                   /\ contains (SpeakersSection.error_text e)
                               (lit "deleted") = true)
    /\ (forall notification e,
          SpeakersSection.safe_notification notification
          = SpeakersSection.Raised e
          <-> notification = SpeakersSection.Raised e
              /\ (SpeakersSection.runtime_error e = false
                  \/ contains (SpeakersSection.error_text e)
                               (lit "parent element") = false
                  \/ contains (SpeakersSection.error_text e)
                               (lit "deleted") = false)).
Proof.
  intros display summary notify [i txt sp se es cs] toggle_speaker
         toggle_sentiment.
  subst toggle_speaker toggle_sentiment.
  assert (Hsp : ~ In sp SpeakersSection.speakers ->
                SpeakersSection.next_label SpeakersSection.speakers sp
                = Returns (lit "client")).
  { intros Hno. apply str_in_false in Hno.
    unfold SpeakersSection.next_label. rewrite Hno. reflexivity. }
  assert (Hse : ~ In se SentimentSection.sentiments ->
                SpeakersSection.next_label SentimentSection.sentiments se
                = Returns (lit "mixed")).
  { intros Hno. apply str_in_false in Hno.
    unfold SpeakersSection.next_label. rewrite Hno. reflexivity. }
  split; [|split; [|split; [|split; [|split; [|split; [|split]]]]]].
  - destruct (in_dec (list_eq_dec N.eq_dec) sp SpeakersSection.speakers)
      as [Hin | Hno].
    + unfold SpeakersSection.speakers in Hin. cbn in Hin.
      repeat (destruct Hin as [<- | Hin];
              [eexists; split; [|split; reflexivity]; vm_compute; tauto|]).
      destruct Hin.
    + exists (lit "client"). unfold SpeakersSection._toggle_speaker.
      cbn [Paragraph.speaker]. rewrite (Hsp Hno).
      split; [vm_compute; tauto | split; reflexivity].
  - intros Hin. unfold SpeakersSection.speakers in Hin. cbn in Hin.
    repeat (destruct Hin as [<- | Hin]; [reflexivity|]). destruct Hin.
  - intros Hno. unfold SpeakersSection._toggle_speaker.
    cbn [Paragraph.speaker]. now rewrite (Hsp Hno).
  - destruct (in_dec (list_eq_dec N.eq_dec) se SentimentSection.sentiments)
      as [Hin | Hno].
    + unfold SentimentSection.sentiments in Hin. cbn in Hin.
      repeat (destruct Hin as [<- | Hin];
              [eexists; split; [|split; reflexivity]; vm_compute; tauto|]).
      destruct Hin.
    + exists (lit "mixed"). unfold SentimentSection._toggle_sentiment.
      cbn [Paragraph.sentiment]. rewrite (Hse Hno).
      split; [vm_compute; tauto | split; reflexivity].
  - intros Hin. unfold SentimentSection.sentiments in Hin. cbn in Hin.
    repeat (destruct Hin as [<- | Hin]; [reflexivity|]). destruct Hin.
  - intros Hno. unfold SentimentSection._toggle_sentiment.
    cbn [Paragraph.sentiment]. now rewrite (Hse Hno).
  - intros [|e]; unfold SpeakersSection.safe_notification.
    + split; [now left | reflexivity].
    + destruct (SpeakersSection.runtime_error e) eqn:Er;
        [destruct (contains (SpeakersSection.error_text e)
                            (lit "parent element")) eqn:Ep;
         destruct (contains (SpeakersSection.error_text e)
                            (lit "deleted")) eqn:Ed|];
        cbn [andb]; split; try discriminate; try reflexivity;
        try (intros [H | [e' [H [H1 [H2 H3]]]]];
             [discriminate | injection H as <-; congruence]).
      intros _. right. exists e. auto.
  - intros [|e'] e; unfold SpeakersSection.safe_notification.
    + split; [discriminate | intros [H _]; discriminate].
    + destruct (SpeakersSection.runtime_error e') eqn:Er;
        [destruct (contains (SpeakersSection.error_text e')
                            (lit "parent element")) eqn:Ep;
         destruct (contains (SpeakersSection.error_text e')
                            (lit "deleted")) eqn:Ed|];
        cbn [andb]; split;
        try (intros H; injection H as <-; split; [reflexivity | tauto]);
        try (intros [H _]; exact H);
        try discriminate.
      intros [H [H1 | [H1 | H1]]]; injection H as <-; congruence.
Qed.

(** X28 at a paragraph whose speaker is none of the three, with a
    notification that fails because its parent element was deleted: the
    paragraph becomes the client's. *)
Lemma toggle_label_cycles_witness :
  ~ In (Paragraph.speaker MoreExamples2.nurse) SpeakersSection.speakers
  /\ fst (SpeakersSection._toggle_speaker
            MoreExamples2.redrawn MoreExamples2.parent_deleted
            MoreExamples2.nurse)
     = set_speaker MoreExamples2.nurse (lit "client").
Proof.
  assert (H : ~ In (Paragraph.speaker MoreExamples2.nurse)
                   SpeakersSection.speakers).
  { cbn. intros [E | [E | [E | []]]]; discriminate. }
  split; [exact H|].
  exact (proj1 (proj2 (proj2
           (toggle_label_cycles MoreExamples2.redrawn MoreExamples2.redrawn
              MoreExamples2.parent_deleted MoreExamples2.nurse))) H).
Defined.

(** X27 at the two paragraphs about Bob, the first said by the
    therapist. *)
Lemma drop_therapist_renumbers_witness :
  filter (fun p => negb (SpeakersSection.is_therapist p))
         (AppState.paragraphs MoreExamples2.with_therapist)
  <> AppState.paragraphs MoreExamples2.with_therapist
  /\ ids_are_positions
       (AppState.paragraphs
          (fst (SpeakersSection._drop_therapist_paragraphs
                  MoreExamples2.with_therapist)))
  /\ AppState.current_transcript
       (fst (SpeakersSection._drop_therapist_paragraphs
               MoreExamples2.with_therapist))
     = str_join [AppState.LF; AppState.LF]
         (map Paragraph.text
              (filter (fun p => negb (SpeakersSection.is_therapist p))
                      (AppState.paragraphs MoreExamples2.with_therapist))).
Proof.
  assert (H : filter (fun p => negb (SpeakersSection.is_therapist p))
                     (AppState.paragraphs MoreExamples2.with_therapist)
              <> AppState.paragraphs MoreExamples2.with_therapist)
    by discriminate.
  split; [exact H|].
  exact (proj2 (proj2 (proj2 (proj2 (proj2
           (drop_therapist_renumbers MoreExamples2.with_therapist))))) H).
Defined.

(** X29.  Coding schemes.  [_add_coding_scheme] keeps the identifiers
    of the schemes pairwise distinct and the identifiers and titles
    non-empty; it appends at most one scheme and touches nothing else of
    the state.  A scheme added under a new identifier is taken out again
    by [remove_coding_scheme], which restores the state.  After
    [remove_coding_scheme] no scheme has the identifier, and the other
    schemes are kept in order.  The keywords are cut at the two code
    points backslash and n, not at line breaks: a keyword text without a
    backslash gives one keyword, the whole text stripped. *)
Theorem coding_schemes_stay_well_formed :
  forall st code_id title keywords_text,
    let st' := fst (EncodingSection._add_coding_scheme st code_id title
                                                       keywords_text) in
    (schemes_well_formed (FullState.coding_schemes st) ->
     schemes_well_formed (FullState.coding_schemes st'))
    /\ (exists added,
          FullState.coding_schemes st' = FullState.coding_schemes st ++ added
          /\ (length added <= 1)%nat)
    /\ FullState.set_coding_schemes st' (FullState.coding_schemes st) = st
    /\ (code_id <> [] -> title <> [] ->
        ~ In code_id (map CodingScheme.id (FullState.coding_schemes st)) ->
        In code_id (map CodingScheme.id (FullState.coding_schemes st'))
        /\ FullState.remove_coding_scheme st' code_id = st)
    /\ ~ In code_id
            (map CodingScheme.id
                 (FullState.coding_schemes
                    (FullState.remove_coding_scheme st code_id)))
    /\ (schemes_well_formed (FullState.coding_schemes st) ->
        schemes_well_formed
          (FullState.coding_schemes (FullState.remove_coding_scheme st code_id)))
    /\ (Forall (fun c => c <> 92%N) keywords_text ->
        EncodingSection.parse_keywords keywords_text
        = if truthy (strip keywords_text) then [strip keywords_text] else []).
Proof.
  intros st code_id title keywords_text st'. subst st'.
  assert (Hexists : existsb (fun scheme =>
                               str_eqb (CodingScheme.id scheme) code_id)
                            (FullState.coding_schemes st) = true
                    <-> In code_id (map CodingScheme.id
                                        (FullState.coding_schemes st))).
  { rewrite existsb_exists, in_map_iff. split.
    - intros [s [Hs E]]. apply str_eqb_eq in E. eauto.
    - intros [s [E Hs]]. exists s. split; [exact Hs | now apply str_eqb_eq]. }
  assert (Hfilter : forall schemes,
            ~ In code_id (map CodingScheme.id schemes) ->
            filter (fun s => negb (str_eqb (CodingScheme.id s) code_id)) schemes
            = schemes).
  { induction schemes as [|s schemes IH]; [reflexivity|]. cbn. intros Hno.
    destruct (str_eqb (CodingScheme.id s) code_id) eqn:E.
    - apply str_eqb_eq in E. exfalso. apply Hno. now left.
    - cbn. rewrite IH; [reflexivity|]. intros H. apply Hno. now right. }
  unfold EncodingSection._add_coding_scheme.
  destruct st as [step path b schemes results].
  cbn [FullState.coding_schemes] in *.
  split_all.
  - intros [Hnd Hall].
    destruct (negb (truthy code_id) || negb (truthy title)) eqn:G;
      [split; assumption|].
    apply orb_false_iff in G as [G1 G2].
    apply negb_false_iff, truthy_nonempty in G1, G2.
    destruct (existsb _ schemes) eqn:Ex; [split; assumption|].
    cbn [fst FullState.add_coding_scheme FullState.set_coding_schemes
         FullState.coding_schemes].
    split.
    + rewrite map_app. cbn [map CodingScheme.id].
      apply NoDup_app; [exact Hnd | repeat constructor; intros [] |].
      intros x Hx [<- | []].
      apply Hexists in Hx. congruence.
    + apply Forall_app. split; [exact Hall|].
      repeat constructor; assumption.
  - destruct (negb (truthy code_id) || negb (truthy title));
      [exists []; split; [now rewrite app_nil_r | cbn; lia]|].
    destruct (existsb _ schemes);
      [exists []; split; [now rewrite app_nil_r | cbn; lia]|].
    eexists. split; [reflexivity | cbn; lia].
  - destruct (negb (truthy code_id) || negb (truthy title)); [reflexivity|].
    destruct (existsb _ schemes); reflexivity.
  - intros Hid Htitle Hnew.
    apply truthy_nonempty in Hid, Htitle. rewrite Hid, Htitle. cbn [negb orb].
    destruct (existsb _ schemes) eqn:Ex;
      [exfalso; apply Hnew, Hexists; reflexivity|].
    cbn [fst FullState.add_coding_scheme FullState.set_coding_schemes
         FullState.coding_schemes FullState.remove_coding_scheme
         FullState.current_step FullState.transcript_file_path FullState.base
         FullState.analysis_results].
    split.
    + rewrite map_app. apply in_or_app. right. now left.
    + unfold FullState.remove_coding_scheme, FullState.add_coding_scheme,
        FullState.set_coding_schemes.
      cbn [FullState.coding_schemes FullState.current_step
           FullState.transcript_file_path FullState.base
           FullState.analysis_results].
      f_equal. rewrite filter_app, (Hfilter schemes Hnew). cbn [filter].
      cbn [CodingScheme.id]. rewrite str_eqb_refl. cbn [negb].
      apply app_nil_r.
  - cbn [FullState.remove_coding_scheme FullState.set_coding_schemes
         FullState.coding_schemes].
    intros Hin. apply in_map_iff in Hin as [s [E Hs]].
    apply filter_In in Hs as [_ Hs]. apply negb_true_iff, str_eqb_neq in Hs.
    contradiction.
  - intros [Hnd Hall].
    cbn [FullState.remove_coding_scheme FullState.set_coding_schemes
         FullState.coding_schemes].
    split.
    + clear Hexists Hfilter Hall.
      induction schemes as [|s schemes IH]; [constructor|].
      cbn in *. inversion Hnd as [|? ? Hnotin Hnd']; subst.
      destruct (negb (str_eqb (CodingScheme.id s) code_id)); auto.
      cbn. constructor; auto.
      intros Hin. apply Hnotin.
      apply in_map_iff in Hin as [s' [E Hs']].
      apply filter_In in Hs' as [Hs' _]. apply in_map_iff. eauto.
    + apply Forall_forall. intros s Hs. apply filter_In in Hs as [Hs _].
      rewrite Forall_forall in Hall. auto.
  - intros Hno. unfold EncodingSection.parse_keywords.
    destruct keywords_text as [|c r] eqn:EK; [reflexivity|].
    cbn [truthy]. rewrite <- EK in *.
    unfold str_split. rewrite split_go_no_backslash by exact Hno.
    cbn [rev app]. unfold AppState.stripped_units. cbn [filter].
    destruct (truthy (strip keywords_text)); reflexivity.
Qed.

(** X29 at two keywords typed on two lines, which become one keyword. *)
Lemma coding_schemes_stay_well_formed_witness :
  Forall (fun c => c <> 92%N) MoreExamples2.two_lines
  /\ EncodingSection.parse_keywords MoreExamples2.two_lines
     = [MoreExamples2.two_lines].
Proof.
  assert (H : Forall (fun c => c <> 92%N) MoreExamples2.two_lines)
    by (repeat constructor; discriminate).
  split; [exact H|].
  exact (proj2 (proj2 (proj2 (proj2 (proj2 (proj2
           (coding_schemes_stay_well_formed FullState.reset (lit "A1")
              (lit "Grief") MoreExamples2.two_lines)))))) H).
Defined.

(** X30.  Saving and loading.  The dictionary [export_state] returns,
    read back by the body of [load_from_file], restores the step, the file
    path, both transcripts, the paragraphs with their annotations, the
    coding schemes and the analysis results.  Two things are not
    restored: the entity collection of the state, which is neither
    exported nor assigned on loading, so the loading state keeps its own;
    and the attributes attached to entities after construction.  Loading
    into the state that was exported gives back that very state when no
    paragraph holds such an entity.  An empty dictionary loads the
    defaults of [reset], and a value that is no dictionary raises
    [AttributeError]. *)
Theorem export_load_round_trip :
  forall st0 st,
    load_state st0 (export_state st)
    = Read (restored st (AppState.entities (FullState.base st0)))
    /\ (Forall (fun p => Forall (fun e => paragraph_id e = None
                                          /\ auto_detected e = None)
                                (Paragraph.entities p))
               (AppState.paragraphs (FullState.base st)) ->
        load_state st (export_state st) = Read st)
    /\ load_state st0 (PyValue.Dict [])
       = Read (restored FullState.reset
                        (AppState.entities (FullState.base st0)))
    /\ (forall l, load_state st0 (PyValue.List l)
                  = Fails (lit "AttributeError")).
Proof.
  intros st0 st.
  assert (Hround : forall st1,
            load_state st1 (export_state st)
            = Read (restored st (AppState.entities (FullState.base st1)))).
  { intros st1. destruct st as [step path [orig cur ps es] schemes results].
    unfold load_state, export_state. cbn.
    destruct path as [path|]; cbn;
      rewrite read_all_paragraphs; cbn; rewrite read_all_schemes; reflexivity. }
  split_all.
  - apply Hround.
  - intros Hplain. rewrite Hround. f_equal.
    destruct st as [step path [orig cur ps es] schemes results].
    unfold restored. cbn in *. f_equal. f_equal.
    apply map_fixed. revert Hplain. apply Forall_impl.
    intros [i txt sp se pes cs] Hp. unfold plain_paragraph. cbn in *.
    f_equal. apply map_fixed. revert Hp. apply Forall_impl.
    intros e [H1 H2]. now apply plain_fixed.
  - reflexivity.
  - reflexivity.
Qed.

(** X30 at the two paragraphs that carry the code A1. *)
Lemma export_load_round_trip_witness :
  Forall (fun p => Forall (fun e => paragraph_id e = None
                                    /\ auto_detected e = None)
                          (Paragraph.entities p))
         (AppState.paragraphs
            (FullState.base
               (FullState.set_base FullState.reset MoreExamples.coded)))
  /\ load_state (FullState.set_base FullState.reset MoreExamples.coded)
       (export_state (FullState.set_base FullState.reset MoreExamples.coded))
     = Read (FullState.set_base FullState.reset MoreExamples.coded).
Proof.
  assert (H : Forall (fun p => Forall (fun e => paragraph_id e = None
                                                /\ auto_detected e = None)
                                      (Paragraph.entities p))
                     (AppState.paragraphs
                        (FullState.base
                           (FullState.set_base FullState.reset
                                               MoreExamples.coded)))).
  { repeat constructor. }
  split; [exact H|].
  exact (proj1 (proj2 (export_load_round_trip
                         (FullState.set_base FullState.reset MoreExamples.coded)
                         (FullState.set_base FullState.reset MoreExamples.coded)))
           H).
Defined.
